(** * DU-LuaC: the Lua compiler's require resolver and source transformer

    A shallow embedding of [DULuaCompiler] (the TypeScript class of
    src/elementTypes.js, second document) and the properties of its
    resolver, its memoised require graph and its text rewriting.

    JavaScript strings are modelled as [string]: sequences of code units
    below 256.  Every regular expression of the source is embedded as a
    dedicated scanning function; the comment above each one derives the
    function from the expression. *)

From Stdlib Require Import String Ascii List Bool Arith NArith ZArith QArith Lia.
Import ListNotations.
Close Scope Q_scope.
Open Scope string_scope.

Set Implicit Arguments.

(** ** JavaScript string primitives *)

Module JS.

(** [Some rest] when [s = p ++ rest]. *)
Fixpoint strip_prefix (p s : string) : option string :=
  match p with
  | "" => Some s
  | String a p' =>
      match s with
      | "" => None
      | String b s' => if Ascii.eqb a b then strip_prefix p' s' else None
      end
  end.

(** [String.prototype.startsWith]. *)
Definition startsWith (s p : string) : bool :=
  match strip_prefix p s with Some _ => true | None => false end.

(** The first occurrence of [needle] in [s]: the text before it and the
    text after it. *)
Fixpoint break_on (needle s : string) {struct s} : option (string * string) :=
  match strip_prefix needle s with
  | Some rest => Some ("", rest)
  | None =>
      match s with
      | "" => None
      | String c s' =>
          match break_on needle s' with
          | Some (b, a) => Some (String c b, a)
          | None => None
          end
      end
  end.

(** [String.prototype.includes]. *)
Definition includes (s needle : string) : bool :=
  match break_on needle s with Some _ => true | None => false end.

(** Whether the code unit [d] occurs in [s]. *)
Definition has_char (d : ascii) (s : string) : bool :=
  includes s (String d "").

(** Whether [s] starts with a code unit of the class [p]. *)
Definition head_in (p : ascii -> bool) (s : string) : bool :=
  match s with
  | String c _ => p c
  | EmptyString => false
  end.

(** [String.prototype.split] with a non-empty separator.  [skip] counts
    the code units of a separator occurrence still to be passed over. *)
Fixpoint split_from (sep : string) (skip : nat) (s : string) : list string :=
  match s with
  | "" => [""]
  | String c s' =>
      match skip with
      | S k => split_from sep k s'
      | O =>
          if startsWith s sep
          then "" :: split_from sep (String.length sep - 1) s'
          else match split_from sep 0 s' with
               | piece :: more => String c piece :: more
               | [] => [String c ""]
               end
      end
  end.

Definition split (s sep : string) : list string := split_from sep 0 s.

(** [Array.prototype.join]. *)
Fixpoint join (sep : string) (l : list string) : string :=
  match l with
  | [] => ""
  | [x] => x
  | x :: rest => x ++ sep ++ join sep rest
  end.

(** [s.replace(/c/g, r)] for a single code unit [c]. *)
Fixpoint replace_char (c : ascii) (r : string) (s : string) : string :=
  match s with
  | "" => ""
  | String a s' =>
      if Ascii.eqb a c then r ++ replace_char c r s'
      else String a (replace_char c r s')
  end.

(** White space and line terminators among the code units below 256:
    TAB, LF, VT, FF, CR, SP and NBSP.  This is the class of the regular
    expression escape [\s] and of [String.prototype.trim]. *)
Definition is_space (c : ascii) : bool :=
  let n := nat_of_ascii c in
  ((n =? 9) || (n =? 10) || (n =? 11) || (n =? 12) || (n =? 13)
   || (n =? 32) || (n =? 160))%nat.

(** The class [\w]: letters, digits and the underscore. *)
Definition is_word (c : ascii) : bool :=
  let n := nat_of_ascii c in
  (((48 <=? n) && (n <=? 57)) || ((65 <=? n) && (n <=? 90))
   || ((97 <=? n) && (n <=? 122)) || (n =? 95))%nat.

(** The class [[0-9]]. *)
Definition is_digit (c : ascii) : bool :=
  let n := nat_of_ascii c in ((48 <=? n) && (n <=? 57))%nat.

(** The line terminators the regular expression atom [.] refuses. *)
Definition is_line_terminator (c : ascii) : bool :=
  let n := nat_of_ascii c in ((n =? 10) || (n =? 13))%nat.

Fixpoint all_chars (p : ascii -> bool) (s : string) : bool :=
  match s with
  | "" => true
  | String c s' => p c && all_chars p s'
  end.

Fixpoint trim_start (s : string) : string :=
  match s with
  | "" => ""
  | String c s' => if is_space c then trim_start s' else s
  end.

Fixpoint trim_end (s : string) : string :=
  match s with
  | "" => ""
  | String c s' =>
      match trim_end s' with
      | "" => if is_space c then "" else String c ""
      | t => String c t
      end
  end.

(** [String.prototype.trim]. *)
Definition trim (s : string) : string := trim_end (trim_start s).

(** [String.prototype.slice(0, n)]. *)
Fixpoint take (n : nat) (s : string) : string :=
  match n, s with
  | S k, String c s' => String c (take k s')
  | _, _ => ""
  end.

(** [String.prototype.slice(n)]. *)
Fixpoint drop (n : nat) (s : string) : string :=
  match n, s with
  | S k, String _ s' => drop k s'
  | _, _ => s
  end.

(** The longest prefix made of code units of the class [p], and the
    rest: a greedy [p*]. *)
Fixpoint span (p : ascii -> bool) (s : string) : string * string :=
  match s with
  | "" => ("", "")
  | String c s' =>
      if p c then let '(a, b) := span p s' in (String c a, b)
      else ("", s)
  end.

(** GetSubstitution of ECMA-262 for a replacement template used with a
    string pattern (no captures, no named groups): only [$$], [$&],
    [$`] and [$'] are special; every other [$] stands for itself. *)
Fixpoint get_substitution (matched before after template : string) : string :=
  match template with
  | "" => ""
  | String c t =>
      if Ascii.eqb c "$" then
        match t with
        | String d t' =>
            if Ascii.eqb d "$" then String "$" (get_substitution matched before after t')
            else if Ascii.eqb d "&" then matched ++ get_substitution matched before after t'
            else if Ascii.eqb d "`" then before ++ get_substitution matched before after t'
            else if Ascii.eqb d "'" then after ++ get_substitution matched before after t'
            else String c (get_substitution matched before after t)
        | "" => String c ""
        end
      else String c (get_substitution matched before after t)
  end.

(** [s.replace(pattern, replacement)] with two strings: the first
    occurrence only, the replacement read as a template. *)
Definition replace_first (pattern replacement s : string) : string :=
  match break_on pattern s with
  | Some (before, after) =>
      before ++ get_substitution pattern before after replacement ++ after
  | None => s
  end.

End JS.

(** ** Module references *)

(** [DULuaCompilerFileName]. *)
Record DULuaCompilerFileName := mkFileName {
  project : option string;
  filename : string;
}.

(** [parseFileString]: the reference is split on every [:] and the first
    two pieces are kept.  ([formattedFilename] is computed by the source
    and never used.) *)
Definition parseFileString (ref : string) : DULuaCompilerFileName :=
  match JS.split ref ":" with
  | p :: f :: _ => mkFileName (Some p) f
  | p :: [] => mkFileName None p
  | [] => mkFileName None ""
  end.


(** ** JavaScript values of build variables and directive literals *)

(** A Number: the doubles are rationals, two infinities and NaN. *)
Inductive JSNumber :=
| NaN
| PosInfinity
| NegInfinity
| Finite (q : Q).

(** A value a build variable or [JSON.parse] can yield.  An object (an
    array or a record of the JSON text) is represented by the string its
    ToPrimitive conversion produces; two objects are never the same
    reference here, as one of them is always freshly parsed. *)
Inductive JSValue :=
| JUndefined
| JNull
| JBool (b : bool)
| JNumber (n : JSNumber)
| JString (s : string)
| JObject (primitive : string).

(** [CompilerVariableSet]: the value found under a name ([JUndefined]
    when the name is not bound). *)
Definition CompilerVariableSet := string -> JSValue.

(** Equality of two Numbers: NaN differs from everything. *)
Definition number_eq (a b : JSNumber) : bool :=
  match a, b with
  | Finite p, Finite q => Qeq_bool p q
  | PosInfinity, PosInfinity => true
  | NegInfinity, NegInfinity => true
  | _, _ => false
  end.

Definition ToNumber_bool (b : bool) : JSNumber :=
  Finite (if b then 1%Q else 0%Q).

(** ToBoolean. *)
Definition ToBoolean (v : JSValue) : bool :=
  match v with
  | JUndefined | JNull => false
  | JBool b => b
  | JNumber (Finite q) => negb (Qeq_bool q 0%Q)
  | JNumber NaN => false
  | JNumber _ => true
  | JString s => negb (s =? "")
  | JObject _ => true
  end.

(** The operator [||]. *)
Definition js_or (a b : JSValue) : JSValue := if ToBoolean a then a else b.

Section LooseEquality.

(** StringToNumber of ECMA-262, a primitive of the host. *)
Variable StringToNumber : string -> JSNumber.

Definition loose_eq_number (n : JSNumber) (y : JSValue) : bool :=
  match y with
  | JNumber m => number_eq n m
  | JString s => number_eq n (StringToNumber s)
  | JBool b => number_eq n (ToNumber_bool b)
  | JObject p => number_eq n (StringToNumber p)
  | JUndefined | JNull => false
  end.

Definition loose_eq_string (s : string) (y : JSValue) : bool :=
  match y with
  | JString t => s =? t
  | JNumber m => number_eq (StringToNumber s) m
  | JBool b => number_eq (StringToNumber s) (ToNumber_bool b)
  | JObject p => s =? p
  | JUndefined | JNull => false
  end.

(** The operator [==] (IsLooselyEqual). *)
Definition loose_eq (x y : JSValue) : bool :=
  match x with
  | JUndefined | JNull =>
      match y with JUndefined | JNull => true | _ => false end
  | JBool b => loose_eq_number (ToNumber_bool b) y
  | JNumber n => loose_eq_number n y
  | JString s => loose_eq_string s y
  | JObject p =>
      match y with
      | JObject _ | JUndefined | JNull => false
      | JBool b => loose_eq_string p (JNumber (ToNumber_bool b))
      | _ => loose_eq_string p y
      end
  end.

End LooseEquality.

(** ** Global replacement by a regular expression *)

(** A text cut by the matches of a global regular expression: the code
    units outside every match are kept, each match is a hit. *)
Inductive Segment (M : Type) :=
| Keep (c : ascii)
| Hit (m : M).
Arguments Keep {M} c.
Arguments Hit {M} m.

Section Scanning.

Variable M : Type.

(** [matcher before s] tries the expression at the head of [s];
    [before] is the text in front of it, last code unit first (only a
    lookbehind reads it).  It answers the match and the text after
    it. *)
Variable matcher : string -> string -> option (M * string).

(** The matches from left to right, as [String.prototype.replace] and
    [matchAll] find them with the flag [g]: after a match the search
    resumes behind it.  [skip] counts the code units of the current
    match still to be passed over.  No expression of the compiler
    matches the empty string. *)
Fixpoint segments (before : string) (skip : nat) (s : string) : list (Segment M) :=
  match s with
  | "" => []
  | String c s' =>
      match skip with
      | S k => segments (String c before) k s'
      | O =>
          match matcher before s with
          | Some (m, rest) =>
              Hit m :: segments (String c before)
                         (String.length s - String.length rest - 1) s'
          | None => Keep c :: segments (String c before) 0 s'
          end
      end
  end.

(** [s.replace(regex, fn)] with a synchronous replacer. *)
Fixpoint render (fn : M -> string) (l : list (Segment M)) : string :=
  match l with
  | [] => ""
  | Keep c :: l' => String c (render fn l')
  | Hit m :: l' => fn m ++ render fn l'
  end.

Definition replace_all (fn : M -> string) (s : string) : string :=
  render fn (segments "" 0 s).

End Scanning.

(** ** Conditional directives *)

(** The captures of [/---@if (\w+)\w?(.*?)\n([\S\s]*?)\n---@end/gm]. *)
Record DirectiveMatch := mkDirective {
  compareVariableName : string;
  compareValue : string;
  innerCode : string;
}.

Definition LF : string := String (ascii_of_nat 10) "".

Definition directive_end : string := LF ++ "---@end".

(** The expression at the head of [s].  [(\w+)] is greedy: the first
    attempt gives it the whole run of word code units and leaves nothing
    to [\w?].  [(.*?)] is lazy and [.] refuses the line terminators: it
    ends at the first line terminator, which has to be the line feed that
    [\n] demands.  [([\S\s]*?)] is lazy: it ends at the first [\n---@end]
    behind that line feed.  An attempt that gives word code units back to
    [\w?] or to [(.*?)] meets the same line terminator and the same
    closing marker, so it succeeds only where the first attempt does, and
    the first attempt is the one whose captures are reported. *)
Definition match_directive (before s : string) : option (DirectiveMatch * string) :=
  match JS.strip_prefix "---@if " s with
  | None => None
  | Some r1 =>
      let '(name, r2) := JS.span JS.is_word r1 in
      if name =? "" then None
      else
        let '(value, r3) := JS.span (fun c => negb (JS.is_line_terminator c)) r2 in
        match JS.strip_prefix LF r3 with
        | None => None
        | Some r4 =>
            match JS.break_on directive_end r4 with
            | Some (inner, rest) => Some (mkDirective name value inner, rest)
            | None => None
            end
        end
  end.

Section Directives.

Variable StringToNumber : string -> JSNumber.

(** [JSON.parse], a primitive of the host; [None] when it throws. *)
Variable JSON_parse : string -> option JSValue.

Variable buildVariables : CompilerVariableSet.

(** The two bodies of a block: [blocks['true']] and [blocks['false']]. *)
Definition directive_blocks (inner : string) : string * string :=
  if JS.includes inner "---@else" then
    match JS.split inner "---@else" with
    | p0 :: p1 :: _ => (p0, p1)
    | p0 :: [] => (p0, "")
    | [] => ("", "")
    end
  else (inner, "").

(** [parsedValue] of the action. *)
Definition directive_literal (value : string) : JSValue :=
  if Nat.eqb (String.length value) 0 then JBool true
  else match JSON_parse value with
       | Some v => v
       | None => JString value
       end.

(** The test [parsedValue == this.buildVariables[name] || null]: [==]
    binds tighter than [||]. *)
Definition directive_test (name value : string) : bool :=
  ToBoolean (js_or (JBool (loose_eq StringToNumber (directive_literal value)
                                    (buildVariables name)))
                   JNull).

(** The action of the directive [@if]. *)
Definition directive_action (d : DirectiveMatch) : string :=
  let '(block_true, block_false) := directive_blocks (innerCode d) in
  if directive_test (compareVariableName d) (compareValue d)
  then JS.trim block_true
  else JS.trim block_false.

(** [processDirectives]: the list of directives has one entry. *)
Definition processDirectives (sourceCode : string) : string :=
  replace_all match_directive directive_action sourceCode.

End Directives.

(** ** SHA-1, as [crypto.createHash('sha1').update(s).digest('hex')] *)

Module SHA1.

Local Open Scope N_scope.

Definition mask32 : N := 0xFFFFFFFF.

Definition add32 (a b : N) : N := N.land (a + b) mask32.

Definition not32 (a : N) : N := N.lxor a mask32.

(** Rotation of a 32-bit word to the left. *)
Definition rotl (n x : N) : N :=
  N.land (N.lor (N.shiftl x n) (N.shiftr x (32 - n))) mask32.

(** [update] encodes the string as UTF-8: a code unit from 128 to 255
    becomes two bytes. *)
Definition utf8 (s : string) : list N :=
  flat_map (fun c => let n := N_of_ascii c in
                     if n <? 128 then [n]
                     else [192 + N.shiftr n 6; 128 + N.land n 63])
           (list_ascii_of_string s).

(** The bytes of [n], most significant first, on [k] bytes. *)
Fixpoint big_endian (k : nat) (n : N) : list N :=
  match k with
  | O => []
  | S k' => N.land (N.shiftr n (8 * N.of_nat k')) 255 :: big_endian k' n
  end.

(** The message, the bit 1, zeros up to 56 modulo 64, the bit length. *)
Definition pad (msg : list N) : list N :=
  let len := N.of_nat (List.length msg) in
  let zeros := N.to_nat ((119 - len mod 64) mod 64) in
  msg ++ [128] ++ repeat 0 zeros ++ big_endian 8 (8 * len).

(** 32-bit words of a byte sequence, big endian. *)
Fixpoint words (fuel : nat) (bytes : list N) : list N :=
  match fuel, bytes with
  | S f, b0 :: b1 :: b2 :: b3 :: rest =>
      (N.shiftl b0 24 + N.shiftl b1 16 + N.shiftl b2 8 + b3) :: words f rest
  | _, _ => []
  end.

(** The message schedule, latest word first. *)
Fixpoint extend (n : nat) (rw : list N) : list N :=
  match n with
  | O => rw
  | S k =>
      let w := rotl 1 (N.lxor (N.lxor (nth 2 rw 0) (nth 7 rw 0))
                              (N.lxor (nth 13 rw 0) (nth 15 rw 0))) in
      extend k (w :: rw)
  end.

Definition schedule (block : list N) : list N :=
  rev (extend 64 (rev block)).

Definition State : Type := N * N * N * N * N.

Definition round (st : State) (iw : nat * N) : State :=
  let '(a, b, c, d, e) := st in
  let '(i, w) := iw in
  let '(f, k) :=
    if (i <? 20)%nat then (N.lor (N.land b c) (N.land (not32 b) d), 0x5A827999)
    else if (i <? 40)%nat then (N.lxor b (N.lxor c d), 0x6ED9EBA1)
    else if (i <? 60)%nat
         then (N.lor (N.lor (N.land b c) (N.land b d)) (N.land c d), 0x8F1BBCDC)
         else (N.lxor b (N.lxor c d), 0xCA62C1D6) in
  (add32 (add32 (add32 (add32 (rotl 5 a) f) e) k) w, a, rotl 30 b, c, d).

Definition compress (h : State) (block : list N) : State :=
  let '(h0, h1, h2, h3, h4) := h in
  let '(a, b, c, d, e) :=
    fold_left round (combine (seq 0 80) (schedule block)) h in
  (add32 h0 a, add32 h1 b, add32 h2 c, add32 h3 d, add32 h4 e).

(** The blocks of sixteen words. *)
Fixpoint blocks (fuel : nat) (ws : list N) : list (list N) :=
  match fuel, ws with
  | S f, _ :: _ => firstn 16 ws :: blocks f (skipn 16 ws)
  | _, _ => []
  end.

Definition initial : State :=
  (0x67452301, 0xEFCDAB89, 0x98BADCFE, 0x10325476, 0xC3D2E1F0).

Definition hex_digits : list ascii :=
  list_ascii_of_string "0123456789abcdef".

Definition is_hex_digit (c : ascii) : bool :=
  existsb (Ascii.eqb c) hex_digits.

Definition hex_digit (n : N) : ascii :=
  nth (N.to_nat (N.land n 15)) hex_digits "0"%char.

(** Eight hexadecimal digits of a word. *)
Definition hex8 (w : N) : string :=
  String (hex_digit (N.shiftr w 28)) (String (hex_digit (N.shiftr w 24))
  (String (hex_digit (N.shiftr w 20)) (String (hex_digit (N.shiftr w 16))
  (String (hex_digit (N.shiftr w 12)) (String (hex_digit (N.shiftr w 8))
  (String (hex_digit (N.shiftr w 4)) (String (hex_digit w) ""))))))).

Definition digest_hex (s : string) : string :=
  let bytes := pad (utf8 s) in
  let ws := words (List.length bytes) bytes in
  let '(h0, h1, h2, h3, h4) :=
    fold_left compress (blocks (List.length ws) ws) initial in
  (hex8 h0 ++ hex8 h1 ++ hex8 h2 ++ hex8 h3 ++ hex8 h4)%string.

End SHA1.

(** ** The regular expressions of the require rewriting *)

(** The captures of the require expression,
    [/(?<!--)require\s*\(\s*Q([^Q]+)Q\s*\)/g], where [Q] stands for the
    class of the two quotes, the single and the double one. *)
Record RequireMatch := mkRequireMatch {
  fullMatch : string;
  file : string;
}.

Definition double_quote : ascii := ascii_of_nat 34.

Definition is_quote (c : ascii) : bool :=
  Ascii.eqb c "'" || Ascii.eqb c double_quote.

(** The expression at the head of [s].  The lookbehind refuses a match
    that two hyphens precede.  Each [\s*] is greedy and the atom behind
    it is no white space; the run of the file name is greedy and the atom
    behind it is a quote, which the run cannot hold: an attempt with a
    shorter run fails at the next atom, so the longest runs are the only
    attempt that can succeed. *)
Definition match_require (before s : string) : option (RequireMatch * string) :=
  if JS.startsWith before "--" then None
  else
    match JS.strip_prefix "require" s with
    | None => None
    | Some r1 =>
        let '(ws1, r2) := JS.span JS.is_space r1 in
        match JS.strip_prefix "(" r2 with
        | None => None
        | Some r3 =>
            let '(ws2, r4) := JS.span JS.is_space r3 in
            match r4 with
            | String q1 r5 =>
                if is_quote q1 then
                  let '(name, r6) := JS.span (fun c => negb (is_quote c)) r5 in
                  if name =? "" then None
                  else
                    match r6 with
                    | String q2 r7 =>
                        if is_quote q2 then
                          let '(ws3, r8) := JS.span JS.is_space r7 in
                          match JS.strip_prefix ")" r8 with
                          | Some rest =>
                              Some (mkRequireMatch
                                      ("require" ++ ws1 ++ "(" ++ ws2 ++ String q1 name
                                       ++ String q2 ws3 ++ ")")
                                      name,
                                    rest)
                          | None => None
                          end
                        else None
                    | "" => None
                    end
                else None
            | "" => None
            end
        end
    end.

(** [escapeForRegex]: a backslash in front of each of
    [. * + ? ^ $ { } ( ) | [ ] \]. *)
Definition is_regex_special (c : ascii) : bool :=
  existsb (Ascii.eqb c) (list_ascii_of_string ".*+?^${}()|[]\").

Fixpoint escapeForRegex (str : string) : string :=
  match str with
  | "" => ""
  | String c s' =>
      if is_regex_special c then String "\" (String c (escapeForRegex s'))
      else String c (escapeForRegex s')
  end.

(** [/\[{2}(.|\n)*?\]{2}/g] at the head of [s]: two opening brackets,
    then the first [\]\]] that no carriage return precedes ([.|\n]
    accepts every code unit but the carriage return). *)
Fixpoint until_close (s : string) {struct s} : option string :=
  match JS.strip_prefix "]]" s with
  | Some rest => Some rest
  | None =>
      match s with
      | "" => None
      | String c s' =>
          if Ascii.eqb c (ascii_of_nat 13) then None else until_close s'
      end
  end.

Definition match_long_bracket (before s : string) : option (unit * string) :=
  match JS.strip_prefix "[[" s with
  | Some r => match until_close r with
              | Some rest => Some (tt, rest)
              | None => None
              end
  | None => None
  end.

(** [/-{2}.*/g] at the head of [s]: two hyphens and the rest of the
    line. *)
Definition match_line_comment (before s : string) : option (unit * string) :=
  match JS.strip_prefix "--" s with
  | Some r => Some (tt, snd (JS.span (fun c => negb (JS.is_line_terminator c)) r))
  | None => None
  end.

(** The text behind the first [q] of the line [s] starts with. *)
Fixpoint after_quote_in_line (q : ascii) (s : string) : option string :=
  match s with
  | "" => None
  | String c s' =>
      if Ascii.eqb c q then Some s'
      else if JS.is_line_terminator c then None
      else after_quote_in_line q s'
  end.

(** The body of [q.*?LIT.*?q], where [LIT] matches the text [lit] and
    nothing else: the first [.*?] grows by one code unit of the line at a
    time; at each length [lit] is tried, and behind it the second [.*?]
    up to the first [q] of the line. *)
Fixpoint quoted_body (q : ascii) (lit : string) (s : string) {struct s} : option string :=
  let here := match JS.strip_prefix lit s with
              | Some r => after_quote_in_line q r
              | None => None
              end in
  match here with
  | Some rest => Some rest
  | None =>
      match s with
      | "" => None
      | String c s' =>
          if JS.is_line_terminator c then None else quoted_body q lit s'
      end
  end.

Definition match_quoted (q : ascii) (lit : string) (before s : string)
  : option (unit * string) :=
  match s with
  | String c r =>
      if Ascii.eqb c q then
        match quoted_body q lit r with
        | Some rest => Some (tt, rest)
        | None => None
        end
      else None
  | "" => None
  end.

Definition erase (matcher : string -> string -> option (unit * string)) (s : string)
  : string :=
  replace_all matcher (fun _ => "") s.

(** [tempSource] of the require handler: the source without the long
    brackets, the line comments and the quoted strings that hold the
    rewritten require.  The expressions built from [newEscapedRequire]
    match the text [newRequire] itself, as [escapeForRegex] protects
    every special code unit of it. *)
Definition tempSource (cleanSource : string) (m : RequireMatch) : string :=
  let newRequire := "require([[" ++ file m ++ "]])" in
  let escapedRequire := escapeForRegex (fullMatch m) in
  erase (match_quoted double_quote newRequire)
    (erase (match_quoted "'" newRequire)
       (erase match_line_comment
          (erase match_long_bracket
             (JS.replace_first escapedRequire newRequire cleanSource)))).

(** [new RegExp(escapedRequire).test(tempSource)]: the expression
    matches the text [fullMatch] itself. *)
Definition require_survives (cleanSource : string) (m : RequireMatch) : bool :=
  JS.includes (tempSource cleanSource m) (fullMatch m).

(** [/([0-9])\?\n/g] at the head of [s]; the capture is the digit. *)
Definition match_undefined_behavior (before s : string) : option (ascii * string) :=
  match s with
  | String d (String q (String n rest)) =>
      if JS.is_digit d && Ascii.eqb q "?" && Ascii.eqb n (ascii_of_nat 10)
      then Some (d, rest) else None
  | _ => None
  end.

(** The test of the line that only holds an inlined require:
    [/^\s*_REQ\['.*?'\]\s*$/].  [tail] looks for a closing ['\]] that
    only white space follows, through code units [.] accepts. *)
Fixpoint inline_tail (s : string) {struct s} : bool :=
  let here := match JS.strip_prefix "']" s with
              | Some r => JS.all_chars JS.is_space r
              | None => false
              end in
  here ||
  match s with
  | "" => false
  | String c s' => if JS.is_line_terminator c then false else inline_tail s'
  end.

Definition globalInlineRequire : string := "_REQ".

Definition is_bare_inline_require (line : string) : bool :=
  match JS.strip_prefix (globalInlineRequire ++ "['") (JS.trim_start line) with
  | Some r => inline_tail r
  | None => false
  end.

(** [sourceCode.replace(/\r\n/g, '\n')]. *)
Fixpoint normalize_newlines (s : string) : string :=
  match s with
  | "" => ""
  | String c s' =>
      if Ascii.eqb c (ascii_of_nat 13) && JS.startsWith s' LF
      then normalize_newlines s'
      else String c (normalize_newlines s')
  end.

(** ** The compiler *)

(** [Library]: the fields the compiler reads. *)
Record Library := mkLibrary {
  id : string;
  sourcePath : string;
}.

(** [DULuaCompilerFileInfo]. *)
Record DULuaCompilerFileInfo := mkFileInfo {
  requireInfo : DULuaCompilerFileName;
  fullpath : string;
}.

(** [DULuaCompilerRequire]. *)
Record DULuaCompilerRequire := mkRequire {
  fullNameWithProject : string;
  sourceCode : string;
}.

(** [DULuaCompilerPreload]. *)
Record DULuaCompilerPreload := mkPreload {
  preload_path : string;
  preload_source : string;
  preload_output : string;
}.

(** What a compilation does to its surroundings, in order: the messages
    of [CLI.status] and [CLI.warn] and the reads of the file system. *)
Inductive Event :=
| StatusGameLibrary (reference : string) (currentFile : option string)
| WarnNotFound (reference : string) (currentFile : option string)
| StatusExternalPath (newName : string) (path : string)
| StatusCompiling (path : string)
| WarnUndefinedBehavior
| ReadFile (path : string).

(** The ways a compilation stops: the panics of [CLI.panic] and the
    errors thrown.  Modelled from the spec: [CLI.panic] is fatal, it
    unwinds the whole compilation at once. *)
Inductive Failure :=
| PanicLibraryNotFound (reference : string)
| PanicProjectFileMissing (reference : string)
| PanicBuildFailed
| ParseError (line : nat) (message : string) (errorLine : option string)
| RequireLoop (currentFile : option string)
| HelperFailure
| TypeError.

(** The mutable fields of a compiler instance, and the trace of its
    effects. *)
Record State := mkState {
  sourceDirectories : list string;
  requiredFiles : list DULuaCompilerRequire;
  currentFiles : list string;
  currentLibraries : list (option Library);
  currentLineOfCode : list nat;
  trace : list Event;
}.

(** Node and the parser library, as the compiler calls them. *)
Record Host := mkHost {
  (** [fs.existsSync(p) && fs.statSync(p).isFile()] *)
  fs_isFile : string -> bool;
  (** [fs.readFileSync(p).toString()] *)
  fs_readFile : string -> string;
  path_join : string -> string -> string;
  path_resolve : string -> string;
  path_relative : string -> string -> string;
  path_dirname : string -> string;
  path_basename : string -> string;
  (** [luaparse.parse]: the line and the message of the error it throws. *)
  luaparse : string -> option (nat * string);
  StringToNumber : string -> JSNumber;
  JSON_parse : string -> option JSValue;
}.

(** The fields of a compiler instance that a compilation only reads: the
    project, the build, the build target, and the two collaborators of
    the line loop. *)
Record Compiler := mkCompiler {
  projectName : string;
  projectSourceDirectory : string;
  internalPaths : list string;
  (** [project.containsPath] *)
  containsPath : string -> bool;
  (** [Library.loadFromProject(project)] *)
  projectLibrary : Library;
  (** [project.getLibraries()] *)
  projectLibraries : list Library;
  loadedLuaPath : list string;
  buildName : string;
  (** [build.options.preload] *)
  preload : bool;
  buildVariables : CompilerVariableSet;
  (** [DULuaCompilerExport.codeHasExportStatement] *)
  codeHasExportStatement : string -> bool;
  (** [DULuaCompilerExport.encodeExportStatement] *)
  encodeExportStatement : string -> string;
  (** Modelled from the spec: the expressions that
      [DULuaCompilerFunctionParser.generateRegex] appends, which expand
      the calls of the compiler's helper functions on a line into literal
      content and fail when an argument is no literal.  The function
      reads the state of the compiler and answers the rewritten line. *)
  expandCompilerFunctions : State -> string -> option string;
}.

(** *** The monad of the compilation: state, failure and fuel *)

Inductive Outcome (A : Type) :=
| Done (a : A) (st : State)
| Failed (f : Failure)
| Starved.
Arguments Done {A} a st.
Arguments Failed {A} f.
Arguments Starved {A}.

Definition Run (A : Type) : Type := State -> Outcome A.

Definition ret {A} (a : A) : Run A := fun st => Done a st.

Definition bind {A B} (m : Run A) (k : A -> Run B) : Run B :=
  fun st =>
    match m st with
    | Done a st' => k a st'
    | Failed f => Failed f
    | Starved => Starved
    end.

Definition fail {A} (f : Failure) : Run A := fun _ => Failed f.

(** The state after one more event. *)
Definition logged (st : State) (e : Event) : State :=
  mkState (sourceDirectories st) (requiredFiles st) (currentFiles st)
          (currentLibraries st) (currentLineOfCode st) (trace st ++ [e]).

Definition emit (e : Event) : Run unit := fun st => Done tt (logged st e).

(** Two states that differ in their traces at most. *)
Definition same_frame (st st' : State) : Prop :=
  sourceDirectories st' = sourceDirectories st
  /\ requiredFiles st' = requiredFiles st
  /\ currentFiles st' = currentFiles st
  /\ currentLibraries st' = currentLibraries st
  /\ currentLineOfCode st' = currentLineOfCode st.

Declare Scope run_scope.
Delimit Scope run_scope with run.
Notation "x <- m ;; k" := (bind m (fun x => k))
  (at level 61, m at next level, right associativity) : run_scope.
Notation "m ;;; k" := (bind m (fun _ => k))
  (at level 61, right associativity) : run_scope.
Open Scope run_scope.

(** [replaceAsync].  Modelled from the spec: [Utils.replaceAsync] calls
    the handler on the matches of the line from left to right, each call
    finished before the next one starts, and puts the answers in the
    place of the matches. *)
Fixpoint replaceAsync {M} (handler : M -> Run string) (l : list (Segment M)) : Run string :=
  match l with
  | [] => ret ""
  | Keep c :: l' => rest <- replaceAsync handler l' ;; ret (String c rest)
  | Hit m :: l' =>
      r <- handler m ;;
      rest <- replaceAsync handler l' ;;
      ret (r ++ rest)
  end.

(** The truth of an optional string: [undefined] and the empty string
    are false. *)
Definition truthy_name (o : option string) : bool :=
  match o with
  | Some s => negb (s =? "")
  | None => false
  end.

Section Compilation.

Variable host : Host.
Variable compiler : Compiler.

(** [loadedLibraries], filled by the constructor from the project's
    library and the libraries of the project, a later library taking
    the place of an earlier one with the same identifier. *)
Definition loadedLibraries (key : string) : option Library :=
  find (fun l => id l =? key)
       (rev (projectLibrary compiler :: projectLibraries compiler)).

(** The state the constructor leaves. *)
Definition initialState : State :=
  mkState [projectSourceDirectory compiler] [] [] [] [] [].

Definition getCurrentDirectory (st : State) : option string :=
  hd_error (sourceDirectories st).

Definition getCurrentFile (st : State) : option string :=
  hd_error (currentFiles st).

Definition getCurrentLibrary (st : State) : option Library :=
  match currentLibraries st with
  | Some l :: _ => Some l
  | _ => None
  end.

(** The state after [sourceStartProcessing]. *)
Definition entered (f : string) (library : option Library) (st : State) : State :=
  mkState (path_dirname host f :: sourceDirectories st)
          (requiredFiles st)
          (f :: currentFiles st)
          (library :: currentLibraries st)
          (currentLineOfCode st)
          (trace st).

(** The state after [sourceFinishProcessing]. *)
Definition left (st : State) : State :=
  mkState (tl (sourceDirectories st))
          (requiredFiles st)
          (tl (currentFiles st))
          (tl (currentLibraries st))
          (currentLineOfCode st)
          (trace st).

(** [isRootFile]: [!this.currentFiles[0]]. *)
Definition isRootFile (st : State) : bool :=
  negb (truthy_name (getCurrentFile st)).

(** [getRequiredFileInfo]. *)
Definition getRequiredFileInfo (reference : string) (st : State)
  : Failure + option DULuaCompilerFileInfo :=
  let parsed := parseFileString reference in
  let named := truthy_name (project parsed) in
  let library :=
    if named
    then match project parsed with
         | Some p => loadedLibraries p
         | None => None
         end
    else Some (projectLibrary compiler) in
  match library with
  | None => inl (PanicLibraryNotFound reference)
  | Some lib =>
      let projectPrefix :=
        if named then Some (sourcePath lib) else getCurrentDirectory st in
      match projectPrefix with
      | None => inl TypeError
      | Some prefix =>
          let internalLuaPath :=
            path_join host prefix "?.lua" :: loadedLuaPath compiler in
          let possibleFilePaths :=
            map (JS.replace_first "?" (filename parsed)) internalLuaPath in
          match find (fs_isFile host) possibleFilePaths with
          | None => inr None
          | Some filepath =>
              if filepath =? "" then inr None
              else
                let full := path_resolve host filepath in
                let canonical :=
                  match getCurrentLibrary st with
                  | Some currentLibrary =>
                      mkFileName
                        (if named then project parsed else Some (id currentLibrary))
                        (JS.replace_char "\" "/"
                           (path_relative host (sourcePath currentLibrary) full))
                  | None => parsed
                  end in
                inr (Some (mkFileInfo canonical full))
          end
      end
  end.

(** The name of a file outside the project: ten hexadecimal digits of
    the SHA-1 of its path, a colon, its base name. *)
Definition externalRequireName (full : string) : string :=
  JS.take 10 (SHA1.digest_hex full) ++ ":" ++ path_basename host full.

(** [requireFullName] of [requireFile], once it is final. *)
Definition requireFullName (info : DULuaCompilerFileInfo) : string :=
  if negb (containsPath compiler (fullpath info))
  then externalRequireName (fullpath info)
  else
    (if truthy_name (project (requireInfo info))
     then match project (requireInfo info) with Some p => p | None => "" end
     else "::extern")
    ++ ":" ++ filename (requireInfo info).

(** [this.currentLineOfCode.unshift(0)]. *)
Definition pushLineOfCode : Run unit :=
  fun st => Done tt (mkState (sourceDirectories st) (requiredFiles st) (currentFiles st)
                             (currentLibraries st) (0 :: currentLineOfCode st)
                             (trace st)).

(** [this.currentLineOfCode[0] = n]. *)
Definition setLineOfCode (n : nat) : Run unit :=
  fun st => Done tt (mkState (sourceDirectories st) (requiredFiles st) (currentFiles st)
                             (currentLibraries st) (n :: tl (currentLineOfCode st))
                             (trace st)).

(** [this.currentLineOfCode.pop()]: the last element leaves. *)
Definition popLineOfCode : Run unit :=
  fun st => Done tt (mkState (sourceDirectories st) (requiredFiles st) (currentFiles st)
                             (currentLibraries st) (removelast (currentLineOfCode st))
                             (trace st)).

(** The state after [this.requiredFiles.push(entry)]. *)
Definition accumulated (entry : DULuaCompilerRequire) (st : State) : State :=
  mkState (sourceDirectories st) (requiredFiles st ++ [entry])
          (currentFiles st) (currentLibraries st)
          (currentLineOfCode st) (trace st).

(** The notice of a reference that resolves to nothing: a status
    message when the reference starts with an internal path, a warning
    otherwise. *)
Definition missing_notice (reference : string) (st : State) : Event :=
  if existsb (JS.startsWith reference) (internalPaths compiler)
  then StatusGameLibrary reference (getCurrentFile st)
  else WarnNotFound reference (getCurrentFile st).

(** The library a file is processed under: the one its canonical
    library field names. *)
Definition owner (requiredInfo : DULuaCompilerFileInfo) : option Library :=
  if truthy_name (project (requireInfo requiredInfo))
  then match project (requireInfo requiredInfo) with
       | Some p => loadedLibraries p
       | None => None
       end
  else None.

(** The state in which [requireFile] looks its name up: a file outside
    the project has been announced under its hashed name. *)
Definition announced (requiredInfo : DULuaCompilerFileInfo) (st : State) : State :=
  if negb (containsPath compiler (fullpath requiredInfo))
  then logged st (StatusExternalPath (requireFullName requiredInfo)
                                     (fullpath requiredInfo))
  else st.

(** The state in which the source of a file is processed: the file has
    been read and announced, and [sourceStartProcessing] has run. *)
Definition opened (requiredInfo : DULuaCompilerFileInfo) (st : State) : State :=
  entered (fullpath requiredInfo) (owner requiredInfo)
          (logged (logged st (ReadFile (fullpath requiredInfo)))
                  (StatusCompiling (fullpath requiredInfo))).

(** The state [requireFile] leaves behind a processed file:
    [sourceFinishProcessing] has run and the entry is accumulated unless
    the root file is the one that was processed. *)
Definition closed (entry : DULuaCompilerRequire) (st : State) : State :=
  if negb (isRootFile (left st)) then accumulated entry (left st) else left st.

Section Knot.

(** The recursive call of [requireFile] from the require handler. *)
Variable requireFile_rec : string -> Run (option DULuaCompilerRequire).

(** The handler of the require expression. *)
Definition require_handler (cleanSource : string) (m : RequireMatch) : Run string :=
  if negb (require_survives cleanSource m) then ret (fullMatch m)
  else
    requireResult <- requireFile_rec (file m) ;;
    match requireResult with
    | None => ret (fullMatch m)
    | Some entry =>
        if negb (preload compiler)
        then ret (globalInlineRequire ++ "['" ++ fullNameWithProject entry ++ "']")
        else ret ("require('" ++ fullNameWithProject entry ++ "')")
    end.

(** The handler of the expression of the undefined behaviour. *)
Definition undefined_behavior_handler (digit : ascii) : Run string :=
  emit WarnUndefinedBehavior ;;;
  ret (String digit (".0" ++ LF)).

(** The expressions of [compilerRegexes] on one line, in the order
    of [Object.values]. *)
Definition rewrite_line (cleanSource : string) (line : string) : Run string :=
  line1 <- replaceAsync (require_handler cleanSource)
                        (segments match_require "" 0 line) ;;
  line2 <- replaceAsync undefined_behavior_handler
                        (segments match_undefined_behavior "" 0 line1) ;;
  fun st =>
    match expandCompilerFunctions compiler st line2 with
    | Some line3 => Done line3 st
    | None => Failed HelperFailure
    end.

(** The loop over the lines from the index [idx] on.  [None] is the
    [return ''] of the loop body, which leaves the whole function. *)
Fixpoint process_lines (cleanSource : string) (idx : nat) (lines : list string)
  : Run (option (list string)) :=
  match lines with
  | [] => ret (Some [])
  | line :: more =>
      setLineOfCode (idx + 1) ;;;
      rewritten <- rewrite_line cleanSource
                     (if codeHasExportStatement compiler line
                      then encodeExportStatement compiler line
                      else line) ;;
      if negb (preload compiler) && is_bare_inline_require rewritten
      then ret None
      else
        rest <- process_lines cleanSource (idx + 1) more ;;
        ret (option_map (cons rewritten) rest)
  end.

(** [processSourceCode]. *)
Definition processSourceCode (source : string) : Run string :=
  let normalized := normalize_newlines source in
  let expanded :=
    processDirectives (StringToNumber host) (JSON_parse host)
                      (buildVariables compiler) normalized in
  match luaparse host expanded with
  | Some (line, message) =>
      fail (ParseError line message (nth_error (JS.split expanded LF) (line - 1)))
  | None =>
      let cleanSource := JS.replace_char (ascii_of_nat 13) "" expanded in
      pushLineOfCode ;;;
      lines <- process_lines cleanSource 0 (JS.split expanded LF) ;;
      match lines with
      | None => ret ""
      | Some ls => popLineOfCode ;;; ret (JS.join LF ls)
      end
  end.

(** [requireFile], its recursive calls left to [requireFile_rec]. *)
Definition requireFile_body (reference : string)
  : Run (option DULuaCompilerRequire) :=
  fun st =>
    match getRequiredFileInfo reference st with
    | inl f => Failed f
    | inr None =>
        if isRootFile st then Failed (PanicProjectFileMissing reference)
        else Done None (logged st (missing_notice reference st))
    | inr (Some requiredInfo) =>
        if existsb (String.eqb (fullpath requiredInfo)) (currentFiles st)
        then Failed (RequireLoop (getCurrentFile st))
        else
          let name := requireFullName requiredInfo in
          let st1 := announced requiredInfo st in
          match filter (fun entry => fullNameWithProject entry =? name)
                       (requiredFiles st1) with
          | existing :: _ => Done (Some existing) st1
          | [] =>
              match processSourceCode (fs_readFile host (fullpath requiredInfo))
                                      (opened requiredInfo st1) with
              | Done processedSource st2 =>
                  let requireEntry := mkRequire name processedSource in
                  Done (Some requireEntry) (closed requireEntry st2)
              | Failed f => Failed f
              | Starved => Starved
              end
          end
    end.

End Knot.

(** [requireFile]: [fuel] bounds the depth of the nested requires. *)
Fixpoint requireFile (fuel : nat) (reference : string)
  : Run (option DULuaCompilerRequire) :=
  match fuel with
  | O => fun _ => Starved
  | S n => requireFile_body (requireFile n) reference
  end.

(** The state after the first statement of [startBuild]. *)
Definition started (st : State) : State :=
  mkState (sourceDirectories st) (requiredFiles st) (currentFiles st)
          [Some (projectLibrary compiler)] (currentLineOfCode st) (trace st).

(** The result of [startBuild]: the output and the preloads. *)
Record DULuaCompilerResult := mkResult {
  output : string;
  preloads : list DULuaCompilerPreload;
}.

Definition toPreload (entry : DULuaCompilerRequire) : DULuaCompilerPreload :=
  mkPreload (fullNameWithProject entry) (sourceCode entry)
            ("package.preload['" ++ fullNameWithProject entry
             ++ "'] = (function (...) " ++ sourceCode entry ++ "; end);").

(** [startBuild]. *)
Definition startBuild (fuel : nat) (requireName : option string)
  : Run DULuaCompilerResult :=
  fun st =>
    (outputLua <- requireFile fuel
                    (if truthy_name requireName
                     then match requireName with Some r => r | None => "" end
                     else projectName compiler ++ ":" ++ buildName compiler) ;;
     match outputLua with
     | None => fail PanicBuildFailed
     | Some entry =>
         fun st1 => Done (mkResult (sourceCode entry)
                                   (map toPreload (requiredFiles st1))) st1
     end) (started st).

(** [compile]: a fresh instance, then [startBuild]. *)
Definition compile (fuel : nat) : Outcome DULuaCompilerResult :=
  startBuild fuel None initialState.

End Compilation.

(** ** A POSIX host for the examples *)

(** The functions of Node's [path.posix] the compiler calls, with the
    working directory of the process as a parameter. *)
Module Posix.

Definition slash : ascii := "/".

Definition is_slash (c : ascii) : bool := Ascii.eqb c slash.

Definition isAbsolute (p : string) : bool := JS.startsWith p "/".

(** [normalizeString]: the segments of a path without the empty ones and
    the dots, each [..] removing the segment in front of it; [kept] holds
    the result so far, last segment first. *)
Fixpoint normalize_segments (allowAboveRoot : bool) (kept segs : list string)
  : list string :=
  match segs with
  | [] => rev kept
  | s :: rest =>
      if (s =? "") || (s =? ".") then normalize_segments allowAboveRoot kept rest
      else if s =? ".." then
        match kept with
        | top :: kept' =>
            if top =? ".." then normalize_segments allowAboveRoot (s :: kept) rest
            else normalize_segments allowAboveRoot kept' rest
        | [] =>
            if allowAboveRoot then normalize_segments allowAboveRoot [s] rest
            else normalize_segments allowAboveRoot [] rest
        end
      else normalize_segments allowAboveRoot (s :: kept) rest
  end.

Definition normalizeString (p : string) (allowAboveRoot : bool) : string :=
  JS.join "/" (normalize_segments allowAboveRoot [] (JS.split p "/")).

Definition ends_with_slash (p : string) : bool :=
  match rev (list_ascii_of_string p) with
  | c :: _ => is_slash c
  | [] => false
  end.

Definition normalize (p : string) : string :=
  if p =? "" then "."
  else
    let body := normalizeString p (negb (isAbsolute p)) in
    if body =? "" then
      if isAbsolute p then "/" else if ends_with_slash p then "./" else "."
    else
      let body' := if ends_with_slash p then body ++ "/" else body in
      if isAbsolute p then "/" ++ body' else body'.

Definition join (a b : string) : string :=
  if a =? "" then (if b =? "" then "." else normalize b)
  else if b =? "" then normalize a
  else normalize (a ++ "/" ++ b).

(** The segments of the absolute form of [p]. *)
Definition resolved_segments (cwd p : string) : list string :=
  normalize_segments false []
    (JS.split (if isAbsolute p then p else cwd ++ "/" ++ p) "/").

Definition resolve (cwd p : string) : string :=
  "/" ++ JS.join "/" (resolved_segments cwd p).

Fixpoint drop_common (a b : list string) : list string * list string :=
  match a, b with
  | x :: a', y :: b' => if x =? y then drop_common a' b' else (a, b)
  | _, _ => (a, b)
  end.

Definition relative (cwd from to : string) : string :=
  let '(up, down) := drop_common (resolved_segments cwd from) (resolved_segments cwd to) in
  JS.join "/" (map (fun _ => "..") up ++ down).

Fixpoint drop_while (p : ascii -> bool) (l : list ascii) : list ascii :=
  match l with
  | c :: l' => if p c then drop_while p l' else l
  | [] => []
  end.

Fixpoint take_while (p : ascii -> bool) (l : list ascii) : list ascii :=
  match l with
  | c :: l' => if p c then c :: take_while p l' else []
  | [] => []
  end.

(** [dirname]: the scan from the end of the path stops in front of its
    first code unit. *)
Definition dirname (p : string) : string :=
  match list_ascii_of_string p with
  | [] => "."
  | first :: body =>
      let behind := drop_while (fun c => negb (is_slash c))
                               (drop_while is_slash (rev body)) in
      match behind with
      | [] => if is_slash first then "/" else "."
      | _ :: front =>
          match front with
          | [] => if is_slash first then "//" else String first ""
          | _ => string_of_list_ascii (first :: rev front)
          end
      end
  end.

Definition basename (p : string) : string :=
  string_of_list_ascii
    (rev (take_while (fun c => negb (is_slash c))
                     (drop_while is_slash (rev (list_ascii_of_string p))))).

End Posix.

(** The value of a run of decimal digits. *)
Definition digits_value (s : string) : Z :=
  fold_left (fun acc c => (10 * acc + Z.of_nat (nat_of_ascii c - 48))%Z)
            (list_ascii_of_string s) 0%Z.

(** StringToNumber on the strings without a fraction, an exponent or a
    radix prefix: white space around a signed decimal integer or around
    nothing; every other string of that kind is NaN. *)
Definition StringToNumber_integers (s : string) : JSNumber :=
  let t := JS.trim s in
  match t with
  | "" => Finite 0
  | String c r =>
      let '(negative, ds) :=
        if Ascii.eqb c "-" then (true, r)
        else if Ascii.eqb c "+" then (false, r)
        else (false, t) in
      if negb (ds =? "") && JS.all_chars JS.is_digit ds
      then Finite (inject_Z (if negative then - digits_value ds else digits_value ds))
      else NaN
  end.

Definition is_json_space (c : ascii) : bool :=
  let n := nat_of_ascii c in
  ((n =? 9) || (n =? 10) || (n =? 13) || (n =? 32))%nat.

Fixpoint json_trim_start (s : string) : string :=
  match s with
  | "" => ""
  | String c s' => if is_json_space c then json_trim_start s' else s
  end.

(** [JSON.parse] on the texts that hold one literal without a fraction,
    an exponent or an escape: [true], [false], [null], a decimal integer
    or a string between double quotes, white space around it.  Every
    other text of that kind makes [JSON.parse] throw. *)
Definition JSON_parse_literals (s : string) : option JSValue :=
  let t := string_of_list_ascii
             (rev (list_ascii_of_string
                     (json_trim_start
                        (string_of_list_ascii
                           (rev (list_ascii_of_string (json_trim_start s))))))) in
  if t =? "true" then Some (JBool true)
  else if t =? "false" then Some (JBool false)
  else if t =? "null" then Some JNull
  else
    match t with
    | "" => None
    | String c r =>
        if Ascii.eqb c double_quote then
          let '(body, r') := JS.span (fun d => negb (Ascii.eqb d double_quote)) r in
          if (r' =? String double_quote "")
             && JS.all_chars (fun d => negb (Ascii.eqb d "\")
                                       && (32 <=? nat_of_ascii d)%nat) body
          then Some (JString body) else None
        else
          let ds := if Ascii.eqb c "-" then r else t in
          if negb (ds =? "") && JS.all_chars JS.is_digit ds
             && ((ds =? "0") || negb (JS.startsWith ds "0"))
          then Some (JNumber (Finite (inject_Z (if Ascii.eqb c "-"
                                                then - digits_value ds
                                                else digits_value ds))))
          else None
    end.

(** A file system: the absolute paths of its regular files and their
    contents. *)
Definition FileSystem := list (string * string).

Definition fs_lookup (fs : FileSystem) (p : string) : option string :=
  match find (fun entry => fst entry =? p) fs with
  | Some entry => Some (snd entry)
  | None => None
  end.

(** A host with POSIX paths whose parser accepts every text. *)
Definition posix_host (cwd : string) (fs : FileSystem) : Host :=
  mkHost
    (fun p => match fs_lookup fs (Posix.resolve cwd p) with
              | Some _ => true
              | None => false
              end)
    (fun p => match fs_lookup fs (Posix.resolve cwd p) with
              | Some content => content
              | None => ""
              end)
    Posix.join
    (Posix.resolve cwd)
    (Posix.relative cwd)
    Posix.dirname
    Posix.basename
    (fun _ => None)
    StringToNumber_integers
    JSON_parse_literals.

(** A project in [/p] with its sources in [/p/src], the library [util]
    in [/p/libs/util], the library [ext] outside the project in
    [/opt/ext], no export statement and no helper call. *)
Definition sample_compiler (preloading : bool) (variables : CompilerVariableSet)
  : Compiler :=
  mkCompiler
    "proj" "/p/src" ["dkjson"]
    (fun p => JS.startsWith p "/p/")
    (mkLibrary "proj" "/p/src")
    [mkLibrary "util" "/p/libs/util"; mkLibrary "ext" "/opt/ext"]
    []
    "main"
    preloading
    variables
    (fun _ => false)
    (fun line => line)
    (fun _ line => Some line).

Definition no_variables : CompilerVariableSet := fun _ => JUndefined.

Definition quoted (s : string) : string :=
  String double_quote (s ++ String double_quote "").

(** The main file requires two files of the library; the second one
    requires the first one by its bare name. *)
Definition diamond_files : FileSystem :=
  [ ("/p/src/main.lua",
     "local a = require(" ++ quoted "util:a" ++ ")" ++ LF
     ++ "local b = require(" ++ quoted "util:b" ++ ")" ++ LF
     ++ "return a + b");
    ("/p/libs/util/a.lua", "return 1");
    ("/p/libs/util/b.lua", "return require(" ++ quoted "a" ++ ")") ].

Definition diamond_host : Host := posix_host "/p" diamond_files.

(** Two files that require each other. *)
Definition cycle_files : FileSystem :=
  [ ("/p/src/main.lua", "return require(" ++ quoted "a" ++ ")");
    ("/p/src/a.lua", "return require(" ++ quoted "b" ++ ")");
    ("/p/src/b.lua", "return require(" ++ quoted "a" ++ ")") ].

(** A main file of three lines whose second line is a bare require. *)
Definition inline_files : FileSystem :=
  [ ("/p/src/main.lua",
     "local x = 1" ++ LF ++ "require(" ++ quoted "helper" ++ ")" ++ LF ++ "return x");
    ("/p/src/helper.lua", "y = 2") ].

(** A main file whose first line is a comment that ends with a digit and
    a question mark. *)
Definition question_files : FileSystem :=
  [ ("/p/src/main.lua", "-- is it 1?" ++ LF ++ "return 1") ].

(** A main file that requires a library of the game and a file that
    does not exist. *)
Definition missing_files : FileSystem :=
  [ ("/p/src/main.lua",
     "local json = require(" ++ quoted "dkjson" ++ ")" ++ LF
     ++ "local m = require(" ++ quoted "MISSING_FILE" ++ ")") ].

(** A main file that requires a file of the library outside the
    project. *)
Definition external_files : FileSystem :=
  [ ("/p/src/main.lua", "return require(" ++ quoted "ext:tool" ++ ")");
    ("/opt/ext/tool.lua", "return 7") ].

(** The state while the main file of the sample project is processed. *)
Definition state_in_main : State :=
  mkState ["/p/src"; "/p/src"] [] ["/p/src/main.lua"]
          [Some (mkLibrary "proj" "/p/src"); Some (mkLibrary "proj" "/p/src")]
          [1] [].

(** The state while the file [b.lua] of the library [util] is processed
    on behalf of the main file. *)
Definition state_in_util : State :=
  mkState ["/p/libs/util"; "/p/src"; "/p/src"] []
          ["/p/libs/util/b.lua"; "/p/src/main.lua"]
          [Some (mkLibrary "util" "/p/libs/util");
           Some (mkLibrary "proj" "/p/src"); Some (mkLibrary "proj" "/p/src")]
          [1; 2] [].

(** ** The properties under study, in the words of the specification *)

Definition is_read_of (p : string) (e : Event) : bool :=
  match e with ReadFile q => q =? p | _ => false end.

Definition is_compilation_of (p : string) (e : Event) : bool :=
  match e with StatusCompiling q => q =? p | _ => false end.

Definition is_warning (e : Event) : bool :=
  match e with
  | WarnNotFound _ _ | WarnUndefinedBehavior => true
  | _ => false
  end.

(** The number of times a build read the file [p]. *)
Definition reads_of (p : string) (st : State) : nat :=
  List.length (filter (is_read_of p) (trace st)).

(** The number of times a build transformed the file [p]. *)
Definition compilations_of (p : string) (st : State) : nat :=
  List.length (filter (is_compilation_of p) (trace st)).

(** Uniqueness by path: a build that ends reads no file twice. *)
Definition unique_per_path (A : Type) (o : Outcome A) : Prop :=
  forall a st p, o = Done a st -> reads_of p st <= 1.

(** A file reached along two paths without a cycle is resolved once: a
    build that ends transformed the file [p] exactly once. *)
Definition resolved_exactly_once (A : Type) (o : Outcome A) (p : string) : Prop :=
  forall a st, o = Done a st -> compilations_of p st = 1.

(** Canonical names: the file name of a resolved reference is relative
    to the source root of the library its library field names, and two
    references to one file bear one name. *)
Definition canonical_by_library (host : Host) (compiler : Compiler)
           (reference : string) (st : State) : Prop :=
  forall info lib,
    getRequiredFileInfo host compiler reference st = inr (Some info) ->
    project (requireInfo info) = Some (id lib) ->
    loadedLibraries compiler (id lib) = Some lib ->
    filename (requireInfo info)
    = JS.replace_char "\" "/" (path_relative host (sourcePath lib) (fullpath info)).

Definition same_file_same_name (host : Host) (compiler : Compiler)
           (reference1 : string) (st1 : State) (reference2 : string) (st2 : State)
  : Prop :=
  forall info1 info2,
    getRequiredFileInfo host compiler reference1 st1 = inr (Some info1) ->
    getRequiredFileInfo host compiler reference2 st2 = inr (Some info2) ->
    fullpath info1 = fullpath info2 ->
    requireInfo info1 = requireInfo info2.

(** The reference is cut at its first colon only. *)
Definition cut_at_first_colon (reference : string) : Prop :=
  forall lib rest,
    reference = lib ++ ":" ++ rest ->
    JS.has_char ":" lib = false ->
    parseFileString reference = mkFileName (Some lib) rest.

(** The text of a directive block. *)
Definition directive_block (name value inner : string) : string :=
  "---@if " ++ name ++ value ++ LF ++ inner ++ directive_end.

(** The test of a directive as the specification words it: the variable
    equals the literal, or is truthy when no literal is written. *)
Definition directive_test_by_truthiness (host : Host) (variables : CompilerVariableSet)
           (name value : string) : bool :=
  if value =? "" then ToBoolean (variables name)
  else loose_eq (StringToNumber host)
                (directive_literal (JSON_parse host) value) (variables name).

Definition directive_by_truthiness (host : Host) (variables : CompilerVariableSet)
           (name value inner : string) : Prop :=
  processDirectives (StringToNumber host) (JSON_parse host) variables
                    (directive_block name value inner)
  = if directive_test_by_truthiness host variables name value
    then JS.trim (fst (directive_blocks inner))
    else JS.trim (snd (directive_blocks inner)).

(** A line of Lua that is a short comment from its first code unit on:
    two hyphens that no long bracket follows. *)
Definition lua_comment_line (line : string) : bool :=
  match JS.strip_prefix "--" line with
  | Some r => negb (JS.startsWith r "[[" || JS.startsWith r "[=")
  | None => false
  end.

(** Build variables that bind [FLAG] to the string [yes] and [RELEASE]
    to [true]. *)
Definition sample_variables : CompilerVariableSet :=
  fun name =>
    if name =? "FLAG" then JString "yes"
    else if name =? "RELEASE" then JBool true
    else JUndefined.

(** The state while the file [b.lua] of the two files that require each
    other is processed. *)
Definition state_in_cycle : State :=
  mkState ["/p/src"; "/p/src"; "/p/src"; "/p/src"] []
          ["/p/src/b.lua"; "/p/src/a.lua"; "/p/src/main.lua"]
          [Some (mkLibrary "proj" "/p/src"); Some (mkLibrary "proj" "/p/src");
           Some (mkLibrary "proj" "/p/src"); Some (mkLibrary "proj" "/p/src")]
          [1; 1; 1] [].

(** The state while the main file of the sample project is processed,
    the file [a.lua] of the library [util] being accumulated under the
    name it has there. *)
Definition state_after_a : State :=
  mkState ["/p/src"; "/p/src"]
          [mkRequire "util:../libs/util/a.lua" "return 1"]
          ["/p/src/main.lua"]
          [Some (mkLibrary "proj" "/p/src"); Some (mkLibrary "proj" "/p/src")]
          [2] [].

(** ** The accumulated entries of a build *)

(** The require names of the accumulated entries. *)
Definition names (st : State) : list string :=
  map fullNameWithProject (requiredFiles st).

(** A state whose current library is a loaded library with a name. *)
Definition settled (compiler : Compiler) (st : State) : Prop :=
  exists lib,
    getCurrentLibrary st = Some lib
    /\ loadedLibraries compiler (id lib) = Some lib
    /\ id lib <> "".

(** No two files bear one require name, wherever they are resolved
    from. *)
Definition name_determines_path (host : Host) (compiler : Compiler) : Prop :=
  forall st st' reference reference' info info',
    settled compiler st ->
    settled compiler st' ->
    getRequiredFileInfo host compiler reference st = inr (Some info) ->
    getRequiredFileInfo host compiler reference' st' = inr (Some info') ->
    requireFullName host compiler info = requireFullName host compiler info' ->
    fullpath info = fullpath info'.

(** An entry that bears the require name of a resolved file that is not
    on the stack. *)
Definition resolved_off (host : Host) (compiler : Compiler) (stack : list string)
           (entry : DULuaCompilerRequire) : Prop :=
  exists reference st info,
    settled compiler st
    /\ getRequiredFileInfo host compiler reference st = inr (Some info)
    /\ fullNameWithProject entry = requireFullName host compiler info
    /\ ~ In (fullpath info) stack.

(** What a call leaves of the state it found: the three stacks as they
    were, and the accumulated entries with new ones behind them, each new
    one for a file off the stack, no require name twice if none was
    twice before. *)
Definition extends (host : Host) (compiler : Compiler) (st st' : State) : Prop :=
  sourceDirectories st' = sourceDirectories st
  /\ currentFiles st' = currentFiles st
  /\ currentLibraries st' = currentLibraries st
  /\ exists added,
      requiredFiles st' = (requiredFiles st ++ added)%list
      /\ Forall (resolved_off host compiler (currentFiles st)) added
      /\ (NoDup (names st) -> NoDup (names st')).

(** The require names a file system admits: every loaded library as the
    library field, every loaded library as the current one, every file,
    each name with the path of its file. *)
Definition candidate_names (host : Host) (compiler : Compiler) (paths : list string)
  : list (string * string) :=
  let libs := projectLibrary compiler :: projectLibraries compiler in
  flat_map
    (fun named =>
       flat_map
         (fun cur =>
            map (fun f =>
                   (requireFullName host compiler
                      (mkFileInfo
                         (mkFileName (Some (id named))
                                     (JS.replace_char "\" "/"
                                        (path_relative host (sourcePath cur) f)))
                         f),
                    f))
                paths)
         libs)
    libs.

(** Whether two candidates with one name have one path. *)
Definition names_tell_paths (candidates : list (string * string)) : bool :=
  forallb (fun c =>
             forallb (fun c' => implb (fst c =? fst c') (snd c =? snd c')) candidates)
          candidates.

(** ** The rest of the compiler's interface *)

(** [getCurrentLineOfCode]. *)
Definition getCurrentLineOfCode (st : State) : option nat :=
  hd_error (currentLineOfCode st).

(** The constructor's [loadedLuaPath]: the value of [LUA_PATH], or the
    empty string when it is not set, split at the semicolons, without the
    empty entries. *)
Definition loadLuaPath (LUA_PATH : option string) : list string :=
  filter (fun entry => (0 <? String.length entry)%nat)
         (JS.split (match LUA_PATH with Some v => v | None => "" end) ";").

(** [compileRequire]: a fresh instance, then [startBuild] with the name
    of the file. *)
Definition compileRequire (host : Host) (compiler : Compiler) (fuel : nat)
           (requireName : string) : Outcome DULuaCompilerResult :=
  startBuild host compiler fuel (Some requireName) (initialState compiler).

(** The names every object of JavaScript inherits from
    [Object.prototype]: the lookup of one of them in an object used as a
    map finds the inherited member, whatever the map holds. *)
Definition Object_prototype_names : list string :=
  [ "constructor"; "hasOwnProperty"; "isPrototypeOf"; "propertyIsEnumerable";
    "toLocaleString"; "toString"; "valueOf"; "__proto__";
    "__defineGetter__"; "__defineSetter__"; "__lookupGetter__"; "__lookupSetter__" ].

(** ** What a call leaves of the state, whatever the files are *)

(** The three stacks as they were, the accumulated entries with new ones
    behind them, and a stack of line numbers that is no shorter, and as
    long as before when the preloads are enabled. *)
Definition kept (compiler : Compiler) (st st' : State) : Prop :=
  sourceDirectories st' = sourceDirectories st
  /\ currentFiles st' = currentFiles st
  /\ currentLibraries st' = currentLibraries st
  /\ (exists added, requiredFiles st' = (requiredFiles st ++ added)%list)
  /\ List.length (currentLineOfCode st) <= List.length (currentLineOfCode st')
  /\ (preload compiler = true ->
      List.length (currentLineOfCode st') = List.length (currentLineOfCode st)).

(** A state whose current library is a library with a name under which
    a library is loaded. *)
Definition housed (compiler : Compiler) (st : State) : Prop :=
  exists lib,
    getCurrentLibrary st = Some lib
    /\ id lib <> ""
    /\ loadedLibraries compiler (id lib) <> None.

(** The failures that [requireFile] and what it calls raise themselves:
    all but the panic of [startBuild]. *)
Definition raised_inside (f : Failure) : bool :=
  match f with
  | PanicBuildFailed => false
  | _ => true
  end.

(** The state in which the main file of the sample project has got the
    file [b.lua] of the library [util] from [state_after_a]. *)
Definition state_after_b : State :=
  mkState ["/p/src"; "/p/src"]
          [mkRequire "util:../libs/util/a.lua" "return 1";
           mkRequire "util:a.lua" "return 1";
           mkRequire "util:../libs/util/b.lua" "return require('util:a.lua')"]
          ["/p/src/main.lua"]
          [Some (mkLibrary "proj" "/p/src"); Some (mkLibrary "proj" "/p/src")]
          [1]
          [ReadFile "/p/libs/util/b.lua"; StatusCompiling "/p/libs/util/b.lua";
           ReadFile "/p/libs/util/a.lua"; StatusCompiling "/p/libs/util/a.lua"].

(** The state the processing of the main file of [inline_files] leaves
    behind [state_in_main] when the preloads are enabled. *)
Definition state_after_helper : State :=
  mkState ["/p/src"; "/p/src"] [mkRequire "proj:helper.lua" "y = 2"]
          ["/p/src/main.lua"]
          [Some (mkLibrary "proj" "/p/src"); Some (mkLibrary "proj" "/p/src")]
          [3]
          [ReadFile "/p/src/helper.lua"; StatusCompiling "/p/src/helper.lua"].

(** ** Patterns without operators *)

(** The text that a regular expression made of plain code units and of
    escaped special code units matches, the only one it matches: each
    [\c] stands for [c].  [None] for a pattern with a special code unit
    that no backslash protects, or with a backslash in front of anything
    else. *)
Fixpoint pattern_text (pattern : string) : option string :=
  match pattern with
  | "" => Some ""
  | String c rest =>
      if Ascii.eqb c "\" then
        match rest with
        | String d rest' =>
            if is_regex_special d then option_map (String d) (pattern_text rest')
            else None
        | "" => None
        end
      else if is_regex_special c then None
      else option_map (String c) (pattern_text rest)
  end.

(** ** The search of a file *)

(** [possibleFilePaths] of [getRequiredFileInfo]: the templates of the
    search, the one of the library or of the current directory first,
    each with its first [?] replaced by the file name of the reference.
    [None] when there is no library or no directory to start from. *)
Definition possibleFilePaths (host : Host) (compiler : Compiler)
           (reference : string) (st : State) : option (list string) :=
  let parsed := parseFileString reference in
  let projectPrefix :=
    if truthy_name (project parsed)
    then match project parsed with
         | Some p => option_map sourcePath (loadedLibraries compiler p)
         | None => None
         end
    else getCurrentDirectory st in
  option_map
    (fun prefix =>
       map (JS.replace_first "?" (filename parsed))
           (path_join host prefix "?.lua" :: loadedLuaPath compiler))
    projectPrefix.

(** The build of the sample project with the three files of the
    diamond: its entries, its result and the state it leaves. *)
Definition diamond_entries : list DULuaCompilerRequire :=
  [mkRequire "util:../libs/util/a.lua" "return 1";
   mkRequire "util:a.lua" "return 1";
   mkRequire "util:../libs/util/b.lua" "return require('util:a.lua')"].

Definition diamond_result : DULuaCompilerResult :=
  mkResult ("local a = require('util:../libs/util/a.lua')" ++ LF
            ++ "local b = require('util:../libs/util/b.lua')" ++ LF
            ++ "return a + b")
           (map toPreload diamond_entries).

Definition diamond_final_state : State :=
  mkState ["/p/src"] diamond_entries [] [Some (mkLibrary "proj" "/p/src")] []
          [ReadFile "/p/src/main.lua"; StatusCompiling "/p/src/main.lua";
           ReadFile "/p/libs/util/a.lua"; StatusCompiling "/p/libs/util/a.lua";
           ReadFile "/p/libs/util/b.lua"; StatusCompiling "/p/libs/util/b.lua";
           ReadFile "/p/libs/util/a.lua"; StatusCompiling "/p/libs/util/a.lua"].

(** The text of a line in front of its first two hyphens: the line
    without its comment. *)
Definition before_comment (line : string) : string :=
  match JS.break_on "--" line with
  | Some (code, _) => code
  | None => line
  end.

(** * Properties *)

Unset Implicit Arguments.

(** ** Strings *)

Lemma append_empty_r (s : string) : s ++ "" = s.
Proof. induction s as [|c s IH]; simpl; [reflexivity | now rewrite IH]. Qed.

Lemma append_assoc (a b c : string) : (a ++ b) ++ c = a ++ (b ++ c).
Proof. induction a as [|x a IH]; simpl; [reflexivity | now rewrite IH]. Qed.

Lemma length_append (a b : string) :
  String.length (a ++ b) = String.length a + String.length b.
Proof. induction a as [|x a IH]; simpl; [reflexivity | now rewrite IH]. Qed.

Lemma append_cancel_l (a b c : string) : a ++ b = a ++ c -> b = c.
Proof.
  induction a as [|x a IH]; simpl; intros H; [assumption|].
  injection H as H. now apply IH.
Qed.

Lemma strip_prefix_sound (p s r : string) :
  JS.strip_prefix p s = Some r -> s = p ++ r.
Proof.
  revert s. induction p as [|a p IH]; simpl; intros s H.
  - now injection H as ->.
  - destruct s as [|b s]; [discriminate|].
    destruct (Ascii.eqb_spec a b) as [->|]; [|discriminate].
    now rewrite (IH _ H).
Qed.

Lemma strip_prefix_complete (p r : string) : JS.strip_prefix p (p ++ r) = Some r.
Proof.
  induction p as [|a p IH]; simpl; [reflexivity|].
  now rewrite Ascii.eqb_refl.
Qed.

Lemma strip_prefix_append (p s r t : string) :
  JS.strip_prefix p s = Some r -> JS.strip_prefix p (s ++ t) = Some (r ++ t).
Proof.
  intros H. rewrite (strip_prefix_sound _ _ _ H), append_assoc.
  apply strip_prefix_complete.
Qed.

Lemma break_on_sound (n s b a : string) :
  JS.break_on n s = Some (b, a) -> s = b ++ n ++ a.
Proof.
  revert b. induction s as [|c s IH]; intros b; cbn [JS.break_on].
  - destruct (JS.strip_prefix n "") as [r|] eqn:E; [|discriminate].
    intros H. injection H as <- <-. exact (strip_prefix_sound _ _ _ E).
  - destruct (JS.strip_prefix n (String c s)) as [r|] eqn:E.
    + intros H. injection H as <- <-. exact (strip_prefix_sound _ _ _ E).
    + destruct (JS.break_on n s) as [[b' a']|] eqn:E'; [|discriminate].
      intros H. injection H as <- <-. cbn [append]. now rewrite (IH _ eq_refl).
Qed.

Lemma strip_prefix_shorten (n x t r : string) :
  JS.strip_prefix n (x ++ t) = Some r ->
  String.length n <= String.length x ->
  exists r', JS.strip_prefix n x = Some r'.
Proof.
  revert x r. induction n as [|d n IH]; intros x r H Hlen; simpl.
  - eauto.
  - destruct x as [|c x]; [simpl in Hlen; lia|].
    simpl in H, Hlen.
    destruct (Ascii.eqb d c); [|discriminate].
    apply (IH x r H). lia.
Qed.

Lemma break_on_append (n s b a t : string) :
  JS.break_on n s = Some (b, a) -> JS.break_on n (s ++ t) = Some (b, a ++ t).
Proof.
  revert b. induction s as [|c s IH]; intros b.
  - simpl. destruct (JS.strip_prefix n "") as [r|] eqn:E; [|discriminate].
    intros H. injection H as <- <-.
    pose proof (strip_prefix_append _ _ _ t E) as E'. simpl in E'.
    destruct t; simpl; rewrite E'; reflexivity.
  - cbn [JS.break_on append].
    destruct (JS.strip_prefix n (String c s)) as [r|] eqn:E.
    + intros H. injection H as <- <-.
      pose proof (strip_prefix_append _ _ _ t E) as E'. cbn [append] in E'.
      now rewrite E'.
    + destruct (JS.break_on n s) as [[b' a']|] eqn:E'; [|discriminate].
      intros H. injection H as <- <-.
      rewrite (IH _ eq_refl).
      destruct (JS.strip_prefix n (String c (s ++ t))) as [r|] eqn:E2; [|reflexivity].
      exfalso.
      pose proof (break_on_sound _ _ _ _ E') as Hs.
      assert (Hlen : String.length n <= String.length (String c s)).
      { rewrite Hs. simpl. rewrite !length_append. lia. }
      destruct (strip_prefix_shorten n (String c s) t r E2 Hlen) as [r' Hr'].
      congruence.
Qed.

(** ** Splitting at a code unit *)

Lemma split_char_cons (d c : ascii) (s : string) :
  JS.split (String c s) (String d "")
  = if Ascii.eqb d c then "" :: JS.split s (String d "")
    else match JS.split s (String d "") with
         | piece :: more => String c piece :: more
         | [] => [String c ""]
         end.
Proof.
  unfold JS.split. cbn [JS.split_from]. unfold JS.startsWith.
  cbn [JS.strip_prefix String.length Nat.sub].
  destruct (Ascii.eqb d c); reflexivity.
Qed.

Lemma has_char_cons (d c : ascii) (s : string) :
  JS.has_char d (String c s) = Ascii.eqb d c || JS.has_char d s.
Proof.
  unfold JS.has_char, JS.includes. cbn [JS.break_on JS.strip_prefix].
  destruct (Ascii.eqb d c); [reflexivity|].
  destruct (JS.break_on (String d "") s) as [[b a]|]; reflexivity.
Qed.

Lemma split_char_absent (d : ascii) (s : string) :
  JS.has_char d s = false -> JS.split s (String d "") = [s].
Proof.
  induction s as [|c s IH]; intros H; [reflexivity|].
  rewrite has_char_cons in H. apply orb_false_iff in H as [Hc Hs].
  rewrite split_char_cons, Hc, (IH Hs). reflexivity.
Qed.

Lemma split_char_first (d : ascii) (a b : string) :
  JS.has_char d a = false ->
  JS.split (a ++ String d b) (String d "") = a :: JS.split b (String d "").
Proof.
  induction a as [|c a IH]; intros H; cbn [append].
  - now rewrite split_char_cons, Ascii.eqb_refl.
  - rewrite has_char_cons in H. apply orb_false_iff in H as [Hc Ha].
    rewrite split_char_cons, Hc, (IH Ha). reflexivity.
Qed.

Lemma split_char_pieces (d : ascii) (s piece : string) :
  In piece (JS.split s (String d "")) -> JS.has_char d piece = false.
Proof.
  revert piece. induction s as [|c s IH]; intros piece H.
  - destruct H as [<-|[]]. reflexivity.
  - rewrite split_char_cons in H.
    destruct (Ascii.eqb d c) eqn:Hc.
    + destruct H as [<-|H]; [reflexivity | now apply IH].
    + destruct (JS.split s (String d "")) as [|p more] eqn:E.
      * destruct H as [<-|[]]. rewrite has_char_cons, Hc. reflexivity.
      * destruct H as [<-|H].
        -- rewrite has_char_cons, Hc. apply IH. now left.
        -- apply IH. now right.
Qed.

(** ** C9: the parsing of a reference *)

(** C9, as the code has it: a reference without a colon is a bare file
    name; otherwise the text in front of the first colon is the library
    and the text between the first colon and the second one, or the end
    of the reference when there is no second colon, is the file name.
    What follows a second colon is dropped. *)
Theorem parseFileString_pieces (lib name rest : string) :
  JS.has_char ":" lib = false ->
  JS.has_char ":" name = false ->
  parseFileString name = mkFileName None name
  /\ parseFileString (lib ++ ":" ++ name) = mkFileName (Some lib) name
  /\ parseFileString (lib ++ ":" ++ name ++ ":" ++ rest) = mkFileName (Some lib) name.
Proof.
  intros Hlib Hname. unfold parseFileString. repeat split.
  - now rewrite (split_char_absent _ _ Hname).
  - cbn [append]. rewrite (split_char_first _ _ _ Hlib), (split_char_absent _ _ Hname).
    reflexivity.
  - cbn [append]. rewrite (split_char_first _ _ _ Hlib), (split_char_first _ _ _ Hname).
    reflexivity.
Qed.

Lemma parseFileString_pieces_witness :
  parseFileString "main" = mkFileName None "main"
  /\ parseFileString "util:main" = mkFileName (Some "util") "main"
  /\ parseFileString "util:main:old" = mkFileName (Some "util") "main".
Proof.
  exact (parseFileString_pieces "util" "main" "old" eq_refl eq_refl).
Defined.

(** C9, refuted as stated: the reference [util:dir:file] has the file
    name [dir], not [dir:file]. *)
Lemma cut_at_first_colon_counterexample : ~ cut_at_first_colon "util:dir:file".
Proof.
  intros H. specialize (H "util" "dir:file" eq_refl eq_refl). discriminate H.
Qed.

(** ** Greedy runs *)

Lemma span_stops_inside (p : ascii -> bool) (a b x y : string) (c : ascii) :
  JS.span p a = (x, String c y) -> JS.span p (a ++ b) = (x, String c y ++ b).
Proof.
  revert x. induction a as [|d a IH]; intros x; cbn [JS.span append].
  - discriminate.
  - destruct (p d) eqn:Hd.
    + destruct (JS.span p a) as [x' y'] eqn:E. intros H. injection H as <- ->.
      now rewrite (IH _ eq_refl).
    + intros H. injection H as <- <- <-. reflexivity.
Qed.

Lemma span_whole_run (p : ascii -> bool) (x b : string) :
  JS.all_chars p x = true -> JS.head_in p b = false -> JS.span p (x ++ b) = (x, b).
Proof.
  intros Hx Hb. induction x as [|d x IH]; cbn [append].
  - destruct b as [|c b]; [reflexivity|]. cbn in *. now rewrite Hb.
  - cbn in Hx. apply andb_true_iff in Hx as [Hd Hx].
    cbn [JS.span]. now rewrite Hd, (IH Hx).
Qed.

Lemma span_sound (p : ascii -> bool) (s x y : string) :
  JS.span p s = (x, y) -> s = x ++ y /\ JS.head_in p y = false.
Proof.
  revert x. induction s as [|d s IH]; intros x; cbn [JS.span].
  - intros H. injection H as <- <-. now split.
  - destruct (p d) eqn:Hd.
    + destruct (JS.span p s) as [x' y'] eqn:E. intros H. injection H as <- <-.
      destruct (IH _ eq_refl) as [-> Hy]. now split.
    + intros H. injection H as <- <-. now split.
Qed.

(** ** Scanning for matches *)

Section ScanningFacts.

Variable M : Type.
Variable matcher : string -> string -> option (M * string).

(** The expression has no lookbehind. *)
Hypothesis blind : forall before before' s, matcher before s = matcher before' s.

Lemma segments_blind (s : string) :
  forall before before' skip,
    segments matcher before skip s = segments matcher before' skip s.
Proof.
  induction s as [|c s IH]; intros before before' skip; cbn [segments]; [reflexivity|].
  destruct skip as [|k].
  - rewrite (blind before before').
    destruct (matcher before' (String c s)) as [[m rest]|];
      now rewrite (IH (String c before) (String c before')).
  - apply IH.
Qed.

Lemma segments_skip (x tail before : string) :
  segments matcher before (String.length x) (x ++ tail)
  = segments matcher before 0 tail.
Proof.
  revert before. induction x as [|c x IH]; intros before; cbn [append String.length].
  - reflexivity.
  - cbn [segments]. rewrite IH. apply segments_blind.
Qed.

(** A match at the head of a text: the replacement, then the scan of
    what follows the match. *)
Lemma segments_hit (matched tail before : string) (m : M) :
  matched <> "" ->
  matcher before (matched ++ tail) = Some (m, tail) ->
  segments matcher before 0 (matched ++ tail)
  = Hit m :: segments matcher before 0 tail.
Proof.
  intros Hne Hm. destruct matched as [|c x]; [contradiction|].
  cbn [append] in *. cbn [segments]. rewrite Hm. f_equal.
  replace (String.length (String c (x ++ tail)) - String.length tail - 1)
    with (String.length x).
  - rewrite segments_skip. apply segments_blind.
  - cbn [String.length]. rewrite length_append. lia.
Qed.

End ScanningFacts.

(** ** The directive expression *)

Lemma match_directive_blind (before before' s : string) :
  match_directive before s = match_directive before' s.
Proof. reflexivity. Qed.

Lemma match_directive_block (before name value inner tail : string) :
  name <> "" ->
  JS.all_chars JS.is_word name = true ->
  JS.head_in JS.is_word value = false ->
  JS.all_chars (fun c => negb (JS.is_line_terminator c)) value = true ->
  JS.break_on directive_end (inner ++ directive_end) = Some (inner, "") ->
  match_directive before (directive_block name value inner ++ tail)
  = Some (mkDirective name value inner, tail).
Proof.
  intros Hne Hname Hhead Hvalue Hinner.
  unfold directive_block, match_directive.
  rewrite !append_assoc, strip_prefix_complete.
  rewrite (span_whole_run JS.is_word name _ Hname).
  2:{ destruct value as [|c v]; [reflexivity | exact Hhead]. }
  destruct (String.eqb_spec name "") as [E|_]; [contradiction|].
  rewrite (span_whole_run _ value _ Hvalue) by reflexivity.
  rewrite strip_prefix_complete.
  rewrite <- append_assoc.
  rewrite (break_on_append _ _ _ _ tail Hinner). reflexivity.
Qed.

(** ** C10: a directive that is not closed *)

Lemma append_eq_append (a b c d : string) :
  a ++ b = c ++ d ->
  (exists l, a = c ++ l /\ d = l ++ b) \/ (exists l, c = a ++ l /\ b = l ++ d).
Proof.
  revert c. induction a as [|x a IH]; intros c H; cbn [append] in H.
  - right. exists c. now split.
  - destruct c as [|y c]; cbn [append] in H.
    + left. exists (String x a). now split.
    + injection H as <- H. destruct (IH _ H) as [[l [-> ->]]|[l [-> ->]]].
      * left. exists l. now split.
      * right. exists l. now split.
Qed.

Lemma includes_middle (n x a : string) : JS.includes (x ++ n ++ a) n = true.
Proof.
  unfold JS.includes. induction x as [|c x IH]; cbn [append].
  - destruct (n ++ a) eqn:E; cbn [JS.break_on]; rewrite <- E, strip_prefix_complete;
      reflexivity.
  - cbn [JS.break_on].
    destruct (JS.strip_prefix n (String c (x ++ n ++ a))); [reflexivity|].
    destruct (JS.break_on n (x ++ n ++ a)) as [[b r]|]; [reflexivity | discriminate].
Qed.

Lemma includes_tail (n : string) (c : ascii) (s : string) :
  JS.includes (String c s) n = false -> JS.includes s n = false.
Proof.
  unfold JS.includes. cbn [JS.break_on].
  destruct (JS.strip_prefix n (String c s)); [discriminate|].
  destruct (JS.break_on n s) as [[b r]|]; [discriminate | reflexivity].
Qed.

Lemma break_on_first (n s b a : string) :
  JS.break_on n s = Some (b, a) -> JS.break_on n (b ++ n) = Some (b, "").
Proof.
  revert b. induction s as [|c s IH]; intros b; cbn [JS.break_on].
  - destruct (JS.strip_prefix n "") as [r|] eqn:E; [|discriminate].
    intros H. injection H as <- <-. cbn [append].
    pose proof (strip_prefix_complete n "") as Hn. rewrite append_empty_r in Hn.
    destruct n; cbn [JS.break_on]; rewrite Hn; reflexivity.
  - destruct (JS.strip_prefix n (String c s)) as [r|] eqn:E.
    + intros H. injection H as <- <-. cbn [append].
      pose proof (strip_prefix_complete n "") as Hn. rewrite append_empty_r in Hn.
      destruct n; cbn [JS.break_on]; rewrite Hn; reflexivity.
    + destruct (JS.break_on n s) as [[b' a']|] eqn:E'; [|discriminate].
      intros H. injection H as <- <-. cbn [append JS.break_on].
      destruct (JS.strip_prefix n (String c (b' ++ n))) as [r|] eqn:E2.
      * exfalso. apply (strip_prefix_append _ _ _ a') in E2.
        cbn [append] in E2. rewrite append_assoc in E2.
        rewrite <- (break_on_sound _ _ _ _ E') in E2. congruence.
      * now rewrite (IH _ eq_refl).
Qed.

Lemma span_run (p : ascii -> bool) (s x y : string) :
  JS.span p s = (x, y) -> JS.all_chars p x = true.
Proof.
  revert x. induction s as [|d s IH]; intros x; cbn [JS.span].
  - intros H. now injection H as <- <-.
  - destruct (p d) eqn:Hd.
    + destruct (JS.span p s) as [x' y'] eqn:E. intros H. injection H as <- <-.
      cbn. now rewrite Hd, (IH _ eq_refl).
    + intros H. now injection H as <- <-.
Qed.

(** What a match of the directive expression tells about the text. *)
Lemma match_directive_inv (before s : string) (d : DirectiveMatch) (after : string) :
  match_directive before s = Some (d, after) ->
  s = directive_block (compareVariableName d) (compareValue d) (innerCode d) ++ after
  /\ compareVariableName d <> ""
  /\ JS.all_chars JS.is_word (compareVariableName d) = true
  /\ JS.head_in JS.is_word (compareValue d) = false
  /\ JS.all_chars (fun c => negb (JS.is_line_terminator c)) (compareValue d) = true
  /\ JS.break_on directive_end (innerCode d ++ directive_end) = Some (innerCode d, "").
Proof.
  unfold match_directive.
  destruct (JS.strip_prefix "---@if " s) as [r1|] eqn:E1; [|discriminate].
  destruct (JS.span JS.is_word r1) as [name r2] eqn:E2.
  destruct (String.eqb_spec name "") as [|Hne]; [discriminate|].
  destruct (JS.span (fun c => negb (JS.is_line_terminator c)) r2) as [value r3] eqn:E3.
  destruct (JS.strip_prefix LF r3) as [r4|] eqn:E4; [|discriminate].
  destruct (JS.break_on directive_end r4) as [[inner rest]|] eqn:E5; [|discriminate].
  intros H. injection H as <- <-. cbn [compareVariableName compareValue innerCode].
  apply strip_prefix_sound in E1. apply strip_prefix_sound in E4.
  destruct (span_sound _ _ _ _ E2) as [Hr1 Hhead].
  destruct (span_sound _ _ _ _ E3) as [Hr2 _].
  pose proof (break_on_sound _ _ _ _ E5) as Hr4.
  repeat split.
  - unfold directive_block. subst. now rewrite !append_assoc.
  - exact Hne.
  - exact (span_run _ _ _ _ E2).
  - subst r2. destruct value; [reflexivity | exact Hhead].
  - exact (span_run _ _ _ _ E3).
  - exact (break_on_first _ _ _ _ E5).
Qed.

(** An occurrence of the closing marker in a text that goes on with an
    opening marker and no closing marker lies in front of that opening
    marker. *)
Lemma closing_marker_inside (pre rest front after : string) :
  JS.startsWith rest "---@if" = true ->
  JS.includes rest directive_end = false ->
  pre ++ rest = front ++ directive_end ++ after ->
  exists after', after = after' ++ rest /\ pre = front ++ directive_end ++ after'.
Proof.
  intros Hopen Hnone H. rewrite <- append_assoc in H.
  destruct (append_eq_append _ _ _ _ H) as [[l [-> ->]]|[l [Hl ->]]].
  - exists l. split; [reflexivity | now rewrite append_assoc].
  - destruct (append_eq_append _ _ _ _ Hl) as [[l' [-> ->]]|[l' [-> Hend]]].
    + rewrite append_assoc, includes_middle in Hnone. discriminate.
    + destruct l as [|x l].
      * rewrite append_empty_r in Hend. subst l'. exists "". split; [reflexivity|].
        now rewrite append_empty_r.
      * exfalso. unfold directive_end, LF in Hend, Hnone. cbn [append] in Hend, Hnone.
        do 9 (destruct l' as [|? l'];
              [ cbn [append] in Hend; try discriminate Hend;
                injection Hend as <- <-; cbn in Hopen, Hnone;
                try discriminate Hopen; try discriminate Hnone
              | cbn [append] in Hend; try discriminate Hend;
                injection Hend as <- Hend ]).
Qed.

Section DirectiveScan.

Variable StringToNumber : string -> JSNumber.
Variable JSON_parse : string -> option JSValue.
Variable variables : CompilerVariableSet.

Local Notation "'expand'" :=
  (processDirectives StringToNumber JSON_parse variables) (only parsing).
Local Notation "'action'" :=
  (directive_action StringToNumber JSON_parse variables) (only parsing).

Lemma expand_hit (d : DirectiveMatch) (tail : string) :
  match_directive ""
    (directive_block (compareVariableName d) (compareValue d) (innerCode d) ++ tail)
  = Some (d, tail) ->
  expand (directive_block (compareVariableName d) (compareValue d) (innerCode d) ++ tail)
  = action d ++ expand tail.
Proof.
  intros H. unfold processDirectives, replace_all.
  rewrite (segments_hit _ match_directive match_directive_blind _ tail "" d).
  - reflexivity.
  - unfold directive_block. discriminate.
  - exact H.
Qed.

Lemma expand_miss (c : ascii) (s : string) :
  match_directive "" (String c s) = None ->
  expand (String c s) = String c (expand s).
Proof.
  intros H. unfold processDirectives, replace_all.
  cbn [segments]. rewrite H. cbn [render]. f_equal. f_equal.
  apply (segments_blind _ match_directive match_directive_blind).
Qed.

Lemma no_match_without_end (before s : string) :
  JS.includes s directive_end = false -> match_directive before s = None.
Proof.
  intros Hnone. destruct (match_directive before s) as [[d after]|] eqn:E; [|reflexivity].
  destruct (match_directive_inv _ _ _ _ E) as [Hs _]. exfalso.
  unfold directive_block in Hs.
  rewrite !append_assoc in Hs.
  rewrite <- !(append_assoc _ _ (directive_end ++ after)) in Hs.
  rewrite Hs, includes_middle in Hnone. discriminate.
Qed.

Lemma expand_without_end (s : string) :
  JS.includes s directive_end = false -> expand s = s.
Proof.
  induction s as [|c s IH]; intros Hnone; [reflexivity|].
  rewrite expand_miss by now apply no_match_without_end.
  now rewrite (IH (includes_tail _ _ _ Hnone)).
Qed.

Lemma expand_keeps_open_block (rest : string) :
  JS.startsWith rest "---@if" = true ->
  JS.includes rest directive_end = false ->
  forall n pre, String.length pre <= n -> expand (pre ++ rest) = expand pre ++ rest.
Proof.
  intros Hopen Hnone. induction n as [|n IH]; intros pre Hlen.
  - destruct pre; [|cbn in Hlen; lia]. cbn [append].
    rewrite (expand_without_end _ Hnone). reflexivity.
  - destruct pre as [|c p]; cbn [append].
    + rewrite (expand_without_end _ Hnone). reflexivity.
    + destruct (match_directive "" (String c (p ++ rest))) as [[d after]|] eqn:E.
      * (* the match ends inside [pre] *)
        destruct (match_directive_inv _ _ _ _ E) as (Hs & H1 & H2 & H3 & H4 & H5).
        change (String c (p ++ rest)) with (String c p ++ rest) in Hs.
        unfold directive_block in Hs. rewrite !append_assoc in Hs.
        rewrite <- !(append_assoc _ _ (directive_end ++ after)) in Hs.
        destruct (closing_marker_inside _ _ _ _ Hopen Hnone Hs) as [after' [-> Hpre]].
        assert (Hblock : String c p
                         = directive_block (compareVariableName d) (compareValue d)
                                           (innerCode d) ++ after').
        { rewrite Hpre. unfold directive_block. now rewrite !append_assoc. }
        change (String c (p ++ rest)) with (String c p ++ rest).
        rewrite Hblock, append_assoc.
        assert (Hafter : String.length after' <= n).
        { apply (f_equal String.length) in Hblock.
          unfold directive_block in Hblock. rewrite !length_append in Hblock.
          cbn [String.length] in Hblock, Hlen. lia. }
        destruct d as [name value inner]. cbn [compareVariableName compareValue innerCode] in *.
        rewrite (expand_hit (mkDirective name value inner))
          by now apply match_directive_block.
        rewrite (expand_hit (mkDirective name value inner))
          by now apply match_directive_block.
        rewrite (IH _ Hafter). now rewrite append_assoc.
      * assert (E' : match_directive "" (String c p) = None).
        { destruct (match_directive "" (String c p)) as [[d after]|] eqn:E'; [|reflexivity].
          destruct (match_directive_inv _ _ _ _ E') as (Hs & H1 & H2 & H3 & H4 & H5).
          destruct d as [name value inner].
          cbn [compareVariableName compareValue innerCode] in *.
          pose proof (match_directive_block "" name value inner (after ++ rest)
                        H1 H2 H3 H4 H5) as Hm.
          rewrite <- append_assoc, <- Hs in Hm. cbn [append] in Hm. congruence. }
        change (String c (p ++ rest)) with (String c p ++ rest) in E.
        cbn [append] in E.
        rewrite (expand_miss _ _ E), (expand_miss _ _ E').
        cbn [append]. f_equal. apply IH. cbn in Hlen. lia.
Qed.

End DirectiveScan.

(** ** C6: the replacement of a block *)

(** No directive starts in a text without [---@] that a block follows. *)
Lemma no_directive_in_plain_text (before : string) (c : ascii) (p follow : string) :
  JS.includes (String c p) "---@" = false ->
  JS.startsWith follow "---" = true ->
  match_directive before (String c (p ++ follow)) = None.
Proof.
  intros Hplain Hfollow. unfold match_directive.
  destruct (JS.strip_prefix "---@if " (String c (p ++ follow))) as [r|] eqn:E;
    [|reflexivity].
  exfalso. apply strip_prefix_sound in E. cbn [append] in E. injection E as -> E.
  unfold JS.startsWith in Hfollow.
  destruct (JS.strip_prefix "---" follow) as [f|] eqn:Ef; [|discriminate].
  apply strip_prefix_sound in Ef. subst follow.
  destruct p as [|c2 [|c3 [|c4 p]]]; cbn [append] in E; try discriminate E.
  injection E as -> -> -> _. cbn in Hplain. discriminate Hplain.
Qed.

Section DirectiveBlocks.

Variable StringToNumber : string -> JSNumber.
Variable JSON_parse : string -> option JSValue.
Variable variables : CompilerVariableSet.

Lemma expand_plain_prefix (pre follow : string) :
  JS.includes pre "---@" = false ->
  JS.startsWith follow "---" = true ->
  processDirectives StringToNumber JSON_parse variables (pre ++ follow)
  = pre ++ processDirectives StringToNumber JSON_parse variables follow.
Proof.
  intros Hplain Hfollow. induction pre as [|c p IH]; [reflexivity|].
  cbn [append].
  rewrite expand_miss by now apply no_directive_in_plain_text.
  now rewrite (IH (includes_tail _ _ _ Hplain)).
Qed.

End DirectiveBlocks.




Lemma directive_marker_is_lua_comment (rest : string) :
  JS.startsWith rest "---@if" = true -> lua_comment_line rest = true.
Proof.
  unfold JS.startsWith.
  destruct (JS.strip_prefix "---@if" rest) as [r|] eqn:E; [|discriminate].
  intros _. now rewrite (strip_prefix_sound _ _ _ E).
Qed.

(** C10: an opening marker [---@if] that no closing marker [---@end]
    follows stays in the text with everything behind it, whatever the
    text in front of it is turned into; a text without any closing marker
    leaves the directive processing as it entered it, so the validation
    reads the very same text, in which the line of the marker is a
    comment of Lua.  The directive processing is a total function: it
    raises no error. *)
Theorem unterminated_directive_passes
        (host : Host) (variables : CompilerVariableSet) (pre rest : string) :
  JS.startsWith rest "---@if" = true ->
  JS.includes rest directive_end = false ->
  processDirectives (StringToNumber host) (JSON_parse host) variables (pre ++ rest)
  = processDirectives (StringToNumber host) (JSON_parse host) variables pre ++ rest
  /\ processDirectives (StringToNumber host) (JSON_parse host) variables rest = rest
  /\ luaparse host (processDirectives (StringToNumber host) (JSON_parse host)
                                      variables rest)
     = luaparse host rest
  /\ lua_comment_line rest = true.
Proof.
  intros Hopen Hnone.
  pose proof (expand_without_end (StringToNumber host) (JSON_parse host) variables
                                 rest Hnone) as Hrest.
  repeat split.
  - exact (expand_keeps_open_block _ _ _ rest Hopen Hnone _ pre (le_n _)).
  - exact Hrest.
  - now rewrite Hrest.
  - now apply directive_marker_is_lua_comment.
Qed.

Lemma unterminated_directive_passes_witness :
  let host := posix_host "/p" [] in
  let pre := directive_block "RELEASE" " true" "local a = 1" ++ LF in
  let rest := "---@if FLAG" ++ LF ++ "local b = 2" ++ LF ++ "---@else" in
  processDirectives (StringToNumber host) (JSON_parse host) sample_variables (pre ++ rest)
  = processDirectives (StringToNumber host) (JSON_parse host) sample_variables pre ++ rest
  /\ processDirectives (StringToNumber host) (JSON_parse host) sample_variables rest = rest
  /\ luaparse host (processDirectives (StringToNumber host) (JSON_parse host)
                                      sample_variables rest)
     = luaparse host rest
  /\ lua_comment_line rest = true.
Proof.
  intros host pre rest.
  exact (unterminated_directive_passes host sample_variables pre rest eq_refl eq_refl).
Defined.

(** ** The cases of [requireFile] *)

Section RequireFacts.

Variable host : Host.
Variable compiler : Compiler.

Lemma requireFile_fails (n : nat) (reference : string) (st : State) (f : Failure) :
  getRequiredFileInfo host compiler reference st = inl f ->
  requireFile host compiler (S n) reference st = Failed f.
Proof. intros H. cbn [requireFile]. unfold requireFile_body. now rewrite H. Qed.

Lemma requireFile_missing (n : nat) (reference : string) (st : State) :
  getRequiredFileInfo host compiler reference st = inr None ->
  requireFile host compiler (S n) reference st
  = if isRootFile st then Failed (PanicProjectFileMissing reference)
    else Done None (logged st (missing_notice compiler reference st)).
Proof. intros H. cbn [requireFile]. unfold requireFile_body. now rewrite H. Qed.

Lemma requireFile_loop (n : nat) (reference : string) (st : State)
      (info : DULuaCompilerFileInfo) :
  getRequiredFileInfo host compiler reference st = inr (Some info) ->
  existsb (String.eqb (fullpath info)) (currentFiles st) = true ->
  requireFile host compiler (S n) reference st = Failed (RequireLoop (getCurrentFile st)).
Proof.
  intros H Hloop. cbn [requireFile]. unfold requireFile_body. now rewrite H, Hloop.
Qed.

Lemma requireFile_cached (n : nat) (reference : string) (st : State)
      (info : DULuaCompilerFileInfo) (existing : DULuaCompilerRequire)
      (more : list DULuaCompilerRequire) :
  getRequiredFileInfo host compiler reference st = inr (Some info) ->
  existsb (String.eqb (fullpath info)) (currentFiles st) = false ->
  filter (fun entry => fullNameWithProject entry =? requireFullName host compiler info)
         (requiredFiles (announced host compiler info st)) = existing :: more ->
  requireFile host compiler (S n) reference st
  = Done (Some existing) (announced host compiler info st).
Proof.
  intros H Hloop Hhit. cbn [requireFile]. unfold requireFile_body.
  now rewrite H, Hloop, Hhit.
Qed.

Lemma requireFile_fresh (n : nat) (reference : string) (st : State)
      (info : DULuaCompilerFileInfo) :
  getRequiredFileInfo host compiler reference st = inr (Some info) ->
  existsb (String.eqb (fullpath info)) (currentFiles st) = false ->
  filter (fun entry => fullNameWithProject entry =? requireFullName host compiler info)
         (requiredFiles (announced host compiler info st)) = [] ->
  requireFile host compiler (S n) reference st
  = match processSourceCode host compiler (requireFile host compiler n)
                            (fs_readFile host (fullpath info))
                            (opened host compiler info (announced host compiler info st))
    with
    | Done processedSource st2 =>
        Done (Some (mkRequire (requireFullName host compiler info) processedSource))
             (closed (mkRequire (requireFullName host compiler info) processedSource) st2)
    | Failed f => Failed f
    | Starved => Starved
    end.
Proof.
  intros H Hloop Hmiss. cbn [requireFile]. unfold requireFile_body.
  now rewrite H, Hloop, Hmiss.
Qed.

Lemma announced_frame (info : DULuaCompilerFileInfo) (st : State) :
  same_frame st (announced host compiler info st).
Proof.
  unfold announced, same_frame.
  destruct (negb (containsPath compiler (fullpath info))); cbn; repeat split.
Qed.

(** The entry [requireFile] answers bears the name of the file it
    resolved. *)
Lemma requireFile_name (n : nat) (reference : string) (st st' : State)
      (entry : DULuaCompilerRequire) :
  requireFile host compiler (S n) reference st = Done (Some entry) st' ->
  exists info,
    getRequiredFileInfo host compiler reference st = inr (Some info)
    /\ fullNameWithProject entry = requireFullName host compiler info.
Proof.
  intros H.
  destruct (getRequiredFileInfo host compiler reference st) as [f|[info|]] eqn:E.
  - rewrite (requireFile_fails _ _ _ _ E) in H. discriminate.
  - exists info. split; [reflexivity|].
    destruct (existsb (String.eqb (fullpath info)) (currentFiles st)) eqn:Hloop.
    + rewrite (requireFile_loop _ _ _ _ E Hloop) in H. discriminate.
    + destruct (filter (fun e => fullNameWithProject e =? requireFullName host compiler info)
                       (requiredFiles (announced host compiler info st)))
        as [|existing more] eqn:Hf.
      * rewrite (requireFile_fresh _ _ _ _ E Hloop Hf) in H.
        destruct (processSourceCode _ _ _ _ _) as [src st2| |]; try discriminate.
        injection H as <- _. reflexivity.
      * rewrite (requireFile_cached _ _ _ _ _ _ E Hloop Hf) in H.
        injection H as <- _.
        assert (Hin : In existing
                        (filter (fun e => fullNameWithProject e
                                          =? requireFullName host compiler info)
                                (requiredFiles (announced host compiler info st)))).
        { rewrite Hf. now left. }
        apply filter_In in Hin as [_ Hname]. now apply String.eqb_eq.
  - rewrite (requireFile_missing _ _ _ E) in H.
    destruct (isRootFile st); discriminate.
Qed.

End RequireFacts.

(** ** C5: the name of a file outside the project *)

Lemma hex_digit_is_hex (n : N) : SHA1.is_hex_digit (SHA1.hex_digit n) = true.
Proof.
  unfold SHA1.hex_digit. generalize (N.to_nat (N.land n 15)) as k. intros k.
  do 16 (destruct k as [|k]; [reflexivity|]).
  destruct k; reflexivity.
Qed.

Lemma digest_prefix (s : string) :
  String.length (JS.take 10 (SHA1.digest_hex s)) = 10
  /\ JS.all_chars SHA1.is_hex_digit (JS.take 10 (SHA1.digest_hex s)) = true.
Proof.
  unfold SHA1.digest_hex.
  destruct (fold_left SHA1.compress _ SHA1.initial) as [[[[h0 h1] h2] h3] h4].
  unfold SHA1.hex8. cbn [append JS.take String.length JS.all_chars].
  rewrite !hex_digit_is_hex. split; reflexivity.
Qed.

Lemma append_same_length (a b c d : string) :
  a ++ b = c ++ d -> String.length a = String.length c -> a = c /\ b = d.
Proof.
  revert c. induction a as [|x a IH]; intros [|y c] H Hlen;
    cbn in Hlen; try discriminate.
  - now split.
  - cbn [append] in H. injection H as <- H.
    destruct (IH c H) as [-> ->]; [lia | now split].
Qed.

(** C5: a resolved file outside the project is named by the first ten
    hexadecimal digits of the SHA-1 of its absolute path, a colon and its
    base name.  The entry [requireFile] answers for it bears that name.
    The name is a function of the path alone, whatever the compiler
    instance, the state and the reference are, and two paths with one
    name have the same ten digits and the same base name. *)
Theorem external_file_name (host : Host) (compiler : Compiler)
        (info : DULuaCompilerFileInfo) :
  containsPath compiler (fullpath info) = false ->
  requireFullName host compiler info
  = JS.take 10 (SHA1.digest_hex (fullpath info)) ++ ":"
    ++ path_basename host (fullpath info)
  /\ String.length (JS.take 10 (SHA1.digest_hex (fullpath info))) = 10
  /\ JS.all_chars SHA1.is_hex_digit (JS.take 10 (SHA1.digest_hex (fullpath info))) = true
  /\ (forall n reference st st' entry,
         getRequiredFileInfo host compiler reference st = inr (Some info) ->
         requireFile host compiler (S n) reference st = Done (Some entry) st' ->
         fullNameWithProject entry = externalRequireName host (fullpath info))
  /\ (forall compiler' info',
         containsPath compiler' (fullpath info') = false ->
         fullpath info' = fullpath info ->
         requireFullName host compiler' info' = requireFullName host compiler info)
  /\ (forall compiler' info',
         containsPath compiler' (fullpath info') = false ->
         requireFullName host compiler' info' = requireFullName host compiler info ->
         JS.take 10 (SHA1.digest_hex (fullpath info'))
         = JS.take 10 (SHA1.digest_hex (fullpath info))
         /\ path_basename host (fullpath info') = path_basename host (fullpath info)).
Proof.
  intros Hout.
  assert (Hname : forall c i, containsPath c (fullpath i) = false ->
                    requireFullName host c i = externalRequireName host (fullpath i)).
  { intros c i H. unfold requireFullName. now rewrite H. }
  destruct (digest_prefix (fullpath info)) as [Hlen Hhex].
  split; [|split; [|split; [|split; [|split]]]].
  - now rewrite Hname.
  - exact Hlen.
  - exact Hhex.
  - intros n reference st st' entry Hinfo Hrun.
    destruct (requireFile_name _ _ _ _ _ _ _ Hrun) as [info' [Hinfo' ->]].
    rewrite Hinfo in Hinfo'. injection Hinfo' as <-. now apply Hname.
  - intros compiler' info' Hout' Hpath. rewrite !Hname by assumption. now rewrite Hpath.
  - intros compiler' info' Hout' Heq.
    rewrite !Hname in Heq by assumption. unfold externalRequireName in Heq.
    apply append_same_length in Heq as [Hhash Hbase].
    + split; [exact Hhash | now injection Hbase].
    + rewrite Hlen. apply digest_prefix.
Qed.

Lemma external_file_name_witness :
  requireFullName (posix_host "/p" external_files) (sample_compiler true no_variables)
                  (mkFileInfo (mkFileName (Some "ext") "../../opt/ext/tool.lua")
                              "/opt/ext/tool.lua")
  = "3ffea57fd7:tool.lua".
Proof.
  exact (proj1 (external_file_name
                  (posix_host "/p" external_files) (sample_compiler true no_variables)
                  (mkFileInfo (mkFileName (Some "ext") "../../opt/ext/tool.lua")
                              "/opt/ext/tool.lua")
                  eq_refl)).
Defined.

(** The build of the sample project that requires a file of the library
    outside the project: the file is announced and accumulated under its
    hashed name. *)
Example external_build :
  compile (posix_host "/p" external_files) (sample_compiler true no_variables) 3
  = Done (mkResult "return require('3ffea57fd7:tool.lua')"
                   [mkPreload "3ffea57fd7:tool.lua" "return 7"
                              "package.preload['3ffea57fd7:tool.lua'] = (function (...) return 7; end);"])
         (mkState ["/p/src"]
                  [mkRequire "3ffea57fd7:tool.lua" "return 7"]
                  []
                  [Some (mkLibrary "proj" "/p/src")]
                  []
                  [ReadFile "/p/src/main.lua"; StatusCompiling "/p/src/main.lua";
                   StatusExternalPath "3ffea57fd7:tool.lua" "/opt/ext/tool.lua";
                   ReadFile "/opt/ext/tool.lua"; StatusCompiling "/opt/ext/tool.lua"]).
Proof. vm_compute. reflexivity. Qed.

(** ** C3: a reference that resolves to nothing *)

Lemma drop_append (t rest : string) : JS.drop (String.length t) (t ++ rest) = rest.
Proof. induction t as [|c t IH]; cbn; [now destruct rest | exact IH]. Qed.

Section Reconstruction.

Variable M : Type.
Variable matcher : string -> string -> option (M * string).
Variable text : M -> string.

(** A match is the text in front of what the matcher leaves. *)
Hypothesis sound :
  forall before s m rest,
    matcher before s = Some (m, rest) -> s = text m ++ rest /\ text m <> "".

(** Putting every match back gives the text back. *)
Lemma render_matches (s : string) :
  forall before skip, render text (segments matcher before skip s) = JS.drop skip s.
Proof.
  induction s as [|c s IH]; intros before skip.
  - now destruct skip.
  - cbn [segments]. destruct skip as [|k]; [|apply IH].
    destruct (matcher before (String c s)) as [[m rest]|] eqn:E.
    + destruct (sound _ _ _ _ E) as [Hs Hne].
      cbn [render]. rewrite IH.
      destruct (text m) as [|x t]; [contradiction|].
      cbn [append] in Hs. injection Hs as <- ->.
      cbn [String.length]. rewrite length_append.
      replace (S (String.length t + String.length rest) - String.length rest - 1)
        with (String.length t) by lia.
      now rewrite drop_append.
    + cbn [render JS.drop]. now rewrite IH.
Qed.

End Reconstruction.

Lemma match_require_sound (before s : string) (m : RequireMatch) (rest : string) :
  match_require before s = Some (m, rest) -> s = fullMatch m ++ rest /\ fullMatch m <> "".
Proof.
  unfold match_require.
  destruct (JS.startsWith before "--"); [discriminate|].
  destruct (JS.strip_prefix "require" s) as [r1|] eqn:E1; [|discriminate].
  destruct (JS.span JS.is_space r1) as [ws1 r2] eqn:E2.
  destruct (JS.strip_prefix "(" r2) as [r3|] eqn:E3; [|discriminate].
  destruct (JS.span JS.is_space r3) as [ws2 r4] eqn:E4.
  destruct r4 as [|q1 r5]; [discriminate|].
  destruct (is_quote q1); [|discriminate].
  destruct (JS.span (fun c => negb (is_quote c)) r5) as [name r6] eqn:E5.
  destruct (name =? ""); [discriminate|].
  destruct r6 as [|q2 r7]; [discriminate|].
  destruct (is_quote q2); [|discriminate].
  destruct (JS.span JS.is_space r7) as [ws3 r8] eqn:E6.
  destruct (JS.strip_prefix ")" r8) as [rest'|] eqn:E7; [|discriminate].
  intros H. injection H as <- <-. cbn [fullMatch].
  apply strip_prefix_sound in E1, E3, E7.
  apply span_sound in E2 as [E2 _], E4 as [E4 _], E5 as [E5 _], E6 as [E6 _].
  split; [|discriminate].
  subst. cbn [append]. repeat (rewrite ?append_assoc; cbn [append]; f_equal).
Qed.

(** Handlers that answer the text of their match and keep a property of
    the state give the segments back as they were. *)
Lemma replaceAsync_echo (M : Type) (handler : M -> Run string) (text : M -> string)
      (P : State -> Prop) (l : list (Segment M)) :
  (forall m st, In (Hit m) l -> P st ->
                exists st', handler m st = Done (text m) st' /\ P st') ->
  forall st, P st ->
             exists st', replaceAsync handler l st = Done (render text l) st' /\ P st'.
Proof.
  induction l as [|[c|m] l IH]; intros Hh st Hst; cbn [replaceAsync render].
  - exists st. now split.
  - destruct (IH (fun m st H => Hh m st (or_intror H)) st Hst) as [st' [E HP]].
    exists st'. unfold bind. rewrite E. now split.
  - destruct (Hh m st (or_introl eq_refl) Hst) as [st1 [E1 HP1]].
    destruct (IH (fun m st H => Hh m st (or_intror H)) st1 HP1) as [st' [E HP]].
    exists st'. unfold bind. rewrite E1, E. now split.
Qed.

Section MissingReference.

Variable host : Host.
Variable compiler : Compiler.

Lemma getRequiredFileInfo_frame (reference : string) (st st' : State) :
  same_frame st st' ->
  getRequiredFileInfo host compiler reference st'
  = getRequiredFileInfo host compiler reference st.
Proof.
  intros (Hd & _ & _ & Hl & _).
  unfold getRequiredFileInfo, getCurrentDirectory, getCurrentLibrary.
  now rewrite Hd, Hl.
Qed.

Lemma isRootFile_frame (st st' : State) :
  same_frame st st' -> isRootFile st' = isRootFile st.
Proof.
  intros (_ & _ & Hf & _). unfold isRootFile, getCurrentFile. now rewrite Hf.
Qed.

Lemma same_frame_refl (st : State) : same_frame st st.
Proof. repeat split. Qed.

Lemma same_frame_logged (st st' : State) (e : Event) :
  same_frame st st' -> same_frame st (logged st' e).
Proof. intros H. exact H. Qed.

(** The handler of a require whose reference resolves to nothing gives
    the text of the require back. *)
Lemma require_handler_missing (n : nat) (cleanSource : string) (m : RequireMatch)
      (st : State) :
  isRootFile st = false ->
  getRequiredFileInfo host compiler (file m) st = inr None ->
  exists st',
    require_handler compiler (requireFile host compiler (S n)) cleanSource m st
    = Done (fullMatch m) st'
    /\ same_frame st st'.
Proof.
  intros Hroot Hinfo. unfold require_handler.
  destruct (negb (require_survives cleanSource m)).
  - exists st. split; [reflexivity | apply same_frame_refl].
  - unfold bind. rewrite (requireFile_missing _ _ _ _ _ Hinfo), Hroot.
    eexists. split; [reflexivity | apply same_frame_logged, same_frame_refl].
Qed.

Lemma line_of_missing_references (n : nat) (cleanSource line : string) (st : State) :
  isRootFile st = false ->
  (forall m, In (Hit m) (segments match_require "" 0 line) ->
             getRequiredFileInfo host compiler (file m) st = inr None) ->
  exists st',
    replaceAsync (require_handler compiler (requireFile host compiler (S n)) cleanSource)
                 (segments match_require "" 0 line) st
    = Done line st'
    /\ same_frame st st'.
Proof.
  intros Hroot Hall.
  destruct (replaceAsync_echo _
              (require_handler compiler (requireFile host compiler (S n)) cleanSource)
              fullMatch (same_frame st) (segments match_require "" 0 line))
    with (st := st) as [st' [E HP]].
  - intros m st1 Hin Hst1.
    destruct (require_handler_missing n cleanSource m st1) as [st2 [E2 H2]].
    + now rewrite (isRootFile_frame _ _ Hst1).
    + rewrite (getRequiredFileInfo_frame _ _ _ Hst1). now apply Hall.
    + exists st2. split; [exact E2|].
      destruct Hst1 as (A1 & A2 & A3 & A4 & A5), H2 as (B1 & B2 & B3 & B4 & B5).
      repeat split; congruence.
  - apply same_frame_refl.
  - exists st'. split; [|exact HP].
    rewrite E. f_equal.
    exact (render_matches _ match_require fullMatch match_require_sound line "" 0).
Qed.

End MissingReference.



(** The build of a main file with a require of a library of the game
    and a require of a file that does not exist: both requires stay as
    they were, with a status message and a warning. *)
Example missing_build :
  compile (posix_host "/p" missing_files) (sample_compiler true no_variables) 3
  = Done (mkResult (snd (hd ("", "") missing_files)) [])
         (mkState ["/p/src"] [] [] [Some (mkLibrary "proj" "/p/src")] []
                  [ReadFile "/p/src/main.lua"; StatusCompiling "/p/src/main.lua";
                   StatusGameLibrary "dkjson" (Some "/p/src/main.lua");
                   WarnNotFound "MISSING_FILE" (Some "/p/src/main.lua")]).
Proof. vm_compute. reflexivity. Qed.

(** ** C4: the canonical name of a resolved reference *)

Lemma has_char_append (d : ascii) (a b : string) :
  JS.has_char d (a ++ b) = JS.has_char d a || JS.has_char d b.
Proof.
  induction a as [|c a IH]; cbn [append].
  - reflexivity.
  - now rewrite !has_char_cons, IH, orb_assoc.
Qed.

Lemma replace_char_removes (d : ascii) (r s : string) :
  JS.has_char d r = false -> JS.has_char d (JS.replace_char d r s) = false.
Proof.
  intros Hr. induction s as [|c s IH]; cbn [JS.replace_char]; [reflexivity|].
  destruct (Ascii.eqb c d) eqn:E.
  - now rewrite has_char_append, Hr, IH.
  - rewrite has_char_cons, IH, Ascii.eqb_sym, E. reflexivity.
Qed.

Lemma getRequiredFileInfo_canonical (host : Host) (compiler : Compiler)
      (reference : string) (st : State) (cur : Library) (info : DULuaCompilerFileInfo) :
  getCurrentLibrary st = Some cur ->
  getRequiredFileInfo host compiler reference st = inr (Some info) ->
  requireInfo info
  = mkFileName (if truthy_name (project (parseFileString reference))
                then project (parseFileString reference)
                else Some (id cur))
               (JS.replace_char "\" "/"
                  (path_relative host (sourcePath cur) (fullpath info))).
Proof.
  intros Hcur. unfold getRequiredFileInfo. rewrite Hcur.
  destruct (if truthy_name (project (parseFileString reference))
            then match project (parseFileString reference) with
                 | Some p => loadedLibraries compiler p
                 | None => None
                 end
            else Some (projectLibrary compiler)) as [lib|]; [|discriminate].
  destruct (if truthy_name (project (parseFileString reference))
            then Some (sourcePath lib) else getCurrentDirectory st) as [prefix|];
    [|discriminate].
  destruct (find (fs_isFile host) _) as [filepath|]; [|discriminate].
  destruct (filepath =? ""); [discriminate|].
  intros H. injection H as <-. reflexivity.
Qed.

(** C4, as the code has it: for a reference resolved while a library is
    current, the library field is the identifier of the current library
    when the reference names no library, and the named library otherwise;
    the file name is the path of the resolved file relative to the source
    root of the current library, with forward slashes only.  So a
    reference that names no library, or the current one, is named after
    the current library and relative to its source root, and two such
    references resolved in one state to one file bear one canonical
    name. *)
Theorem canonical_name_by_context
        (host : Host) (compiler : Compiler) (reference : string) (st : State)
        (cur : Library) (info : DULuaCompilerFileInfo) :
  getCurrentLibrary st = Some cur ->
  getRequiredFileInfo host compiler reference st = inr (Some info) ->
  (truthy_name (project (parseFileString reference)) = false ->
   project (requireInfo info) = Some (id cur))
  /\ (truthy_name (project (parseFileString reference)) = true ->
      project (requireInfo info) = project (parseFileString reference))
  /\ filename (requireInfo info)
     = JS.replace_char "\" "/" (path_relative host (sourcePath cur) (fullpath info))
  /\ JS.has_char "\" (filename (requireInfo info)) = false
  /\ (forall reference' info',
         getRequiredFileInfo host compiler reference' st = inr (Some info') ->
         fullpath info' = fullpath info ->
         filename (requireInfo info') = filename (requireInfo info)
         /\ (project (requireInfo info') = Some (id cur) ->
             project (requireInfo info) = Some (id cur) ->
             requireInfo info' = requireInfo info)).
Proof.
  intros Hcur Hinfo.
  pose proof (getRequiredFileInfo_canonical _ _ _ _ _ _ Hcur Hinfo) as Hc.
  split; [|split; [|split; [|split]]].
  - intros H. rewrite Hc, H. reflexivity.
  - intros H. rewrite Hc, H. reflexivity.
  - rewrite Hc. reflexivity.
  - rewrite Hc. cbn [filename]. now apply replace_char_removes.
  - intros reference' info' Hinfo' Hpath.
    pose proof (getRequiredFileInfo_canonical _ _ _ _ _ _ Hcur Hinfo') as Hc'.
    assert (Hname : filename (requireInfo info') = filename (requireInfo info)).
    { rewrite Hc, Hc', Hpath. reflexivity. }
    split; [exact Hname|]. intros H' H.
    destruct (requireInfo info') as [p' f'], (requireInfo info) as [p f].
    cbn [project filename] in *. congruence.
Qed.

Lemma canonical_name_by_context_witness :
  let host := diamond_host in
  let compiler := sample_compiler true no_variables in
  let info := mkFileInfo (mkFileName (Some "util") "a.lua") "/p/libs/util/a.lua" in
  getRequiredFileInfo host compiler "a" state_in_util = inr (Some info)
  /\ project (requireInfo info) = Some "util"
  /\ filename (requireInfo info)
     = JS.replace_char "\" "/" (path_relative host "/p/libs/util" (fullpath info))
  /\ JS.has_char "\" (filename (requireInfo info)) = false.
Proof.
  intros host compiler info.
  pose proof (canonical_name_by_context host compiler "a" state_in_util
                (mkLibrary "util" "/p/libs/util") info eq_refl eq_refl)
    as (Hbare & _ & Hname & Hslash & _).
  split; [reflexivity|]. split; [exact (Hbare eq_refl)|]. split; assumption.
Defined.

(** C4, refuted as stated: in the main file of the sample project the
    reference [util:a] gets the file name [../libs/util/a.lua], which is
    relative to the source root of the project and not to the one of the
    library [util] it names; the same file referenced as [a] from inside
    the library gets the file name [a.lua], and referenced by its path
    from the main file the library [proj]. *)
Lemma canonical_name_counterexample :
  ~ canonical_by_library diamond_host (sample_compiler true no_variables)
      "util:a" state_in_main
  /\ ~ same_file_same_name diamond_host (sample_compiler true no_variables)
         "util:a" state_in_main "a" state_in_util
  /\ ~ same_file_same_name diamond_host (sample_compiler true no_variables)
         "util:a" state_in_main "../libs/util/a" state_in_main.
Proof.
  split; [|split]; intros H.
  - specialize (H _ (mkLibrary "util" "/p/libs/util") eq_refl eq_refl eq_refl).
    vm_compute in H. discriminate H.
  - specialize (H _ _ eq_refl eq_refl eq_refl). vm_compute in H. discriminate H.
  - specialize (H _ _ eq_refl eq_refl eq_refl). vm_compute in H. discriminate H.
Qed.

(** ** C1: memoisation *)

Lemma announced_reads (host : Host) (compiler : Compiler)
      (info : DULuaCompilerFileInfo) (st : State) (p : string) :
  reads_of p (announced host compiler info st) = reads_of p st
  /\ compilations_of p (announced host compiler info st) = compilations_of p st.
Proof.
  unfold announced, reads_of, compilations_of, logged.
  destruct (negb (containsPath compiler (fullpath info))); cbn [trace]; [|now split].
  rewrite !filter_app, !length_app. cbn. split; lia.
Qed.

(** The accumulated entries are looked up by require name. *)
Lemma requireFile_lookup
        (host : Host) (compiler : Compiler) (n : nat) (reference : string) (st : State)
        (info : DULuaCompilerFileInfo) :
  getRequiredFileInfo host compiler reference st = inr (Some info) ->
  existsb (String.eqb (fullpath info)) (currentFiles st) = false ->
  (forall cached more,
      filter (fun entry => fullNameWithProject entry =? requireFullName host compiler info)
             (requiredFiles st) = cached :: more ->
      requireFile host compiler (S n) reference st
      = Done (Some cached) (announced host compiler info st)
      /\ same_frame st (announced host compiler info st)
      /\ (forall p, reads_of p (announced host compiler info st) = reads_of p st)
      /\ (forall p, compilations_of p (announced host compiler info st)
                    = compilations_of p st))
  /\ (forall entry st',
         requireFile host compiler (S n) reference st = Done (Some entry) st' ->
         In entry (requiredFiles st)
         \/ forall other, In other (requiredFiles st) ->
                          fullNameWithProject other <> fullNameWithProject entry).
Proof.
  intros Hinfo Hloop.
  pose proof (announced_frame host compiler info st) as Hframe.
  assert (Hsame : requiredFiles (announced host compiler info st) = requiredFiles st)
    by apply Hframe.
  split.
  - intros cached more Hhit. split; [|split; [|split]].
    + apply (requireFile_cached _ _ _ _ _ _ _ more Hinfo Hloop). now rewrite Hsame.
    + exact Hframe.
    + intros p. apply announced_reads.
    + intros p. apply announced_reads.
  - intros entry st' Hrun.
    destruct (filter (fun e => fullNameWithProject e =? requireFullName host compiler info)
                     (requiredFiles st)) as [|cached more] eqn:Hf.
    + right. intros other Hin Hname.
      destruct (requireFile_name _ _ _ _ _ _ _ Hrun) as [info' [Hinfo' Hentry]].
      rewrite Hinfo in Hinfo'. injection Hinfo' as <-.
      assert (Hother : In other
                         (filter (fun e => fullNameWithProject e
                                           =? requireFullName host compiler info)
                                 (requiredFiles st))).
      { apply filter_In. split; [exact Hin|].
        apply String.eqb_eq. congruence. }
      now rewrite Hf in Hother.
    + left. rewrite <- Hsame in Hf.
      rewrite (requireFile_cached _ _ _ _ _ _ _ _ Hinfo Hloop Hf) in Hrun.
      injection Hrun as <- _.
      assert (Hin : In cached
                      (filter (fun e => fullNameWithProject e
                                        =? requireFullName host compiler info)
                              (requiredFiles (announced host compiler info st))))
        by (rewrite Hf; now left).
      apply filter_In in Hin as [Hin _]. now rewrite <- Hsame.
Qed.


(** The build of the counterexample. *)
Example diamond_build :
  let entries :=
    [mkRequire "util:../libs/util/a.lua" "return 1";
     mkRequire "util:a.lua" "return 1";
     mkRequire "util:../libs/util/b.lua" "return require('util:a.lua')"] in
  compile diamond_host (sample_compiler true no_variables) 4
  = Done (mkResult ("local a = require('util:../libs/util/a.lua')" ++ LF
                    ++ "local b = require('util:../libs/util/b.lua')" ++ LF
                    ++ "return a + b")
                   (map toPreload entries))
         (mkState ["/p/src"] entries [] [Some (mkLibrary "proj" "/p/src")] []
                  [ReadFile "/p/src/main.lua"; StatusCompiling "/p/src/main.lua";
                   ReadFile "/p/libs/util/a.lua"; StatusCompiling "/p/libs/util/a.lua";
                   ReadFile "/p/libs/util/b.lua"; StatusCompiling "/p/libs/util/b.lua";
                   ReadFile "/p/libs/util/a.lua"; StatusCompiling "/p/libs/util/a.lua"]).
Proof. vm_compute. reflexivity. Qed.

(** ** C2: cycles *)

Lemma on_stack_iff (x : string) (l : list string) :
  existsb (String.eqb x) l = true <-> In x l.
Proof.
  split.
  - intros H. apply existsb_exists in H as [y [Hin Hy]].
    apply String.eqb_eq in Hy. now subst.
  - intros H. apply existsb_exists. exists x. split; [exact H | apply String.eqb_refl].
Qed.

Lemma off_stack_iff (x : string) (l : list string) :
  existsb (String.eqb x) l = false <-> ~ In x l.
Proof.
  rewrite <- on_stack_iff. destruct (existsb (String.eqb x) l); split; intros H;
    try reflexivity; try discriminate; try congruence.
Qed.

(** A failure is never caught: it runs through the handlers of a line,
    the lines of a source and the sources of the enclosing files. *)
Lemma replaceAsync_failure (M : Type) (handler : M -> Run string)
      (l1 : list (Segment M)) (m : M) (l2 : list (Segment M)) :
  forall st x st1 f,
    replaceAsync handler l1 st = Done x st1 ->
    handler m st1 = Failed f ->
    replaceAsync handler (l1 ++ Hit m :: l2) st = Failed f.
Proof.
  induction l1 as [|[c|m0] l1 IH]; intros st x st1 f Hdone Hfail;
    cbn [app replaceAsync] in *; unfold bind in *.
  - injection Hdone as _ <-. now rewrite Hfail.
  - destruct (replaceAsync handler l1 st) as [x' st'| |] eqn:E; try discriminate.
    injection Hdone as _ <-. now rewrite (IH _ _ _ _ E Hfail).
  - destruct (handler m0 st) as [r st0| |]; try discriminate.
    destruct (replaceAsync handler l1 st0) as [x' st'| |] eqn:E; try discriminate.
    injection Hdone as _ <-. now rewrite (IH _ _ _ _ E Hfail).
Qed.

Section Propagation.

Variable host : Host.
Variable compiler : Compiler.
Variable requireFile_rec : string -> Run (option DULuaCompilerRequire).

Lemma process_lines_failure (cleanSource : string) (ls1 : list string) (line : string)
      (ls2 : list string) :
  forall idx st out st1 f,
    process_lines compiler requireFile_rec cleanSource idx ls1 st = Done (Some out) st1 ->
    process_lines compiler requireFile_rec cleanSource (idx + List.length ls1)
                  (line :: ls2) st1 = Failed f ->
    process_lines compiler requireFile_rec cleanSource idx (ls1 ++ line :: ls2) st
    = Failed f.
Proof.
  induction ls1 as [|l ls1 IH]; intros idx st out st1 f Hdone Hfail.
  - cbn [process_lines] in Hdone. injection Hdone as _ <-.
    now rewrite Nat.add_0_r in Hfail.
  - cbn [app]. cbn [process_lines] in *. unfold bind in *.
    destruct (setLineOfCode (idx + 1) st) as [u st0| |]; try discriminate.
    destruct (rewrite_line compiler requireFile_rec cleanSource _ st0)
      as [rewritten st2| |]; try discriminate.
    destruct (negb (preload compiler) && is_bare_inline_require rewritten).
    + discriminate.
    + destruct (process_lines compiler requireFile_rec cleanSource (idx + 1) ls1 st2)
        as [[rest|] st3| |] eqn:E; try discriminate.
      injection Hdone as _ <-.
      rewrite (IH (idx + 1) st2 rest st3 f E); [reflexivity|].
      cbn [List.length] in Hfail.
      now replace (idx + 1 + List.length ls1) with (idx + S (List.length ls1)) by lia.
Qed.

Lemma process_lines_head_failure (cleanSource line : string) (more : list string)
      (idx : nat) (st : State) (f : Failure) :
  rewrite_line compiler requireFile_rec cleanSource
               (if codeHasExportStatement compiler line
                then encodeExportStatement compiler line else line)
               (mkState (sourceDirectories st) (requiredFiles st) (currentFiles st)
                        (currentLibraries st) ((idx + 1) :: tl (currentLineOfCode st))
                        (trace st)) = Failed f ->
  process_lines compiler requireFile_rec cleanSource idx (line :: more) st = Failed f.
Proof.
  intros H. cbn [process_lines]. unfold bind, setLineOfCode. now rewrite H.
Qed.

Lemma rewrite_line_failure (cleanSource line : string) (st : State) (f : Failure) :
  replaceAsync (require_handler compiler requireFile_rec cleanSource)
               (segments match_require "" 0 line) st = Failed f ->
  rewrite_line compiler requireFile_rec cleanSource line st = Failed f.
Proof. intros H. unfold rewrite_line, bind. now rewrite H. Qed.

Lemma processSourceCode_failure (source : string) (st : State) (f : Failure) :
  let expanded :=
    processDirectives (StringToNumber host) (JSON_parse host) (buildVariables compiler)
                      (normalize_newlines source) in
  luaparse host expanded = None ->
  process_lines compiler requireFile_rec
                (JS.replace_char (ascii_of_nat 13) "" expanded) 0
                (JS.split expanded LF)
                (mkState (sourceDirectories st) (requiredFiles st) (currentFiles st)
                         (currentLibraries st) (0 :: currentLineOfCode st) (trace st))
  = Failed f ->
  processSourceCode host compiler requireFile_rec source st = Failed f.
Proof.
  intros expanded Hparse H. unfold processSourceCode. fold expanded.
  rewrite Hparse. unfold bind, pushLineOfCode. now rewrite H.
Qed.

End Propagation.

(** C2, as the code has it: a reference that resolves to a file on the
    stack of the files being processed makes [requireFile] fail; the
    failure is the failure of the handler and of the rewriting of the line
    wherever the require stands on it, of the line loop whichever line
    fails, of [processSourceCode] whose lines fail, of the [requireFile]
    whose source fails to process, and of [startBuild], which then has no
    result.  A
    reference that resolves to a file that is not on the stack does not
    fail for that reason; it is answered from the accumulated entries,
    without a new transformation, when one of them bears its require
    name. *)
Theorem require_cycle_is_fatal
        (host : Host) (compiler : Compiler) (n : nat) (reference : string) (st : State)
        (info : DULuaCompilerFileInfo) :
  getRequiredFileInfo host compiler reference st = inr (Some info) ->
  (In (fullpath info) (currentFiles st) ->
   requireFile host compiler (S n) reference st
   = Failed (RequireLoop (getCurrentFile st))
   /\ (forall cleanSource m,
          file m = reference ->
          require_survives cleanSource m = true ->
          require_handler compiler (requireFile host compiler (S n)) cleanSource m st
          = Failed (RequireLoop (getCurrentFile st)))
   /\ (forall cleanSource l1 m l2 st0 x,
          replaceAsync (require_handler compiler (requireFile host compiler (S n))
                                        cleanSource) l1 st0 = Done x st ->
          file m = reference ->
          require_survives cleanSource m = true ->
          replaceAsync (require_handler compiler (requireFile host compiler (S n))
                                        cleanSource) (l1 ++ Hit m :: l2) st0
          = Failed (RequireLoop (getCurrentFile st))))
  /\ (~ In (fullpath info) (currentFiles st) ->
      forall cached more,
        filter (fun entry => fullNameWithProject entry
                             =? requireFullName host compiler info)
               (requiredFiles st) = cached :: more ->
        requireFile host compiler (S n) reference st
        = Done (Some cached) (announced host compiler info st))
  /\ (forall fuel root st0 f,
         requireFile host compiler fuel
                     (if truthy_name root
                      then match root with Some r => r | None => "" end
                      else projectName compiler ++ ":" ++ buildName compiler)
                     (started compiler st0) = Failed f ->
         startBuild host compiler fuel root st0 = Failed f)
  /\ (forall f,
         ~ In (fullpath info) (currentFiles st) ->
         filter (fun entry => fullNameWithProject entry
                              =? requireFullName host compiler info)
                (requiredFiles st) = [] ->
         processSourceCode host compiler (requireFile host compiler n)
                           (fs_readFile host (fullpath info))
                           (opened host compiler info (announced host compiler info st))
         = Failed f ->
         requireFile host compiler (S n) reference st = Failed f)
  /\ (forall rec cleanSource ls1 line ls2 idx st0 out st1 f,
         process_lines compiler rec cleanSource idx ls1 st0 = Done (Some out) st1 ->
         process_lines compiler rec cleanSource (idx + List.length ls1) (line :: ls2) st1
         = Failed f ->
         process_lines compiler rec cleanSource idx (ls1 ++ line :: ls2)%list st0
         = Failed f)
  /\ (forall rec cleanSource line more idx st0 f,
         replaceAsync (require_handler compiler rec cleanSource)
                      (segments match_require "" 0
                                (if codeHasExportStatement compiler line
                                 then encodeExportStatement compiler line else line))
                      (mkState (sourceDirectories st0) (requiredFiles st0)
                               (currentFiles st0) (currentLibraries st0)
                               ((idx + 1) :: tl (currentLineOfCode st0)) (trace st0))
         = Failed f ->
         process_lines compiler rec cleanSource idx (line :: more) st0 = Failed f)
  /\ (forall rec source st0 f,
         luaparse host
                  (processDirectives (StringToNumber host) (JSON_parse host)
                                     (buildVariables compiler)
                                     (normalize_newlines source)) = None ->
         process_lines compiler rec
                       (JS.replace_char (ascii_of_nat 13) ""
                          (processDirectives (StringToNumber host) (JSON_parse host)
                                             (buildVariables compiler)
                                             (normalize_newlines source)))
                       0
                       (JS.split (processDirectives (StringToNumber host)
                                                    (JSON_parse host)
                                                    (buildVariables compiler)
                                                    (normalize_newlines source)) LF)
                       (mkState (sourceDirectories st0) (requiredFiles st0)
                                (currentFiles st0) (currentLibraries st0)
                                (0 :: currentLineOfCode st0) (trace st0))
         = Failed f ->
         processSourceCode host compiler rec source st0 = Failed f).
Proof.
  intros Hinfo.
  assert (Hsame : requiredFiles (announced host compiler info st) = requiredFiles st)
    by apply announced_frame.
  split; [|split; [|split; [|split; [|split; [|split]]]]].
  5:{ intros rec cleanSource ls1 line ls2 idx st0 out st1 f.
      apply process_lines_failure. }
  5:{ intros rec cleanSource line more idx st0 f Hfail.
      apply process_lines_head_failure. now apply rewrite_line_failure. }
  5:{ intros rec source st0 f. apply processSourceCode_failure. }
  - intros Hin.
    assert (Hloop : existsb (String.eqb (fullpath info)) (currentFiles st) = true)
      by now apply on_stack_iff.
    assert (Hhandler : forall cleanSource m,
               file m = reference ->
               require_survives cleanSource m = true ->
               require_handler compiler (requireFile host compiler (S n)) cleanSource m st
               = Failed (RequireLoop (getCurrentFile st))).
    { intros cleanSource m Hm Hs. unfold require_handler, bind.
      rewrite Hs, Hm. cbn [negb].
      now rewrite (requireFile_loop _ _ _ _ _ _ Hinfo Hloop). }
    split; [|split].
    + exact (requireFile_loop _ _ _ _ _ _ Hinfo Hloop).
    + exact Hhandler.
    + intros cleanSource l1 m l2 st0 x Hdone Hm Hs.
      exact (replaceAsync_failure _ _ l1 m l2 st0 x st _ Hdone
               (Hhandler cleanSource m Hm Hs)).
  - intros Hout cached more Hhit.
    assert (Hloop : existsb (String.eqb (fullpath info)) (currentFiles st) = false)
      by now apply off_stack_iff.
    apply (requireFile_cached _ _ _ _ _ _ _ more Hinfo Hloop). now rewrite Hsame.
  - intros fuel root st0 f Hfail. unfold startBuild, bind. now rewrite Hfail.
  - intros f Hout Hmiss Hfail.
    assert (Hloop : existsb (String.eqb (fullpath info)) (currentFiles st) = false)
      by now apply off_stack_iff.
    rewrite <- Hsame in Hmiss.
    now rewrite (requireFile_fresh _ _ _ _ _ _ Hinfo Hloop Hmiss), Hfail.
Qed.

Lemma require_cycle_is_fatal_witness :
  requireFile (posix_host "/p" cycle_files) (sample_compiler true no_variables) 1
              "a" state_in_cycle
  = Failed (RequireLoop (Some "/p/src/b.lua")).
Proof.
  exact (proj1 (proj1 (require_cycle_is_fatal
                         (posix_host "/p" cycle_files) (sample_compiler true no_variables)
                         0 "a" state_in_cycle
                         (mkFileInfo (mkFileName (Some "proj") "a.lua") "/p/src/a.lua")
                         eq_refl)
                      (or_intror (or_introl eq_refl)))).
Defined.

(** The build of two files that require each other has no result. *)
Example cycle_build :
  compile (posix_host "/p" cycle_files) (sample_compiler true no_variables) 5
  = Failed (RequireLoop (Some "/p/src/b.lua")).
Proof. vm_compute. reflexivity. Qed.

(** C2, refuted as stated: in the build of the sample project the file
    [/p/libs/util/a.lua] is reached along two paths without a cycle, from
    the main file and from the file [b.lua], and is transformed twice. *)
Lemma resolved_exactly_once_counterexample :
  ~ resolved_exactly_once
      (compile diamond_host (sample_compiler true no_variables) 4)
      "/p/libs/util/a.lua".
Proof.
  intros H. unfold resolved_exactly_once in H.
  remember (compile diamond_host (sample_compiler true no_variables) 4) as o eqn:E.
  vm_compute in E. subst o.
  specialize (H _ _ eq_refl). vm_compute in H. discriminate H.
Qed.

(** ** C7: the line that only holds an inlined require *)

(** C7, at the failing input: with the preloads disabled, the main file
    [local x = 1], [require("helper")], [return x] is compiled into the
    empty text: the [return ''] of the line loop leaves [processSourceCode]
    as soon as the second line has become [_REQ['proj:helper.lua']], and
    the first and the third line are lost with it.  With the preloads
    enabled the three lines are emitted. *)
Theorem bare_inline_require_empties_the_file :
  compile (posix_host "/p" inline_files) (sample_compiler false no_variables) 3
  = Done (mkResult ""
                   [mkPreload "proj:helper.lua" "y = 2"
                              "package.preload['proj:helper.lua'] = (function (...) y = 2; end);"])
         (mkState ["/p/src"] [mkRequire "proj:helper.lua" "y = 2"] []
                  [Some (mkLibrary "proj" "/p/src")] [1]
                  [ReadFile "/p/src/main.lua"; StatusCompiling "/p/src/main.lua";
                   ReadFile "/p/src/helper.lua"; StatusCompiling "/p/src/helper.lua"])
  /\ (forall r st,
         compile (posix_host "/p" inline_files) (sample_compiler true no_variables) 3
         = Done r st ->
         output r = "local x = 1" ++ LF ++ "require('proj:helper.lua')" ++ LF ++ "return x").
Proof.
  split; [vm_compute; reflexivity|].
  intros r st H. vm_compute in H. injection H as <- _. reflexivity.
Qed.

(** ** C8: the guard of the undefined behaviour *)

Lemma match_undefined_behavior_needs_newline (before s : string) :
  JS.has_char (ascii_of_nat 10) s = false -> match_undefined_behavior before s = None.
Proof.
  intros H. destruct s as [|d [|q [|n rest]]]; try reflexivity.
  rewrite !has_char_cons in H.
  apply orb_false_iff in H as [_ H]. apply orb_false_iff in H as [_ H].
  apply orb_false_iff in H as [H _].
  cbn [match_undefined_behavior]. rewrite (Ascii.eqb_sym n), H.
  now rewrite andb_false_r.
Qed.

(** The expression of the guard never matches on a text without a line
    feed, and the lines of the loop have none. *)
Lemma undefined_behavior_guard_is_idle (line : string) :
  JS.has_char (ascii_of_nat 10) line = false ->
  forall before st,
    replaceAsync undefined_behavior_handler
                 (segments match_undefined_behavior before 0 line) st
    = Done line st.
Proof.
  induction line as [|c line IH]; intros H before st; [reflexivity|].
  cbn [segments]. rewrite (match_undefined_behavior_needs_newline _ _ H).
  cbn [replaceAsync]. unfold bind. rewrite IH; [reflexivity|].
  rewrite has_char_cons in H. now apply orb_false_iff in H.
Qed.

(** C8, at the failing input: the main file [-- is it 1?], [return 1]
    leaves the compiler as it entered it and no warning is emitted.  The
    guard is applied to one line at a time, and a line of
    [sourceCode.split('\n')] holds no line feed for the expression
    [([0-9])\?\n] to match. *)
Theorem question_mark_line_not_rewritten :
  compile (posix_host "/p" question_files) (sample_compiler true no_variables) 3
  = Done (mkResult ("-- is it 1?" ++ LF ++ "return 1") [])
         (mkState ["/p/src"] [] [] [Some (mkLibrary "proj" "/p/src")] []
                  [ReadFile "/p/src/main.lua"; StatusCompiling "/p/src/main.lua"])
  /\ (forall source line before st,
         In line (JS.split source LF) ->
         replaceAsync undefined_behavior_handler
                      (segments match_undefined_behavior before 0 line) st
         = Done line st).
Proof.
  split; [vm_compute; reflexivity|].
  intros source line before st Hin.
  apply undefined_behavior_guard_is_idle.
  exact (split_char_pieces _ _ _ Hin).
Qed.

(** ** The accumulated entries of a build *)

Section Accumulation.

Variable host : Host.
Variable compiler : Compiler.

Lemma extends_same (st st' : State) :
  sourceDirectories st' = sourceDirectories st ->
  currentFiles st' = currentFiles st ->
  currentLibraries st' = currentLibraries st ->
  requiredFiles st' = requiredFiles st ->
  extends host compiler st st'.
Proof.
  intros Hd Hf Hl Hr. repeat split; try assumption.
  exists []. rewrite app_nil_r. repeat split; [assumption | constructor |].
  unfold names. now rewrite Hr.
Qed.

Lemma extends_refl (st : State) : extends host compiler st st.
Proof. now apply extends_same. Qed.

Lemma extends_trans (st1 st2 st3 : State) :
  extends host compiler st1 st2 -> extends host compiler st2 st3 ->
  extends host compiler st1 st3.
Proof.
  intros (Hd & Hf & Hl & a & Ha & HQ & HN) (Hd' & Hf' & Hl' & a' & Ha' & HQ' & HN').
  repeat split; try congruence.
  exists (a ++ a')%list. repeat split.
  - now rewrite Ha', Ha, app_assoc.
  - apply Forall_app. split; [exact HQ|]. now rewrite Hf in HQ'.
  - intros H. now apply HN', HN.
Qed.

Lemma settled_extends (st st' : State) :
  extends host compiler st st' -> settled compiler st -> settled compiler st'.
Proof.
  intros (_ & _ & Hl & _) (lib & Hcur & Hlib). exists lib. split; [|exact Hlib].
  unfold getCurrentLibrary in *. now rewrite Hl.
Qed.

(** A computation that only runs extending steps extends. *)
Lemma replaceAsync_extends (M : Type) (handler : M -> Run string) :
  (forall m st x st', settled compiler st -> handler m st = Done x st' ->
                      extends host compiler st st') ->
  forall l st x st',
    settled compiler st -> replaceAsync handler l st = Done x st' ->
    extends host compiler st st'.
Proof.
  intros Hh l. induction l as [|[c|m] l IH]; intros st x st' Hst H;
    cbn [replaceAsync] in H; unfold bind, ret in H.
  - injection H as _ <-. apply extends_refl.
  - destruct (replaceAsync handler l st) as [y st1| |] eqn:E; try discriminate.
    injection H as _ <-. exact (IH _ _ _ Hst E).
  - destruct (handler m st) as [r st1| |] eqn:E1; try discriminate.
    destruct (replaceAsync handler l st1) as [y st2| |] eqn:E2; try discriminate.
    injection H as _ <-.
    pose proof (Hh _ _ _ _ Hst E1) as H1.
    exact (extends_trans _ _ _ H1 (IH _ _ _ (settled_extends _ _ H1 Hst) E2)).
Qed.

Section Knot.

Variable requireFile_rec : string -> Run (option DULuaCompilerRequire).

Hypothesis rec_extends :
  forall reference st r st',
    settled compiler st -> requireFile_rec reference st = Done r st' ->
    extends host compiler st st'.

Lemma require_handler_extends (cleanSource : string) (m : RequireMatch) :
  forall st x st',
    settled compiler st ->
    require_handler compiler requireFile_rec cleanSource m st = Done x st' ->
    extends host compiler st st'.
Proof.
  intros st x st' Hst H. unfold require_handler, bind, ret in H.
  destruct (negb (require_survives cleanSource m)).
  - injection H as _ <-. apply extends_refl.
  - destruct (requireFile_rec (file m) st) as [[entry|] st1| |] eqn:E; try discriminate.
    + destruct (negb (preload compiler)); injection H as _ <-;
        exact (rec_extends _ _ _ _ Hst E).
    + injection H as _ <-. exact (rec_extends _ _ _ _ Hst E).
Qed.

Lemma rewrite_line_extends (cleanSource line : string) :
  forall st x st',
    settled compiler st ->
    rewrite_line compiler requireFile_rec cleanSource line st = Done x st' ->
    extends host compiler st st'.
Proof.
  intros st x st' Hst H. unfold rewrite_line, bind in H.
  destruct (replaceAsync (require_handler compiler requireFile_rec cleanSource) _ st)
    as [line1 st1| |] eqn:E1; try discriminate.
  destruct (replaceAsync undefined_behavior_handler _ st1)
    as [line2 st2| |] eqn:E2; try discriminate.
  destruct (expandCompilerFunctions compiler st2 line2); try discriminate.
  injection H as _ <-.
  pose proof (replaceAsync_extends _ _ (require_handler_extends cleanSource)
                                   _ _ _ _ Hst E1) as H1.
  refine (extends_trans _ _ _ H1 _).
  refine (replaceAsync_extends _ undefined_behavior_handler _ _ _ _ _
                               (settled_extends _ _ H1 Hst) E2).
  intros d s0 y s0' _ Hd. unfold undefined_behavior_handler, bind, emit, ret in Hd.
  injection Hd as _ <-. now apply extends_same.
Qed.

Lemma process_lines_extends (cleanSource : string) (lines : list string) :
  forall idx st r st',
    settled compiler st ->
    process_lines compiler requireFile_rec cleanSource idx lines st = Done r st' ->
    extends host compiler st st'.
Proof.
  induction lines as [|line more IH]; intros idx st r st' Hst H;
    cbn [process_lines] in H; unfold bind, ret in H.
  - injection H as _ <-. apply extends_refl.
  - unfold setLineOfCode in H.
    match type of H with
    | context [rewrite_line _ _ _ ?l ?s] =>
        assert (H0 : extends host compiler st s) by (now apply extends_same);
        destruct (rewrite_line compiler requireFile_rec cleanSource l s)
          as [rewritten st1| |] eqn:E1; try discriminate
    end.
    pose proof (rewrite_line_extends _ _ _ _ _ (settled_extends _ _ H0 Hst) E1) as H1.
    pose proof (extends_trans _ _ _ H0 H1) as H01.
    destruct (negb (preload compiler) && is_bare_inline_require rewritten).
    + injection H as _ <-. exact H01.
    + destruct (process_lines compiler requireFile_rec cleanSource (idx + 1) more st1)
        as [rest st2| |] eqn:E2; try discriminate.
      injection H as _ <-.
      exact (extends_trans _ _ _ H01 (IH _ _ _ _ (settled_extends _ _ H01 Hst) E2)).
Qed.

Lemma processSourceCode_extends (source : string) :
  forall st x st',
    settled compiler st ->
    processSourceCode host compiler requireFile_rec source st = Done x st' ->
    extends host compiler st st'.
Proof.
  intros st x st' Hst H. unfold processSourceCode in H.
  destruct (luaparse host _) as [[line message]|]; [discriminate|].
  unfold bind, pushLineOfCode, popLineOfCode, ret in H.
  match type of H with
  | context [process_lines _ _ ?c ?i ?ls ?s] =>
      assert (H0 : extends host compiler st s) by (now apply extends_same);
      destruct (process_lines compiler requireFile_rec c i ls s)
        as [[ls'|] st1| |] eqn:E; try discriminate
  end.
  - injection H as _ <-.
    pose proof (process_lines_extends _ _ _ _ _ _ (settled_extends _ _ H0 Hst) E) as H1.
    refine (extends_trans _ _ _ (extends_trans _ _ _ H0 H1) _).
    now apply extends_same.
  - injection H as _ <-.
    pose proof (process_lines_extends _ _ _ _ _ _ (settled_extends _ _ H0 Hst) E) as H1.
    exact (extends_trans _ _ _ H0 H1).
Qed.

End Knot.

End Accumulation.

Lemma loadedLibraries_id (compiler : Compiler) (key : string) (lib : Library) :
  loadedLibraries compiler key = Some lib -> id lib = key.
Proof.
  unfold loadedLibraries. intros H. apply find_some in H as [_ H].
  now apply String.eqb_eq.
Qed.

Lemma truthy_name_inv (o : option string) :
  truthy_name o = true -> exists p, o = Some p /\ p <> "".
Proof.
  destruct o as [p|]; [|discriminate]. cbn. intros H. exists p. split; [reflexivity|].
  intros ->. discriminate.
Qed.

(** A named library of a resolved reference is loaded. *)
Lemma getRequiredFileInfo_library (host : Host) (compiler : Compiler)
      (reference : string) (st : State) (info : DULuaCompilerFileInfo) :
  getRequiredFileInfo host compiler reference st = inr (Some info) ->
  truthy_name (project (parseFileString reference)) = true ->
  exists p lib,
    project (parseFileString reference) = Some p
    /\ p <> ""
    /\ loadedLibraries compiler p = Some lib.
Proof.
  intros H Hnamed. unfold getRequiredFileInfo in H. rewrite Hnamed in H.
  destruct (truthy_name_inv _ Hnamed) as [p [Hp Hne]]. rewrite Hp in H.
  destruct (loadedLibraries compiler p) as [lib|] eqn:E; [|discriminate].
  exists p, lib. now repeat split.
Qed.

Lemma NoDup_snoc (A : Type) (l : list A) (k : A) :
  NoDup l -> ~ In k l -> NoDup (l ++ [k])%list.
Proof.
  intros Hl Hk. induction l as [|x l IH]; cbn.
  - constructor; [intros [] | constructor].
  - inversion Hl as [|? ? Hx Hl']; subst. constructor.
    + intros Hin. apply in_app_or in Hin as [Hin|[->|[]]]; [contradiction|].
      apply Hk. now left.
    + apply IH; [exact Hl'|]. intros Hin. apply Hk. now right.
Qed.

Lemma filter_none_absent (k : string) (l : list DULuaCompilerRequire) :
  filter (fun entry => fullNameWithProject entry =? k) l = [] ->
  ~ In k (map fullNameWithProject l).
Proof.
  intros Hf Hin. apply in_map_iff in Hin as [e [He Hin]].
  assert (H : In e (filter (fun entry => fullNameWithProject entry =? k) l)).
  { apply filter_In. split; [exact Hin|]. now apply String.eqb_eq. }
  now rewrite Hf in H.
Qed.

Section Invariant.

Variable host : Host.
Variable compiler : Compiler.

Hypothesis distinct : name_determines_path host compiler.

Lemma opened_settled (reference : string) (st : State) (info : DULuaCompilerFileInfo) :
  settled compiler st ->
  getRequiredFileInfo host compiler reference st = inr (Some info) ->
  settled compiler (opened host compiler info (announced host compiler info st)).
Proof.
  intros (cur & Hcur & Hloaded & Hne) Hinfo.
  pose proof (getRequiredFileInfo_canonical _ _ _ _ _ _ Hcur Hinfo) as Hc.
  unfold settled, opened, entered, getCurrentLibrary. cbn [currentLibraries].
  unfold owner. rewrite Hc. cbn [project].
  destruct (truthy_name (project (parseFileString reference))) eqn:Hnamed.
  - destruct (getRequiredFileInfo_library _ _ _ _ _ Hinfo Hnamed)
      as (p & lib & Hp & Hpne & Hlib).
    rewrite Hnamed, Hp, Hlib. exists lib.
    pose proof (loadedLibraries_id _ _ _ Hlib) as Hid.
    repeat split; [now rewrite Hid | now rewrite Hid].
  - assert (Ht : truthy_name (Some (id cur)) = true).
    { cbn. destruct (String.eqb_spec (id cur) ""); [contradiction | reflexivity]. }
    rewrite Ht, Hloaded. exists cur. now repeat split.
Qed.

Lemma requireFile_body_extends
      (requireFile_rec : string -> Run (option DULuaCompilerRequire)) :
  (forall reference st r st',
      settled compiler st -> requireFile_rec reference st = Done r st' ->
      extends host compiler st st') ->
  forall reference st r st',
    settled compiler st ->
    requireFile_body host compiler requireFile_rec reference st = Done r st' ->
    extends host compiler st st'.
Proof.
  intros Hrec reference st r st' Hst H. unfold requireFile_body in H.
  destruct (getRequiredFileInfo host compiler reference st) as [f|[info|]] eqn:Hinfo;
    [discriminate| |].
  2:{ destruct (isRootFile st); [discriminate|]. injection H as _ <-.
      now apply extends_same. }
  destruct (existsb (String.eqb (fullpath info)) (currentFiles st)) eqn:Hloop;
    [discriminate|].
  apply off_stack_iff in Hloop.
  destruct (announced_frame host compiler info st) as (Ad & Ar & Af & Al & _).
  assert (Hann : extends host compiler st (announced host compiler info st))
    by now apply extends_same.
  destruct (filter _ (requiredFiles (announced host compiler info st)))
    as [|existing more] eqn:Hf.
  2:{ injection H as _ <-. exact Hann. }
  destruct (processSourceCode host compiler requireFile_rec _ _)
    as [processed st2| |] eqn:Hsrc; try discriminate.
  injection H as _ <-.
  pose proof (processSourceCode_extends host compiler requireFile_rec Hrec _ _ _ _
                (opened_settled _ _ _ Hst Hinfo) Hsrc)
    as (Hd & Hfiles & Hlibs & added & Hadded & Hoff & Hnodup).
  cbn [opened entered logged sourceDirectories currentFiles currentLibraries
       requiredFiles] in Hd, Hfiles, Hlibs, Hadded, Hoff.
  rewrite Ar in Hadded. rewrite Af in Hfiles, Hoff. rewrite Ad in Hd. rewrite Al in Hlibs.
  assert (Hweak : Forall (resolved_off host compiler (currentFiles st)) added).
  { eapply Forall_impl; [|exact Hoff].
    intros e (ref0 & s0 & i0 & Hs0 & Hi0 & Hn0 & Hout).
    exists ref0, s0, i0. repeat split; try assumption.
    intros Hin. apply Hout. now right. }
  assert (Hnames : NoDup (names st) -> NoDup (names st2)).
  { intros Hn. apply Hnodup. unfold names, opened, entered, logged.
    cbn [requiredFiles]. now rewrite Ar. }
  assert (Hleft : extends host compiler st (left st2)).
  { unfold left. repeat split; cbn [sourceDirectories currentFiles currentLibraries];
      try (now rewrite ?Hd, ?Hfiles, ?Hlibs).
    exists added. repeat split; assumption. }
  unfold closed. destruct (negb (isRootFile (left st2))); [|exact Hleft].
  unfold accumulated. repeat split;
    cbn [sourceDirectories currentFiles currentLibraries left];
    try (now rewrite ?Hd, ?Hfiles, ?Hlibs).
  exists (added ++ [mkRequire (requireFullName host compiler info) processed])%list.
  cbn [requiredFiles left]. repeat split.
  - now rewrite Hadded, app_assoc.
  - apply Forall_app. split; [exact Hweak|]. constructor; [|constructor].
    exists reference, st, info. now repeat split.
  - intros Hn. unfold names. cbn [requiredFiles].
    rewrite map_app. cbn [map fullNameWithProject].
    apply NoDup_snoc; [exact (Hnames Hn)|].
    rewrite Hadded, map_app. intros Hin. apply in_app_or in Hin as [Hin|Hin].
    + rewrite <- Ar in Hin. exact (filter_none_absent _ _ Hf Hin).
    + apply in_map_iff in Hin as [e [He Hin]].
      rewrite Forall_forall in Hoff.
      destruct (Hoff e Hin) as (ref0 & s0 & i0 & Hs0 & Hi0 & Hn0 & Hout).
      apply Hout. left.
      symmetry. apply (distinct s0 st ref0 reference i0 info Hs0 Hst Hi0 Hinfo).
      congruence.
Qed.

(** A call of [requireFile] that ends gives the three stacks back and
    only adds to the accumulated entries. *)
Lemma requireFile_extends (fuel : nat) :
  forall reference st r st',
    settled compiler st ->
    requireFile host compiler fuel reference st = Done r st' ->
    extends host compiler st st'.
Proof.
  induction fuel as [|n IH]; intros reference st r st' Hst H.
  - discriminate.
  - cbn [requireFile] in H. exact (requireFile_body_extends _ IH _ _ _ _ Hst H).
Qed.

End Invariant.

(** *** Hosts whose require names tell the files apart *)

Lemma loadedLibraries_listed (compiler : Compiler) (key : string) (lib : Library) :
  loadedLibraries compiler key = Some lib ->
  In lib (projectLibrary compiler :: projectLibraries compiler).
Proof.
  unfold loadedLibraries. intros H. apply find_some in H as [H _].
  now apply in_rev in H.
Qed.

Lemma posix_resolved_file (cwd : string) (fs : FileSystem) (compiler : Compiler)
      (reference : string) (st : State) (info : DULuaCompilerFileInfo) :
  getRequiredFileInfo (posix_host cwd fs) compiler reference st = inr (Some info) ->
  In (fullpath info) (map fst fs).
Proof.
  unfold getRequiredFileInfo.
  destruct (if truthy_name (project (parseFileString reference)) then _ else _)
    as [lib|]; [|discriminate].
  destruct (if truthy_name (project (parseFileString reference))
            then Some (sourcePath lib) else getCurrentDirectory st) as [prefix|];
    [|discriminate].
  destruct (find (fs_isFile (posix_host cwd fs)) _) as [filepath|] eqn:E; [|discriminate].
  destruct (filepath =? ""); [discriminate|].
  intros H. injection H as <-. cbn [fullpath path_resolve posix_host].
  apply find_some in E as [_ E]. cbn [fs_isFile posix_host] in E.
  unfold fs_lookup in E.
  destruct (find (fun entry => fst entry =? Posix.resolve cwd filepath) fs)
    as [entry|] eqn:Ef; [|discriminate].
  apply find_some in Ef as [Hin Hfst]. apply String.eqb_eq in Hfst.
  rewrite <- Hfst. now apply in_map.
Qed.

Lemma resolved_name_is_candidate (cwd : string) (fs : FileSystem) (compiler : Compiler)
      (reference : string) (st : State) (info : DULuaCompilerFileInfo) :
  settled compiler st ->
  getRequiredFileInfo (posix_host cwd fs) compiler reference st = inr (Some info) ->
  In (requireFullName (posix_host cwd fs) compiler info, fullpath info)
     (candidate_names (posix_host cwd fs) compiler (map fst fs)).
Proof.
  intros (cur & Hcur & Hloaded & Hne) Hinfo.
  pose proof (posix_resolved_file _ _ _ _ _ _ Hinfo) as Hfile.
  pose proof (getRequiredFileInfo_canonical _ _ _ _ _ _ Hcur Hinfo) as Hc.
  assert (Hnamed : exists named,
             In named (projectLibrary compiler :: projectLibraries compiler)
             /\ (if truthy_name (project (parseFileString reference))
                 then project (parseFileString reference) else Some (id cur))
                = Some (id named)).
  { destruct (truthy_name (project (parseFileString reference))) eqn:Hn.
    - destruct (getRequiredFileInfo_library _ _ _ _ _ Hinfo Hn)
        as (p & lib & Hp & _ & Hlib).
      exists lib. split; [exact (loadedLibraries_listed _ _ _ Hlib)|].
      now rewrite Hp, (loadedLibraries_id _ _ _ Hlib).
    - exists cur. split; [exact (loadedLibraries_listed _ _ _ Hloaded) | reflexivity]. }
  destruct Hnamed as (named & Hin & Hfield). rewrite Hfield in Hc.
  unfold candidate_names.
  apply in_flat_map. exists named. split; [exact Hin|].
  apply in_flat_map. exists cur. split; [exact (loadedLibraries_listed _ _ _ Hloaded)|].
  apply in_map_iff. exists (fullpath info). split; [|exact Hfile].
  f_equal. f_equal. destruct info as [ri fp]. cbn [requireInfo fullpath] in *.
  now rewrite Hc.
Qed.

Lemma names_tell_paths_sound (cwd : string) (fs : FileSystem) (compiler : Compiler) :
  names_tell_paths (candidate_names (posix_host cwd fs) compiler (map fst fs)) = true ->
  name_determines_path (posix_host cwd fs) compiler.
Proof.
  intros Hcheck st st' reference reference' info info' Hst Hst' Hinfo Hinfo' Hname.
  pose proof (resolved_name_is_candidate _ _ _ _ _ _ Hst Hinfo) as Hc.
  pose proof (resolved_name_is_candidate _ _ _ _ _ _ Hst' Hinfo') as Hc'.
  unfold names_tell_paths in Hcheck.
  rewrite forallb_forall in Hcheck. specialize (Hcheck _ Hc).
  rewrite forallb_forall in Hcheck. specialize (Hcheck _ Hc').
  cbn [fst snd] in Hcheck. rewrite Hname, String.eqb_refl in Hcheck.
  now apply String.eqb_eq.
Qed.

(** In the sample project with the three files of the diamond no two
    files bear one require name, though one file bears two names. *)
Lemma diamond_names_tell_paths :
  name_determines_path diamond_host (sample_compiler true no_variables).
Proof.
  apply (names_tell_paths_sound "/p" diamond_files). vm_compute. reflexivity.
Qed.

(** The accumulated entries of a build bear pairwise distinct require
    names when no two files bear one require name and the library of the
    project is loaded under its own name. *)
Lemma accumulated_names_distinct (host : Host) (compiler : Compiler) :
  name_determines_path host compiler ->
  loadedLibraries compiler (id (projectLibrary compiler)) = Some (projectLibrary compiler) ->
  id (projectLibrary compiler) <> "" ->
  forall fuel r st,
    compile host compiler fuel = Done r st -> NoDup (names st).
Proof.
  intros Hdistinct Hloaded Hne fuel r st H. unfold compile, startBuild, bind in H.
  destruct (requireFile host compiler fuel _ (started compiler (initialState compiler)))
    as [[entry|] st1| |] eqn:E; try discriminate.
  injection H as _ <-.
  assert (Hst : settled compiler (started compiler (initialState compiler))).
  { exists (projectLibrary compiler). now repeat split. }
  destruct (requireFile_extends host compiler Hdistinct fuel _ _ _ _ Hst E)
    as (_ & _ & _ & added & _ & _ & Hnodup).
  apply Hnodup. constructor.
Qed.



(** * Further properties of the compiler *)

(** ** Splitting, joining and searching *)

Lemma split_char_nonempty (d : ascii) (s : string) : JS.split s (String d "") <> [].
Proof.
  destruct s as [|c s]; [discriminate|].
  rewrite split_char_cons. destruct (Ascii.eqb d c); [discriminate|].
  destruct (JS.split s (String d "")); discriminate.
Qed.

(** Joining the pieces of a text with the separator gives the text
    back. *)
Lemma join_split_char (d : ascii) (s : string) :
  JS.join (String d "") (JS.split s (String d "")) = s.
Proof.
  induction s as [|c s IH]; [reflexivity|].
  rewrite split_char_cons.
  pose proof (split_char_nonempty d s) as Hne.
  destruct (JS.split s (String d "")) as [|piece more]; [contradiction|].
  destruct (Ascii.eqb_spec d c) as [->|_].
  - change (JS.join (String c "") ("" :: piece :: more))
      with ("" ++ String c "" ++ JS.join (String c "") (piece :: more)).
    now rewrite IH.
  - destruct more as [|p2 more]; cbn [JS.join append] in *; now rewrite IH.
Qed.

(** The first piece of a text starts it, and every piece is a part of
    it. *)
Lemma split_char_parts (d : ascii) (s : string) :
  (exists rest, s = hd "" (JS.split s (String d "")) ++ rest)
  /\ forall piece, In piece (JS.split s (String d "")) -> exists b a, s = b ++ piece ++ a.
Proof.
  induction s as [|c s [[rest Hhd] IH]].
  - split; [now exists ""|]. intros piece [<-|[]]. now exists "", "".
  - rewrite split_char_cons.
    destruct (Ascii.eqb_spec d c) as [->|_].
    + split; [now exists (String c s)|].
      intros piece [<-|H].
      * now exists "", (String c s).
      * destruct (IH _ H) as (b & a & ->). now exists (String c b), a.
    + destruct (JS.split s (String d "")) as [|p more] eqn:E.
      * exfalso. exact (split_char_nonempty d s E).
      * cbn [hd] in *. split.
        -- exists rest. cbn [append]. now rewrite <- Hhd.
        -- intros piece [<-|H].
           ++ exists "", rest. cbn [append]. now rewrite <- Hhd.
           ++ destruct (IH _ (or_intror H)) as (b & a & ->). now exists (String c b), a.
Qed.

Lemma includes_inv (s n : string) :
  JS.includes s n = true -> exists b a, s = b ++ n ++ a.
Proof.
  unfold JS.includes. destruct (JS.break_on n s) as [[b a]|] eqn:E; [|discriminate].
  intros _. exists b, a. exact (break_on_sound _ _ _ _ E).
Qed.

(** A text that does not hold [n] has no part that holds it. *)
Lemma includes_part (n b s a : string) :
  JS.includes (b ++ s ++ a) n = false -> JS.includes s n = false.
Proof.
  intros H. destruct (JS.includes s n) eqn:E; [|reflexivity].
  destruct (includes_inv _ _ E) as (b' & a' & ->).
  rewrite !append_assoc, <- (append_assoc b b'), includes_middle in H. discriminate.
Qed.

Lemma includes_piece (d : ascii) (n s piece : string) :
  JS.includes s n = false ->
  In piece (JS.split s (String d "")) ->
  JS.includes piece n = false.
Proof.
  intros H Hin. destruct (proj2 (split_char_parts d s) _ Hin) as (b & a & ->).
  exact (includes_part _ _ _ _ H).
Qed.

Lemma includes_head (n : string) (c : ascii) (s : string) :
  JS.includes (String c s) n = false -> JS.strip_prefix n (String c s) = None.
Proof.
  unfold JS.includes. cbn [JS.break_on].
  destruct (JS.strip_prefix n (String c s)); [discriminate | reflexivity].
Qed.

(** ** A global replacement that finds nothing *)

Section Untouched.

Variable M : Type.
Variable matcher : string -> string -> option (M * string).
Variable needle : string.

(** The expression matches no text without [needle]. *)
Hypothesis needs : forall before s, JS.includes s needle = false -> matcher before s = None.

Lemma segments_without (s : string) :
  JS.includes s needle = false ->
  forall before, segments matcher before 0 s = map Keep (list_ascii_of_string s).
Proof.
  induction s as [|c s IH]; intros H before; [reflexivity|].
  cbn [segments list_ascii_of_string map]. rewrite (needs _ _ H).
  now rewrite (IH (includes_tail _ _ _ H)).
Qed.

Lemma render_kept (fn : M -> string) (s : string) :
  render fn (map Keep (list_ascii_of_string s)) = s.
Proof. induction s as [|c s IH]; cbn; [reflexivity | now rewrite IH]. Qed.

Lemma replace_all_without (fn : M -> string) (s : string) :
  JS.includes s needle = false -> replace_all matcher fn s = s.
Proof.
  intros H. unfold replace_all. rewrite (segments_without _ H). apply render_kept.
Qed.

Lemma replaceAsync_kept_text (handler : M -> Run string) (s : string) (st : State) :
  replaceAsync handler (map Keep (list_ascii_of_string s)) st = Done s st.
Proof.
  induction s as [|c s IH]; cbn [list_ascii_of_string map replaceAsync]; [reflexivity|].
  unfold bind. now rewrite IH.
Qed.

Lemma replaceAsync_without (handler : M -> Run string) (s before : string) (st : State) :
  JS.includes s needle = false ->
  replaceAsync handler (segments matcher before 0 s) st = Done s st.
Proof.
  intros H. rewrite (segments_without _ H). apply replaceAsync_kept_text.
Qed.

End Untouched.

Lemma match_directive_needs (before s : string) :
  JS.includes s "---@if " = false -> match_directive before s = None.
Proof.
  intros H. destruct s as [|c s]; [reflexivity|].
  unfold match_directive. now rewrite (includes_head _ _ _ H).
Qed.

Lemma match_require_needs (before s : string) :
  JS.includes s "require" = false -> match_require before s = None.
Proof.
  intros H. destruct s as [|c s].
  - unfold match_require. now destruct (JS.startsWith before "--").
  - unfold match_require. rewrite (includes_head _ _ _ H).
    now destruct (JS.startsWith before "--").
Qed.

(** ** A source without directives and requires *)

Section PlainSource.

Variable host : Host.
Variable compiler : Compiler.
Variable requireFile_rec : string -> Run (option DULuaCompilerRequire).

Lemma rewrite_line_plain (cleanSource line : string) (st : State) :
  JS.includes line "require" = false ->
  JS.has_char (ascii_of_nat 10) line = false ->
  expandCompilerFunctions compiler st line = Some line ->
  rewrite_line compiler requireFile_rec cleanSource line st = Done line st.
Proof.
  intros Hreq Hlf Hfun. unfold rewrite_line, bind.
  rewrite (replaceAsync_without _ match_require "require" match_require_needs _ _ _ _ Hreq).
  rewrite (undefined_behavior_guard_is_idle _ Hlf).
  now rewrite Hfun.
Qed.

Lemma process_lines_plain (cleanSource : string) (lines : list string) :
  (forall line, In line lines -> JS.includes line "require" = false) ->
  (forall line, In line lines -> JS.has_char (ascii_of_nat 10) line = false) ->
  (forall line, In line lines -> codeHasExportStatement compiler line = false) ->
  (forall line s, In line lines -> expandCompilerFunctions compiler s line = Some line) ->
  (preload compiler = false ->
   forall line, In line lines -> is_bare_inline_require line = false) ->
  forall idx st,
    process_lines compiler requireFile_rec cleanSource idx lines st
    = Done (Some lines)
           (match lines with
            | [] => st
            | _ :: _ =>
                mkState (sourceDirectories st) (requiredFiles st) (currentFiles st)
                        (currentLibraries st)
                        ((idx + List.length lines) :: tl (currentLineOfCode st))
                        (trace st)
            end).
Proof.
  induction lines as [|line more IH]; intros Hreq Hlf Hexp Hfun Hbare idx st.
  - reflexivity.
  - cbn [process_lines]. unfold bind, setLineOfCode.
    rewrite (Hexp line (or_introl eq_refl)).
    rewrite rewrite_line_plain;
      [ | exact (Hreq _ (or_introl eq_refl)) | exact (Hlf _ (or_introl eq_refl))
        | exact (Hfun _ _ (or_introl eq_refl)) ].
    assert (Hgo : negb (preload compiler) && is_bare_inline_require line = false).
    { destruct (preload compiler) eqn:Hp; [reflexivity|].
      now rewrite (Hbare eq_refl _ (or_introl eq_refl)). }
    rewrite Hgo.
    rewrite IH; try (intros; auto using in_cons).
    unfold ret. cbn [option_map]. f_equal.
    destruct more as [|l2 more].
    + cbn [List.length]. now rewrite Nat.add_1_r.
    + cbn [sourceDirectories requiredFiles currentFiles currentLibraries
           currentLineOfCode trace tl List.length].
      f_equal. f_equal. lia.
Qed.

End PlainSource.

(** X1: a source without a directive and without the word [require]
    leaves [processSourceCode] as it entered it, but for its line ends:
    when the parser accepts it, no line holds an export statement or a
    call of a helper function, and, with the preloads disabled, no line
    has the form of an inlined require, the answer is the source with
    [\r\n] turned into [\n].  No file is resolved, nothing is accumulated
    and nothing is logged.  Of the stack of line numbers the last element
    is gone and the number of lines of the source is the new head: when a
    file was being processed, [getCurrentLineOfCode] now answers the
    number of lines of this source, not the line the caller had
    reached. *)
Theorem plain_source_passes
        (host : Host) (compiler : Compiler)
        (requireFile_rec : string -> Run (option DULuaCompilerRequire))
        (source : string) (st : State) :
  JS.includes (normalize_newlines source) "---@if " = false ->
  JS.includes (normalize_newlines source) "require" = false ->
  luaparse host (normalize_newlines source) = None ->
  (forall line, In line (JS.split (normalize_newlines source) LF) ->
                codeHasExportStatement compiler line = false) ->
  (forall line s, In line (JS.split (normalize_newlines source) LF) ->
                  expandCompilerFunctions compiler s line = Some line) ->
  (preload compiler = false ->
   forall line, In line (JS.split (normalize_newlines source) LF) ->
                is_bare_inline_require line = false) ->
  processSourceCode host compiler requireFile_rec source st
  = Done (normalize_newlines source)
         (mkState (sourceDirectories st) (requiredFiles st) (currentFiles st)
                  (currentLibraries st)
                  (removelast (List.length (JS.split (normalize_newlines source) LF)
                               :: currentLineOfCode st))
                  (trace st))
  /\ (currentLineOfCode st <> [] ->
      getCurrentLineOfCode
        (mkState (sourceDirectories st) (requiredFiles st) (currentFiles st)
                 (currentLibraries st)
                 (removelast (List.length (JS.split (normalize_newlines source) LF)
                              :: currentLineOfCode st))
                 (trace st))
      = Some (List.length (JS.split (normalize_newlines source) LF))).
Proof.
  intros Hdir Hreq Hparse Hexp Hfun Hbare. split.
  2:{ intros Hne. unfold getCurrentLineOfCode. cbn [currentLineOfCode].
      destruct (currentLineOfCode st); [contradiction | reflexivity]. }
  unfold processSourceCode.
  assert (Hsame : processDirectives (StringToNumber host) (JSON_parse host)
                                    (buildVariables compiler) (normalize_newlines source)
                  = normalize_newlines source).
  { unfold processDirectives.
    exact (replace_all_without _ match_directive "---@if " match_directive_needs _ _ Hdir). }
  rewrite Hsame, Hparse. unfold bind, pushLineOfCode.
  rewrite process_lines_plain; try assumption.
  - pose proof (split_char_nonempty (ascii_of_nat 10) (normalize_newlines source)) as Hne.
    unfold LF in *.
    destruct (JS.split (normalize_newlines source) (String (ascii_of_nat 10) ""))
      as [|l ls] eqn:E; [contradiction|].
    unfold popLineOfCode, ret.
    cbn [sourceDirectories requiredFiles currentFiles currentLibraries currentLineOfCode
         trace tl Nat.add].
    rewrite <- E, join_split_char. reflexivity.
  - intros line Hin. exact (includes_piece _ _ _ _ Hreq Hin).
  - intros line Hin. exact (split_char_pieces _ _ _ Hin).
Qed.

Lemma plain_source_passes_witness :
  processSourceCode (posix_host "/p" []) (sample_compiler false no_variables)
                    (fun _ _ => Starved)
                    ("local a = 1" ++ String (ascii_of_nat 13) LF ++ "return a")
                    state_in_main
  = Done ("local a = 1" ++ LF ++ "return a")
         (mkState ["/p/src"; "/p/src"] [] ["/p/src/main.lua"]
                  [Some (mkLibrary "proj" "/p/src"); Some (mkLibrary "proj" "/p/src")]
                  [2] []).
Proof.
  refine (proj1 (plain_source_passes
                   (posix_host "/p" []) (sample_compiler false no_variables)
                   (fun _ _ => Starved)
                   ("local a = 1" ++ String (ascii_of_nat 13) LF ++ "return a")
                   state_in_main eq_refl eq_refl eq_refl _ _ _)).
  - intros line _. reflexivity.
  - intros line s _. reflexivity.
  - intros _ line [<-|[<-|[]]]; reflexivity.
Defined.

(** ** What every call keeps *)

Lemma length_removelast (A : Type) (l : list A) :
  List.length (removelast l) = pred (List.length l).
Proof.
  induction l as [|x l IH]; [reflexivity|].
  destruct l as [|y l]; [reflexivity|].
  change (removelast (x :: y :: l)) with (x :: removelast (y :: l)).
  cbn [List.length] in *. now rewrite IH.
Qed.

Section Keeping.

Variable host : Host.
Variable compiler : Compiler.

Lemma kept_same (st st' : State) :
  sourceDirectories st' = sourceDirectories st ->
  currentFiles st' = currentFiles st ->
  currentLibraries st' = currentLibraries st ->
  requiredFiles st' = requiredFiles st ->
  List.length (currentLineOfCode st') = List.length (currentLineOfCode st) ->
  kept compiler st st'.
Proof.
  intros Hd Hf Hl Hr Hn. unfold kept. rewrite Hn.
  split; [exact Hd|]. split; [exact Hf|]. split; [exact Hl|].
  split; [exists []; now rewrite app_nil_r|].
  split; [apply le_n | reflexivity].
Qed.

Lemma kept_refl (st : State) : kept compiler st st.
Proof. now apply kept_same. Qed.

Lemma kept_trans (st1 st2 st3 : State) :
  kept compiler st1 st2 -> kept compiler st2 st3 -> kept compiler st1 st3.
Proof.
  intros (Hd & Hf & Hl & [a Ha] & Hle & Heq) (Hd' & Hf' & Hl' & [a' Ha'] & Hle' & Heq').
  repeat split; try congruence.
  - exists (a ++ a')%list. now rewrite Ha', Ha, app_assoc.
  - lia.
  - intros Hp. rewrite (Heq' Hp). exact (Heq Hp).
Qed.

Lemma kept_lines (st st' : State) :
  kept compiler st st' -> currentLineOfCode st <> [] -> currentLineOfCode st' <> [].
Proof.
  intros (_ & _ & _ & _ & Hle & _) Hne E. rewrite E in Hle.
  destruct (currentLineOfCode st); [contradiction | cbn in Hle; lia].
Qed.

Lemma replaceAsync_kept (M : Type) (handler : M -> Run string) :
  (forall m st x st', handler m st = Done x st' -> kept compiler st st') ->
  forall l st x st', replaceAsync handler l st = Done x st' -> kept compiler st st'.
Proof.
  intros Hh l. induction l as [|[c|m] l IH]; intros st x st' H;
    cbn [replaceAsync] in H; unfold bind, ret in H.
  - injection H as _ <-. apply kept_refl.
  - destruct (replaceAsync handler l st) as [y st1| |] eqn:E; try discriminate.
    injection H as _ <-. exact (IH _ _ _ E).
  - destruct (handler m st) as [r st1| |] eqn:E1; try discriminate.
    destruct (replaceAsync handler l st1) as [y st2| |] eqn:E2; try discriminate.
    injection H as _ <-.
    exact (kept_trans _ _ _ (Hh _ _ _ _ E1) (IH _ _ _ E2)).
Qed.

Section Knot.

Variable requireFile_rec : string -> Run (option DULuaCompilerRequire).

Hypothesis rec_kept :
  forall reference st r st',
    requireFile_rec reference st = Done r st' -> kept compiler st st'.

Lemma require_handler_kept (cleanSource : string) (m : RequireMatch) :
  forall st x st',
    require_handler compiler requireFile_rec cleanSource m st = Done x st' ->
    kept compiler st st'.
Proof.
  intros st x st' H. unfold require_handler, bind, ret in H.
  destruct (negb (require_survives cleanSource m)).
  - injection H as _ <-. apply kept_refl.
  - destruct (requireFile_rec (file m) st) as [[entry|] st1| |] eqn:E; try discriminate.
    + destruct (negb (preload compiler)); injection H as _ <-;
        exact (rec_kept _ _ _ _ E).
    + injection H as _ <-. exact (rec_kept _ _ _ _ E).
Qed.

Lemma rewrite_line_kept (cleanSource line : string) :
  forall st x st',
    rewrite_line compiler requireFile_rec cleanSource line st = Done x st' ->
    kept compiler st st'.
Proof.
  intros st x st' H. unfold rewrite_line, bind in H.
  destruct (replaceAsync (require_handler compiler requireFile_rec cleanSource) _ st)
    as [line1 st1| |] eqn:E1; try discriminate.
  destruct (replaceAsync undefined_behavior_handler _ st1)
    as [line2 st2| |] eqn:E2; try discriminate.
  destruct (expandCompilerFunctions compiler st2 line2); try discriminate.
  injection H as _ <-.
  refine (kept_trans _ _ _
            (replaceAsync_kept _ _ (require_handler_kept cleanSource) _ _ _ _ E1) _).
  refine (replaceAsync_kept _ undefined_behavior_handler _ _ _ _ _ E2).
  intros d s0 y s0' Hd. unfold undefined_behavior_handler, bind, emit, ret in Hd.
  injection Hd as _ <-. now apply kept_same.
Qed.

(** The loop over the lines: one rewritten line for each line, unless
    the loop is left early, which only happens with the preloads
    disabled. *)
Lemma process_lines_kept (cleanSource : string) (lines : list string) :
  forall idx st r st',
    currentLineOfCode st <> [] ->
    process_lines compiler requireFile_rec cleanSource idx lines st = Done r st' ->
    kept compiler st st'
    /\ match r with
       | Some ls => List.length ls = List.length lines
       | None => preload compiler = false
       end.
Proof.
  induction lines as [|line more IH]; intros idx st r st' Hne H;
    cbn [process_lines] in H; unfold bind, ret in H.
  - injection H as <- <-. split; [apply kept_refl | reflexivity].
  - unfold setLineOfCode in H.
    assert (H0 : kept compiler st
                   (mkState (sourceDirectories st) (requiredFiles st) (currentFiles st)
                            (currentLibraries st) ((idx + 1) :: tl (currentLineOfCode st))
                            (trace st))).
    { apply kept_same; try reflexivity.
      cbn [currentLineOfCode]. destruct (currentLineOfCode st); [contradiction | reflexivity]. }
    match type of H with
    | context [rewrite_line _ _ _ ?l ?s] =>
        destruct (rewrite_line compiler requireFile_rec cleanSource l s)
          as [rewritten st1| |] eqn:E1; try discriminate
    end.
    pose proof (rewrite_line_kept _ _ _ _ _ E1) as H1.
    pose proof (kept_trans _ _ _ H0 H1) as H01.
    destruct (negb (preload compiler) && is_bare_inline_require rewritten) eqn:Hearly.
    + injection H as <- <-. split; [exact H01|].
      apply andb_true_iff in Hearly as [Hp _]. now apply negb_true_iff in Hp.
    + destruct (process_lines compiler requireFile_rec cleanSource (idx + 1) more st1)
        as [rest st2| |] eqn:E2; try discriminate.
      injection H as <- <-.
      destruct (IH _ _ _ _ (kept_lines _ _ H01 Hne) E2) as [H2 Hr].
      split; [exact (kept_trans _ _ _ H01 H2)|].
      destruct rest as [ls|]; cbn [option_map List.length]; [now rewrite Hr | exact Hr].
Qed.

Lemma processSourceCode_kept (source : string) :
  forall st x st',
    processSourceCode host compiler requireFile_rec source st = Done x st' ->
    kept compiler st st'.
Proof.
  intros st x st' H. unfold processSourceCode in H.
  destruct (luaparse host _) as [[line message]|]; [discriminate|].
  unfold bind, pushLineOfCode, popLineOfCode, ret in H.
  match type of H with
  | context [process_lines _ _ ?c ?i ?ls ?s] =>
      destruct (process_lines compiler requireFile_rec c i ls s)
        as [[ls'|] st1| |] eqn:E; try discriminate;
      (apply process_lines_kept in E; [|cbn [currentLineOfCode]; discriminate])
  end.
  - injection H as _ <-.
    destruct E as [(Hd & Hf & Hl & [a Ha] & Hle & Heq) _].
    cbn [sourceDirectories currentFiles currentLibraries requiredFiles currentLineOfCode
         List.length] in *.
    split; [exact Hd|]. split; [exact Hf|]. split; [exact Hl|].
    split; [now exists a|].
    cbn [currentLineOfCode]. rewrite length_removelast. split; [lia|].
    intros Hp. now rewrite (Heq Hp).
  - injection H as _ <-.
    destruct E as [(Hd & Hf & Hl & [a Ha] & Hle & Heq) Hp].
    cbn [sourceDirectories currentFiles currentLibraries requiredFiles currentLineOfCode
         List.length] in *.
    split; [exact Hd|]. split; [exact Hf|]. split; [exact Hl|].
    split; [now exists a|].
    split; [lia|]. intros Hp'. congruence.
Qed.

End Knot.

Lemma announced_lines (info : DULuaCompilerFileInfo) (st : State) :
  currentLineOfCode (announced host compiler info st) = currentLineOfCode st.
Proof. unfold announced. now destruct (negb (containsPath compiler (fullpath info))). Qed.

Lemma requireFile_body_kept
      (requireFile_rec : string -> Run (option DULuaCompilerRequire)) :
  (forall reference st r st',
      requireFile_rec reference st = Done r st' -> kept compiler st st') ->
  forall reference st r st',
    requireFile_body host compiler requireFile_rec reference st = Done r st' ->
    kept compiler st st'.
Proof.
  intros Hrec reference st r st' H. unfold requireFile_body in H.
  destruct (getRequiredFileInfo host compiler reference st) as [f|[info|]];
    [discriminate| |].
  2:{ destruct (isRootFile st); [discriminate|]. injection H as _ <-.
      now apply kept_same. }
  destruct (existsb (String.eqb (fullpath info)) (currentFiles st)); [discriminate|].
  destruct (announced_frame host compiler info st) as (Ad & Ar & Af & Al & An).
  destruct (filter _ (requiredFiles (announced host compiler info st)))
    as [|existing more].
  2:{ injection H as _ <-. apply kept_same; congruence. }
  destruct (processSourceCode host compiler requireFile_rec _ _)
    as [processed st2| |] eqn:Hsrc; try discriminate.
  injection H as _ <-.
  destruct (processSourceCode_kept _ Hrec _ _ _ _ Hsrc)
    as (Hd & Hf & Hl & [added Hadded] & Hle & Heq).
  cbn [opened entered logged sourceDirectories currentFiles currentLibraries
       requiredFiles currentLineOfCode] in Hd, Hf, Hl, Hadded, Hle, Heq.
  rewrite Ar in Hadded. rewrite An in Hle, Heq.
  unfold closed.
  destruct (negb (isRootFile (left st2)));
    unfold accumulated, left, kept;
    cbn [sourceDirectories currentFiles currentLibraries requiredFiles currentLineOfCode];
    rewrite ?Hd, ?Hf, ?Hl; cbn [tl];
    (split; [exact Ad|]); (split; [exact Af|]); (split; [exact Al|]);
    (split; [|split; assumption]).
  - eexists. rewrite Hadded, <- app_assoc. reflexivity.
  - now exists added.
Qed.

Lemma requireFile_kept (fuel : nat) :
  forall reference st r st',
    requireFile host compiler fuel reference st = Done r st' -> kept compiler st st'.
Proof.
  induction fuel as [|n IH]; intros reference st r st' H.
  - discriminate.
  - cbn [requireFile] in H. exact (requireFile_body_kept _ IH _ _ _ _ H).
Qed.

End Keeping.

(** X2: a call of [requireFile] that ends gives the context back,
    whatever it resolved and however deep the requires it met are nested:
    the stacks of the source directories, of the files being processed
    and of the current libraries are the ones it found, so that
    [getCurrentDirectory], [getCurrentFile], [getCurrentLibrary] and
    [isRootFile] answer after the call what they answered before it. *)
Theorem requireFile_restores_context
        (host : Host) (compiler : Compiler) (fuel : nat) (reference : string)
        (st st' : State) (r : option DULuaCompilerRequire) :
  requireFile host compiler fuel reference st = Done r st' ->
  sourceDirectories st' = sourceDirectories st
  /\ currentFiles st' = currentFiles st
  /\ currentLibraries st' = currentLibraries st
  /\ getCurrentDirectory st' = getCurrentDirectory st
  /\ getCurrentFile st' = getCurrentFile st
  /\ getCurrentLibrary st' = getCurrentLibrary st
  /\ isRootFile st' = isRootFile st.
Proof.
  intros H. destruct (requireFile_kept host compiler fuel _ _ _ _ H) as (Hd & Hf & Hl & _).
  unfold isRootFile, getCurrentDirectory, getCurrentFile, getCurrentLibrary.
  rewrite Hd, Hf, Hl. repeat split.
Qed.

Lemma requireFile_restores_context_witness :
  sourceDirectories state_after_b = sourceDirectories state_after_a
  /\ currentFiles state_after_b = currentFiles state_after_a
  /\ currentLibraries state_after_b = currentLibraries state_after_a
  /\ getCurrentDirectory state_after_b = getCurrentDirectory state_after_a
  /\ getCurrentFile state_after_b = getCurrentFile state_after_a
  /\ getCurrentLibrary state_after_b = getCurrentLibrary state_after_a
  /\ isRootFile state_after_b = isRootFile state_after_a.
Proof.
  exact (requireFile_restores_context
           diamond_host (sample_compiler true no_variables) 2 "util:b"
           state_after_a state_after_b
           (Some (mkRequire "util:../libs/util/b.lua" "return require('util:a.lua')"))
           eq_refl).
Defined.

(** The state a processed source leaves: the root context is the root
    context still, and the accumulated entries have new ones behind
    them. *)
Lemma processed_source_state (host : Host) (compiler : Compiler) (n : nat)
      (info : DULuaCompilerFileInfo) (st st2 : State) (processed : string) :
  processSourceCode host compiler (requireFile host compiler n)
                    (fs_readFile host (fullpath info))
                    (opened host compiler info (announced host compiler info st))
  = Done processed st2 ->
  isRootFile (left st2) = isRootFile st
  /\ exists added, requiredFiles st2 = (requiredFiles st ++ added)%list.
Proof.
  intros Hsrc.
  destruct (announced_frame host compiler info st) as (Ad & Ar & Af & Al & An).
  destruct (processSourceCode_kept host compiler _ (requireFile_kept host compiler n)
                                   _ _ _ _ Hsrc)
    as (Hd & Hf & Hl & [added Hadded] & _).
  cbn [opened entered logged sourceDirectories currentFiles currentLibraries
       requiredFiles] in Hd, Hf, Hl, Hadded.
  rewrite Ar in Hadded. split; [|now exists added].
  unfold isRootFile, getCurrentFile, left. cbn [currentFiles]. now rewrite Hf, Af.
Qed.

(** X3: the accumulated entries only grow, at their end, and a file is
    accumulated behind the files its source made [requireFile] accumulate.
    A call that ends leaves the entries it found in their places.  When it
    answers an entry under a name that no accumulated entry bore, it has
    processed the source of the resolved file into the source code of the
    entry; the entries accumulated meanwhile follow the old ones, and the
    new entry comes last, unless the call was made in the root context
    (the main file of the build), whose entry is not accumulated. *)
Theorem requireFile_accumulates_in_order
        (host : Host) (compiler : Compiler) (n : nat) (reference : string)
        (st st' : State) (r : option DULuaCompilerRequire) :
  requireFile host compiler (S n) reference st = Done r st' ->
  (exists added, requiredFiles st' = (requiredFiles st ++ added)%list)
  /\ forall entry,
      r = Some entry ->
      ~ In (fullNameWithProject entry) (names st) ->
      exists info st2 added,
        getRequiredFileInfo host compiler reference st = inr (Some info)
        /\ fullNameWithProject entry = requireFullName host compiler info
        /\ processSourceCode host compiler (requireFile host compiler n)
                             (fs_readFile host (fullpath info))
                             (opened host compiler info (announced host compiler info st))
           = Done (sourceCode entry) st2
        /\ requiredFiles st2 = (requiredFiles st ++ added)%list
        /\ requiredFiles st'
           = (requiredFiles st ++ added ++ (if isRootFile st then [] else [entry]))%list.
Proof.
  intros H. split.
  { now destruct (requireFile_kept host compiler _ _ _ _ _ H) as (_ & _ & _ & Ha & _). }
  intros entry -> Hnew.
  destruct (getRequiredFileInfo host compiler reference st) as [f|[info|]] eqn:E.
  - rewrite (requireFile_fails _ _ _ _ _ _ E) in H. discriminate.
  - destruct (existsb (String.eqb (fullpath info)) (currentFiles st)) eqn:Hloop.
    { rewrite (requireFile_loop _ _ _ _ _ _ E Hloop) in H. discriminate. }
    destruct (announced_frame host compiler info st) as (Ad & Ar & Af & Al & An).
    destruct (filter (fun e => fullNameWithProject e =? requireFullName host compiler info)
                     (requiredFiles (announced host compiler info st)))
      as [|existing more] eqn:Hfilter.
    + rewrite (requireFile_fresh _ _ _ _ _ _ E Hloop Hfilter) in H.
      destruct (processSourceCode _ _ _ _ _) as [processed st2| |] eqn:Hsrc;
        try discriminate.
      injection H as <- <-.
      destruct (processed_source_state _ _ _ _ _ _ _ Hsrc) as [Hroot [added Hadded]].
      exists info, st2, added. cbn [fullNameWithProject sourceCode].
      repeat split; try assumption.
      unfold closed. rewrite Hroot. destruct (isRootFile st); cbn [negb].
      * unfold left. cbn [requiredFiles]. now rewrite app_nil_r.
      * unfold accumulated, left. cbn [requiredFiles]. now rewrite Hadded, app_assoc.
    + exfalso. rewrite (requireFile_cached _ _ _ _ _ _ _ _ E Hloop Hfilter) in H.
      injection H as <- _. apply Hnew. unfold names.
      apply in_map.
      assert (Hin : In existing
                      (filter (fun e => fullNameWithProject e
                                        =? requireFullName host compiler info)
                              (requiredFiles (announced host compiler info st)))).
      { rewrite Hfilter. now left. }
      apply filter_In in Hin as [Hin _]. now rewrite Ar in Hin.
  - rewrite (requireFile_missing _ _ _ _ _ E) in H.
    destruct (isRootFile st); discriminate.
Qed.

Lemma requireFile_accumulates_in_order_witness :
  exists info st2 added,
    getRequiredFileInfo diamond_host (sample_compiler true no_variables) "util:b"
                        state_after_a = inr (Some info)
    /\ "util:../libs/util/b.lua"
       = requireFullName diamond_host (sample_compiler true no_variables) info
    /\ processSourceCode diamond_host (sample_compiler true no_variables)
                         (requireFile diamond_host (sample_compiler true no_variables) 1)
                         (fs_readFile diamond_host (fullpath info))
                         (opened diamond_host (sample_compiler true no_variables) info
                                 (announced diamond_host (sample_compiler true no_variables)
                                            info state_after_a))
       = Done "return require('util:a.lua')" st2
    /\ requiredFiles st2 = (requiredFiles state_after_a ++ added)%list
    /\ requiredFiles state_after_b
       = (requiredFiles state_after_a ++ added
          ++ [mkRequire "util:../libs/util/b.lua" "return require('util:a.lua')"])%list.
Proof.
  exact (proj2 (requireFile_accumulates_in_order
                  diamond_host (sample_compiler true no_variables) 1 "util:b"
                  state_after_a state_after_b
                  (Some (mkRequire "util:../libs/util/b.lua"
                                   "return require('util:a.lua')"))
                  eq_refl)
               (mkRequire "util:../libs/util/b.lua" "return require('util:a.lua')")
               eq_refl
               ltac:(cbn; intros [H|[]]; discriminate H)).
Defined.

(** X4: the stack of line numbers.  [processSourceCode] puts a counter
    in front of the stack and takes the last element of the stack away
    when it is done with the lines, if it gets there: a call of
    [requireFile] that ends leaves a stack that is never shorter than the
    one it found, and exactly as long when the preloads are enabled. *)
Theorem line_stack_is_not_shortened
        (host : Host) (compiler : Compiler) (fuel : nat) (reference : string)
        (st st' : State) (r : option DULuaCompilerRequire) :
  requireFile host compiler fuel reference st = Done r st' ->
  List.length (currentLineOfCode st) <= List.length (currentLineOfCode st')
  /\ (preload compiler = true ->
      List.length (currentLineOfCode st') = List.length (currentLineOfCode st)).
Proof.
  intros H.
  now destruct (requireFile_kept host compiler fuel _ _ _ _ H) as (_ & _ & _ & _ & Hn).
Qed.

Lemma line_stack_is_not_shortened_witness :
  List.length (currentLineOfCode state_after_a)
  <= List.length (currentLineOfCode state_after_b)
  /\ (preload (sample_compiler true no_variables) = true ->
      List.length (currentLineOfCode state_after_b)
      = List.length (currentLineOfCode state_after_a)).
Proof.
  exact (line_stack_is_not_shortened
           diamond_host (sample_compiler true no_variables) 2 "util:b"
           state_after_a state_after_b
           (Some (mkRequire "util:../libs/util/b.lua" "return require('util:a.lua')"))
           eq_refl).
Defined.

(** ** The lines of a source *)

Lemma process_lines_count (compiler : Compiler)
      (requireFile_rec : string -> Run (option DULuaCompilerRequire))
      (cleanSource : string) (lines : list string) :
  forall idx st r st',
    process_lines compiler requireFile_rec cleanSource idx lines st = Done r st' ->
    match r with
    | Some ls => List.length ls = List.length lines
    | None => preload compiler = false
    end.
Proof.
  induction lines as [|line more IH]; intros idx st r st' H;
    cbn [process_lines] in H; unfold bind, ret in H.
  - now injection H as <- <-.
  - destruct (setLineOfCode (idx + 1) st) as [u st0| |]; try discriminate.
    destruct (rewrite_line compiler requireFile_rec cleanSource _ st0)
      as [rewritten st1| |]; try discriminate.
    destruct (negb (preload compiler) && is_bare_inline_require rewritten) eqn:Hearly.
    + injection H as <- <-.
      apply andb_true_iff in Hearly as [Hp _]. now apply negb_true_iff in Hp.
    + destruct (process_lines compiler requireFile_rec cleanSource (idx + 1) more st1)
        as [rest st2| |] eqn:E2; try discriminate.
      injection H as <- <-. specialize (IH _ _ _ _ E2).
      destruct rest as [ls|]; cbn [option_map List.length]; [now rewrite IH | exact IH].
Qed.



(** ** The current library *)

Lemma loadedLibraries_found (compiler : Compiler) (lib : Library) :
  In lib (projectLibrary compiler :: projectLibraries compiler) ->
  loadedLibraries compiler (id lib) <> None.
Proof.
  intros Hin E. unfold loadedLibraries in E.
  apply in_rev in Hin. pose proof (find_none _ _ E lib Hin) as Hf. cbn beta in Hf.
  now rewrite String.eqb_refl in Hf.
Qed.

Lemma opened_housed (host : Host) (compiler : Compiler)
      (reference : string) (st : State) (info : DULuaCompilerFileInfo) :
  housed compiler st ->
  getRequiredFileInfo host compiler reference st = inr (Some info) ->
  truthy_name (project (requireInfo info)) = true
  /\ (exists lib, owner compiler info = Some lib
                  /\ project (requireInfo info) = Some (id lib))
  /\ housed compiler (opened host compiler info (announced host compiler info st)).
Proof.
  intros (cur & Hcur & Hne & Hloaded) Hinfo.
  pose proof (getRequiredFileInfo_canonical _ _ _ _ _ _ Hcur Hinfo) as Hc.
  unfold housed, opened, entered, getCurrentLibrary. cbn [currentLibraries].
  unfold owner. rewrite Hc. cbn [project].
  destruct (truthy_name (project (parseFileString reference))) eqn:Hnamed.
  - destruct (getRequiredFileInfo_library _ _ _ _ _ Hinfo Hnamed)
      as (p & lib & Hp & Hpne & Hlib).
    rewrite Hnamed, Hp, Hlib.
    pose proof (loadedLibraries_id _ _ _ Hlib) as Hid.
    split; [reflexivity|]. split.
    + exists lib. now rewrite Hid.
    + exists lib. rewrite Hid. repeat split; [exact Hpne | congruence].
  - assert (Ht : truthy_name (Some (id cur)) = true).
    { cbn. destruct (String.eqb_spec (id cur) ""); [contradiction | reflexivity]. }
    rewrite Ht.
    destruct (loadedLibraries compiler (id cur)) as [lib|] eqn:Hlib; [|contradiction].
    pose proof (loadedLibraries_id _ _ _ Hlib) as Hid.
    split; [reflexivity|]. split.
    + exists lib. now rewrite Hid.
    + exists lib. rewrite Hid. repeat split; [exact Hne | congruence].
Qed.

(** X6: the current library is never [null].  When the library of the
    project has a name, the build starts with a current library that has
    a name under which a library is loaded; from such a state every
    resolved reference has a library field that is not empty (the name
    ['::extern'] is never needed), every file is processed under a
    library that is loaded under that field, again with a name, and every
    call of [requireFile] that ends comes back to such a state. *)
Theorem current_library_is_never_null (host : Host) (compiler : Compiler) :
  id (projectLibrary compiler) <> "" ->
  (forall st, housed compiler (started compiler st))
  /\ (forall reference st info,
         housed compiler st ->
         getRequiredFileInfo host compiler reference st = inr (Some info) ->
         truthy_name (project (requireInfo info)) = true
         /\ (exists lib, owner compiler info = Some lib
                         /\ project (requireInfo info) = Some (id lib))
         /\ housed compiler (opened host compiler info
                                    (announced host compiler info st)))
  /\ (forall fuel reference st r st',
         housed compiler st ->
         requireFile host compiler fuel reference st = Done r st' ->
         housed compiler st').
Proof.
  intros Hne. split; [|split].
  - intros st. exists (projectLibrary compiler). repeat split; [exact Hne|].
    apply loadedLibraries_found. now left.
  - intros reference st info. apply opened_housed.
  - intros fuel reference st r st' (lib & Hcur & Hlib) H.
    destruct (requireFile_kept host compiler fuel _ _ _ _ H) as (_ & _ & Hl & _).
    exists lib. split; [|exact Hlib].
    unfold getCurrentLibrary in *. now rewrite Hl.
Qed.

Lemma current_library_is_never_null_witness :
  housed (sample_compiler true no_variables)
         (started (sample_compiler true no_variables)
                  (initialState (sample_compiler true no_variables))).
Proof.
  exact (proj1 (current_library_is_never_null
                  diamond_host (sample_compiler true no_variables)
                  ltac:(discriminate))
               (initialState (sample_compiler true no_variables))).
Defined.

(** ** The failures of a build *)

Section Failures.

Variable host : Host.
Variable compiler : Compiler.

Lemma replaceAsync_raises (M : Type) (handler : M -> Run string) :
  (forall m st f, handler m st = Failed f -> raised_inside f = true) ->
  forall l st f, replaceAsync handler l st = Failed f -> raised_inside f = true.
Proof.
  intros Hh l. induction l as [|[c|m] l IH]; intros st f H;
    cbn [replaceAsync] in H; unfold bind, ret in H.
  - discriminate.
  - destruct (replaceAsync handler l st) as [y st1|g|] eqn:E; try discriminate.
    injection H as <-. exact (IH _ _ E).
  - destruct (handler m st) as [r st1|g|] eqn:E1; try discriminate.
    + destruct (replaceAsync handler l st1) as [y st2|g|] eqn:E2; try discriminate.
      injection H as <-. exact (IH _ _ E2).
    + injection H as <-. exact (Hh _ _ _ E1).
Qed.

Section Knot.

Variable requireFile_rec : string -> Run (option DULuaCompilerRequire).

Hypothesis rec_raises :
  forall reference st f, requireFile_rec reference st = Failed f -> raised_inside f = true.

Lemma rewrite_line_raises (cleanSource line : string) :
  forall st f,
    rewrite_line compiler requireFile_rec cleanSource line st = Failed f ->
    raised_inside f = true.
Proof.
  intros st f H. unfold rewrite_line, bind in H.
  destruct (replaceAsync (require_handler compiler requireFile_rec cleanSource) _ st)
    as [line1 st1|g|] eqn:E1; try discriminate.
  - destruct (replaceAsync undefined_behavior_handler _ st1)
      as [line2 st2|g|] eqn:E2; try discriminate.
    + destruct (expandCompilerFunctions compiler st2 line2); try discriminate.
      now injection H as <-.
    + injection H as <-.
      refine (replaceAsync_raises _ undefined_behavior_handler _ _ _ _ E2).
      intros d s0 g0 Hd. discriminate Hd.
  - injection H as <-.
    refine (replaceAsync_raises _ _ _ _ _ _ E1).
    intros m s0 g0 Hm. unfold require_handler, bind, ret in Hm.
    destruct (negb (require_survives cleanSource m)); [discriminate|].
    destruct (requireFile_rec (file m) s0) as [[entry|] s1|g1|] eqn:E; try discriminate.
    + destruct (negb (preload compiler)); discriminate.
    + injection Hm as <-. exact (rec_raises _ _ _ E).
Qed.

Lemma process_lines_raises (cleanSource : string) (lines : list string) :
  forall idx st f,
    process_lines compiler requireFile_rec cleanSource idx lines st = Failed f ->
    raised_inside f = true.
Proof.
  induction lines as [|line more IH]; intros idx st f H;
    cbn [process_lines] in H; unfold bind, ret in H.
  - discriminate.
  - unfold setLineOfCode in H.
    destruct (rewrite_line compiler requireFile_rec cleanSource _ _)
      as [rewritten st1|g|] eqn:E1; try discriminate.
    + destruct (negb (preload compiler) && is_bare_inline_require rewritten);
        [discriminate|].
      destruct (process_lines compiler requireFile_rec cleanSource (idx + 1) more st1)
        as [rest st2|g|] eqn:E2; try discriminate.
      injection H as <-. exact (IH _ _ _ E2).
    + injection H as <-. exact (rewrite_line_raises _ _ _ _ E1).
Qed.

Lemma processSourceCode_raises (source : string) :
  forall st f,
    processSourceCode host compiler requireFile_rec source st = Failed f ->
    raised_inside f = true.
Proof.
  intros st f H. unfold processSourceCode in H.
  destruct (luaparse host _) as [[line message]|].
  - now injection H as <-.
  - unfold bind, pushLineOfCode, popLineOfCode, ret in H.
    match type of H with
    | context [process_lines _ _ ?c ?i ?ls ?s] =>
        destruct (process_lines compiler requireFile_rec c i ls s)
          as [[ls'|] st1|g|] eqn:E; try discriminate
    end.
    injection H as <-. exact (process_lines_raises _ _ _ _ _ E).
Qed.

End Knot.

Lemma getRequiredFileInfo_raises (reference : string) (st : State) (f : Failure) :
  getRequiredFileInfo host compiler reference st = inl f -> raised_inside f = true.
Proof.
  unfold getRequiredFileInfo.
  destruct (if truthy_name (project (parseFileString reference)) then _ else _)
    as [lib|]; [|now intros [= <-]].
  destruct (if truthy_name (project (parseFileString reference))
            then Some (sourcePath lib) else getCurrentDirectory st) as [prefix|];
    [|now intros [= <-]].
  destruct (find (fs_isFile host) _) as [filepath|]; [|discriminate].
  destruct (filepath =? ""); discriminate.
Qed.

Lemma requireFile_raises (fuel : nat) :
  forall reference st f,
    requireFile host compiler fuel reference st = Failed f -> raised_inside f = true.
Proof.
  induction fuel as [|n IH]; intros reference st f H; [discriminate|].
  cbn [requireFile] in H. unfold requireFile_body in H.
  destruct (getRequiredFileInfo host compiler reference st) as [g|[info|]] eqn:E.
  - injection H as <-. exact (getRequiredFileInfo_raises _ _ _ E).
  - destruct (existsb (String.eqb (fullpath info)) (currentFiles st)).
    { now injection H as <-. }
    destruct (filter _ (requiredFiles (announced host compiler info st)));
      [|discriminate].
    destruct (processSourceCode host compiler (requireFile host compiler n) _ _)
      as [processed st2|g|] eqn:Hsrc; try discriminate.
    injection H as <-. exact (processSourceCode_raises _ IH _ _ _ Hsrc).
  - destruct (isRootFile st); [now injection H as <- | discriminate].
Qed.

(** In the root context [requireFile] never answers [null]. *)
Lemma requireFile_root (fuel : nat) (reference : string) (st st' : State) :
  isRootFile st = true ->
  requireFile host compiler fuel reference st <> Done None st'.
Proof.
  intros Hroot H. destruct fuel as [|n]; [discriminate|].
  cbn [requireFile] in H. unfold requireFile_body in H.
  destruct (getRequiredFileInfo host compiler reference st) as [g|[info|]];
    [discriminate| |].
  - destruct (existsb (String.eqb (fullpath info)) (currentFiles st)); [discriminate|].
    destruct (filter _ (requiredFiles (announced host compiler info st)));
      [|discriminate].
    destruct (processSourceCode host compiler (requireFile host compiler n) _ _);
      discriminate.
  - rewrite Hroot in H. discriminate.
Qed.

Lemma startBuild_raises (fuel : nat) (requireName : option string) (st : State) :
  isRootFile st = true ->
  startBuild host compiler fuel requireName st <> Failed PanicBuildFailed.
Proof.
  intros Hroot H. unfold startBuild, bind, fail in H.
  destruct (requireFile host compiler fuel _ (started compiler st))
    as [[entry|] st1|g|] eqn:E; try discriminate.
  - exact (requireFile_root fuel _ (started compiler st) st1 Hroot E).
  - injection H as ->. apply requireFile_raises in E. discriminate.
Qed.

End Failures.

(** X7: the panic [Build ... failed with no error!] of [startBuild] is
    out of reach.  A build, started by [compile] or by [compileRequire],
    never stops with it: in the root context [requireFile] either answers
    an entry or stops with an error of its own, and no failure below
    [startBuild] is that panic. *)
Theorem build_never_fails_with_no_error
        (host : Host) (compiler : Compiler) (fuel : nat) :
  compile host compiler fuel <> Failed PanicBuildFailed
  /\ (forall requireName,
         compileRequire host compiler fuel requireName <> Failed PanicBuildFailed)
  /\ (forall reference st st',
         currentFiles st = [] ->
         requireFile host compiler fuel reference st <> Done None st')
  /\ (forall reference st,
         requireFile host compiler fuel reference st <> Failed PanicBuildFailed).
Proof.
  split; [|split; [|split]].
  - apply startBuild_raises. reflexivity.
  - intros requireName. apply startBuild_raises. reflexivity.
  - intros reference st st' Hroot. apply requireFile_root.
    unfold isRootFile, getCurrentFile. now rewrite Hroot.
  - intros reference st H. apply requireFile_raises in H. discriminate.
Qed.

Lemma build_never_fails_with_no_error_witness :
  requireFile diamond_host (sample_compiler true no_variables) 1 "nothing"
              (initialState (sample_compiler true no_variables))
  <> Done None (initialState (sample_compiler true no_variables)).
Proof.
  exact (proj1 (proj2 (proj2 (build_never_fails_with_no_error
                                diamond_host (sample_compiler true no_variables) 1)))
               "nothing"
               (initialState (sample_compiler true no_variables))
               (initialState (sample_compiler true no_variables))
               eq_refl).
Defined.

(** X8: a reference that names a library which is not loaded stops the
    build, wherever it stands: [getRequiredFileInfo] panics before it
    looks at a file, in the root context and below it alike, whereas a
    file that is missing in a loaded library is tolerated below the root.
    The names that every object inherits are set apart: under them the
    map of the loaded libraries answers the inherited member. *)
Theorem unknown_library_is_fatal
        (host : Host) (compiler : Compiler) (n : nat) (reference p : string) (st : State) :
  project (parseFileString reference) = Some p ->
  p <> "" ->
  ~ In p Object_prototype_names ->
  loadedLibraries compiler p = None ->
  getRequiredFileInfo host compiler reference st = inl (PanicLibraryNotFound reference)
  /\ requireFile host compiler (S n) reference st
     = Failed (PanicLibraryNotFound reference)
  /\ (forall cleanSource m,
         file m = reference ->
         require_survives cleanSource m = true ->
         require_handler compiler (requireFile host compiler (S n)) cleanSource m st
         = Failed (PanicLibraryNotFound reference)).
Proof.
  intros Hp Hne _ Hlib.
  assert (E : getRequiredFileInfo host compiler reference st
              = inl (PanicLibraryNotFound reference)).
  { unfold getRequiredFileInfo. rewrite Hp. cbn [truthy_name].
    destruct (String.eqb_spec p "") as [|_]; [contradiction|].
    cbn [negb]. now rewrite Hlib. }
  split; [exact E|]. split.
  - exact (requireFile_fails _ _ _ _ _ _ E).
  - intros cleanSource m <- Hs. unfold require_handler, bind. rewrite Hs. cbn [negb].
    now rewrite (requireFile_fails _ _ _ _ _ _ E).
Qed.

Lemma unknown_library_is_fatal_witness :
  requireFile diamond_host (sample_compiler true no_variables) 1 "nolib:a" state_in_util
  = Failed (PanicLibraryNotFound "nolib:a").
Proof.
  exact (proj1 (proj2 (unknown_library_is_fatal
                         diamond_host (sample_compiler true no_variables) 0
                         "nolib:a" "nolib" state_in_util
                         eq_refl ltac:(discriminate)
                         ltac:(cbn; intuition discriminate)
                         eq_refl))).
Defined.

(** ** Escaping for a regular expression *)

(** X9: [escapeForRegex] gives a pattern without operators whose only
    match is the text it was given: read as a regular expression, every
    special code unit of the answer is protected by one backslash and
    stands for itself.  So two texts with one escaped form are equal, and
    a text without special code units is its own escaped form. *)
Theorem escapeForRegex_matches_its_text :
  (forall str, pattern_text (escapeForRegex str) = Some str)
  /\ (forall a b, escapeForRegex a = escapeForRegex b -> a = b)
  /\ (forall str, JS.all_chars (fun c => negb (is_regex_special c)) str = true ->
                  escapeForRegex str = str).
Proof.
  assert (Hread : forall str, pattern_text (escapeForRegex str) = Some str).
  { induction str as [|c s IH]; [reflexivity|].
    cbn [escapeForRegex]. destruct (is_regex_special c) eqn:Hc.
    - cbn [pattern_text]. rewrite Ascii.eqb_refl, Hc, IH. reflexivity.
    - cbn [pattern_text]. rewrite Hc.
      destruct (Ascii.eqb_spec c "\") as [->|_]; [discriminate Hc|].
      now rewrite IH. }
  split; [exact Hread|]. split.
  - intros a b H. apply (f_equal pattern_text) in H. rewrite !Hread in H.
    now injection H.
  - induction str as [|c s IH]; [reflexivity|].
    cbn [JS.all_chars escapeForRegex]. intros H.
    apply andb_true_iff in H as [Hc Hs]. apply negb_true_iff in Hc.
    now rewrite Hc, (IH Hs).
Qed.

Lemma escapeForRegex_matches_its_text_witness :
  escapeForRegex "return a" = "return a".
Proof.
  exact (proj2 (proj2 escapeForRegex_matches_its_text) "return a" eq_refl).
Defined.

(** ** The fields of a reference *)

Lemma split_char_head (d : ascii) (s : string) :
  exists piece more,
    JS.split s (String d "") = piece :: more
    /\ JS.has_char d piece = false
    /\ ((more = [] /\ s = piece)
        \/ (exists rest, more = JS.split rest (String d "")
                         /\ s = piece ++ String d rest)).
Proof.
  induction s as [|c s (piece & more & E & Hp & Hrest)].
  - exists "", []. repeat split. now left.
  - rewrite split_char_cons. destruct (Ascii.eqb_spec d c) as [->|Hdc].
    + exists "", (JS.split s (String c "")). repeat split.
      right. now exists s.
    + rewrite E. exists (String c piece), more. repeat split.
      * rewrite has_char_cons, Hp.
        destruct (Ascii.eqb_spec d c); [contradiction | reflexivity].
      * destruct Hrest as [[-> ->]|(rest & -> & ->)]; [now left|].
        right. now exists rest.
Qed.

(** X10: the fields [parseFileString] answers, for every reference.
    Neither field holds a colon.  A reference without a colon is the file
    name, and there is no library field.  Otherwise the reference is the
    library field, a colon, the file name, and a rest that is empty or
    begins with a colon and is dropped.  The fields are taken from the
    reference as it is written: a backslash stays a backslash. *)
Theorem parseFileString_fields (reference : string) :
  JS.has_char ":" (filename (parseFileString reference)) = false
  /\ match project (parseFileString reference) with
     | None =>
         JS.has_char ":" reference = false
         /\ filename (parseFileString reference) = reference
     | Some p =>
         JS.has_char ":" p = false
         /\ exists rest,
             reference = p ++ ":" ++ filename (parseFileString reference) ++ rest
             /\ (rest = "" \/ JS.startsWith rest ":" = true)
     end.
Proof.
  unfold parseFileString.
  destruct (split_char_head ":" reference) as (p & more & E & Hp & Hrest).
  rewrite E. destruct Hrest as [[-> ->]|(rest & -> & ->)].
  - cbn [project filename]. now repeat split.
  - destruct (split_char_head ":" rest) as (f & more' & E' & Hf & Hrest').
    rewrite E'. cbn [project filename]. split; [exact Hf|]. split; [exact Hp|].
    destruct Hrest' as [[-> ->]|(rest' & -> & ->)].
    + exists "". rewrite append_empty_r. split; [reflexivity | now left].
    + exists (String ":" rest'). split; [reflexivity | now right].
Qed.

(** X11: a reference with an empty library part resolves as the
    reference without it.  For a file name without a colon and a state
    with a current library, [getRequiredFileInfo] answers for [:name]
    what it answers for [name]: the empty library field counts as no
    library, the file is searched from the current directory and named
    after the current library. *)
Theorem empty_library_part_is_no_library
        (host : Host) (compiler : Compiler) (name : string) (st : State) :
  JS.has_char ":" name = false ->
  getCurrentLibrary st <> None ->
  getRequiredFileInfo host compiler (":" ++ name) st
  = getRequiredFileInfo host compiler name st.
Proof.
  intros Hname Hcur. unfold getRequiredFileInfo, parseFileString.
  change (":" ++ name) with ("" ++ String ":" name).
  rewrite (split_char_first ":" "" name eq_refl), !(split_char_absent _ _ Hname).
  cbn [project filename truthy_name String.eqb negb].
  destruct (getCurrentDirectory st) as [prefix|]; [|reflexivity].
  destruct (find (fs_isFile host) _) as [filepath|]; [|reflexivity].
  destruct (filepath =? ""); [reflexivity|].
  destruct (getCurrentLibrary st) as [cur|]; [reflexivity | contradiction].
Qed.

Lemma empty_library_part_is_no_library_witness :
  getRequiredFileInfo diamond_host (sample_compiler true no_variables) ":a" state_in_util
  = inr (Some (mkFileInfo (mkFileName (Some "util") "a.lua") "/p/libs/util/a.lua")).
Proof.
  exact (empty_library_part_is_no_library
           diamond_host (sample_compiler true no_variables) "a" state_in_util
           eq_refl ltac:(discriminate)).
Defined.

(** ** The map of the loaded libraries *)

Lemma find_skip (A : Type) (f : A -> bool) (l1 l2 : list A) :
  (forall y, In y l1 -> f y = false) -> find f (l1 ++ l2) = find f l2.
Proof.
  induction l1 as [|y l1 IH]; intros H; [reflexivity|].
  cbn [app find]. rewrite (H y (or_introl eq_refl)).
  apply IH. intros z Hz. apply H. now right.
Qed.

Lemma find_last (A : Type) (f : A -> bool) (before after : list A) (x : A) :
  f x = true ->
  (forall y, In y after -> f y = false) ->
  find f (rev (before ++ x :: after)) = Some x.
Proof.
  intros Hx Hafter. rewrite rev_app_distr. cbn [rev]. rewrite <- app_assoc.
  rewrite find_skip.
  - cbn. now rewrite Hx.
  - intros y Hy. apply Hafter. now apply in_rev.
Qed.



(** ** The search path of the environment *)

Lemma split_char_append (d : ascii) (a b : string) :
  JS.split (a ++ String d b) (String d "")
  = (JS.split a (String d "") ++ JS.split b (String d ""))%list.
Proof.
  induction a as [|c a IH]; cbn [append].
  - now rewrite split_char_cons, Ascii.eqb_refl.
  - rewrite !split_char_cons, IH.
    destruct (Ascii.eqb d c); [reflexivity|].
    pose proof (split_char_nonempty d a) as Hne.
    destruct (JS.split a (String d "")) as [|p more]; [contradiction | reflexivity].
Qed.

(** X13: the entries of [LUA_PATH].  Without the variable, or with an
    empty one, there is no entry.  No entry is empty and none holds a
    semicolon; a value that is not empty and holds no semicolon is the
    one entry; and the entries of two values joined by a semicolon are
    the entries of the first followed by the entries of the second, so
    that the order of the value is the order of the search. *)
Theorem loadLuaPath_entries :
  loadLuaPath None = []
  /\ loadLuaPath (Some "") = []
  /\ (forall v entry, In entry (loadLuaPath (Some v)) ->
                      entry <> "" /\ JS.has_char ";" entry = false)
  /\ (forall entry, entry <> "" -> JS.has_char ";" entry = false ->
                    loadLuaPath (Some entry) = [entry])
  /\ (forall a b, loadLuaPath (Some (a ++ ";" ++ b))
                  = (loadLuaPath (Some a) ++ loadLuaPath (Some b))%list).
Proof.
  split; [reflexivity|]. split; [reflexivity|]. split; [|split].
  - intros v entry H. unfold loadLuaPath in H. apply filter_In in H as [Hin Hlen].
    split.
    + intros ->. discriminate Hlen.
    + exact (split_char_pieces _ _ _ Hin).
  - intros entry Hne Hsemi. unfold loadLuaPath.
    rewrite (split_char_absent _ _ Hsemi). cbn [filter].
    destruct entry; [contradiction | reflexivity].
  - intros a b. unfold loadLuaPath. cbn [append].
    now rewrite split_char_append, filter_app.
Qed.

Lemma loadLuaPath_entries_witness :
  loadLuaPath (Some "/usr/share/lua/?.lua") = ["/usr/share/lua/?.lua"].
Proof.
  exact (proj1 (proj2 (proj2 (proj2 loadLuaPath_entries)))
               "/usr/share/lua/?.lua" ltac:(discriminate) eq_refl).
Defined.

(** ** Splitting at a text *)

Lemma split_from_skip (sep x rest : string) :
  JS.split_from sep (String.length x) (x ++ rest) = JS.split_from sep 0 rest.
Proof.
  induction x as [|c x IH]; [reflexivity|].
  cbn [String.length append JS.split_from]. exact IH.
Qed.

(** The pieces of a text: the text in front of the first separator,
    then the pieces of the text behind it. *)
Lemma split_break (sep s : string) :
  sep <> "" ->
  JS.split s sep
  = match JS.break_on sep s with
    | Some (b, a) => b :: JS.split a sep
    | None => [s]
    end.
Proof.
  intros Hsep. destruct sep as [|d sep']; [contradiction|].
  induction s as [|c s IH]; [reflexivity|].
  unfold JS.split in *. cbn [JS.split_from JS.break_on]. unfold JS.startsWith.
  destruct (JS.strip_prefix (String d sep') (String c s)) as [r|] eqn:E.
  - pose proof (strip_prefix_sound _ _ _ E) as Hs. cbn [append] in Hs.
    injection Hs as _ ->.
    replace (String.length (String d sep') - 1) with (String.length sep')
      by (cbn [String.length]; lia).
    now rewrite split_from_skip.
  - rewrite IH. destruct (JS.break_on (String d sep') s) as [[b a]|]; reflexivity.
Qed.

(** ** The bodies of a directive block *)

(** X14: the two bodies of a block with [---@else].  The first body is
    the text in front of the first [---@else]; the second body is the
    text between the first [---@else] and the second one, or the end of
    the block when there is no second one.  What follows a second
    [---@else] belongs to neither body: it is dropped whatever the test
    says. *)
Theorem directive_blocks_else (first others : string) :
  JS.break_on "---@else" (first ++ "---@else") = Some (first, "") ->
  directive_blocks (first ++ "---@else" ++ others)
  = (first,
     match JS.break_on "---@else" others with
     | Some (second, dropped) => second
     | None => others
     end).
Proof.
  intros Hfirst. unfold directive_blocks.
  rewrite includes_middle.
  pose proof (break_on_append _ _ _ _ others Hfirst) as Hb.
  rewrite append_assoc in Hb. cbn [append] in Hb.
  rewrite (split_break "---@else" _ ltac:(discriminate)).
  cbn [append]. rewrite Hb.
  rewrite (split_break "---@else" others ltac:(discriminate)).
  now destruct (JS.break_on "---@else" others) as [[second dropped]|].
Qed.

Lemma directive_blocks_else_witness :
  directive_blocks ("one" ++ "---@else" ++ "two---@elsethree") = ("one", "two").
Proof.
  exact (directive_blocks_else "one" "two---@elsethree" eq_refl).
Defined.

(** X15: the literal of a directive and a variable that is a string.
    The literal is the rest of the line behind the name of the variable,
    with the blank that separates the two.  When [JSON.parse] reads it as
    the string of the variable, which takes the double quotes of JSON, the
    block is replaced by its first body.  When [JSON.parse] refuses it, it
    is compared as it stands, and a variable whose string starts with a
    letter, a digit or an underscore never equals it: the block is
    replaced by its second body, also when the line reads [---@if NAME
    text] and the variable is [text]. *)
Theorem string_variable_needs_a_quoted_literal
        (StringToNumber : string -> JSNumber)
        (JSON_parse : string -> option JSValue)
        (variables : CompilerVariableSet)
        (before s after : string) (d : DirectiveMatch) (text : string) :
  match_directive before s = Some (d, after) ->
  variables (compareVariableName d) = JString text ->
  (JSON_parse (compareValue d) = Some (JString text) ->
   compareValue d <> "" ->
   directive_action StringToNumber JSON_parse variables d
   = JS.trim (fst (directive_blocks (innerCode d))))
  /\ (JSON_parse (compareValue d) = None ->
      compareValue d <> "" ->
      JS.head_in JS.is_word text = true ->
      directive_action StringToNumber JSON_parse variables d
      = JS.trim (snd (directive_blocks (innerCode d)))).
Proof.
  intros Hm Hvar.
  destruct (match_directive_inv _ _ _ _ Hm) as (_ & _ & _ & Hhead & _).
  unfold directive_action, directive_test, directive_literal. rewrite Hvar.
  destruct (directive_blocks (innerCode d)) as [bt bf]. cbn [fst snd].
  split.
  - intros Hparse Hne. rewrite Hparse.
    destruct (compareValue d) as [|c v]; [contradiction|].
    cbn [String.length Nat.eqb loose_eq loose_eq_string].
    now rewrite String.eqb_refl.
  - intros Hparse Hne Hword. rewrite Hparse.
    destruct (compareValue d) as [|c v]; [contradiction|].
    cbn [String.length Nat.eqb loose_eq loose_eq_string].
    destruct (String.eqb_spec (String c v) text) as [<-|_]; [|reflexivity].
    cbn [JS.head_in] in Hhead, Hword. congruence.
Qed.

Lemma string_variable_needs_a_quoted_literal_witness :
  directive_action StringToNumber_integers JSON_parse_literals sample_variables
                   (mkDirective "FLAG" " yes" ("first" ++ LF ++ "---@else" ++ LF ++ "second"))
  = "second"
  /\ directive_action StringToNumber_integers JSON_parse_literals sample_variables
                      (mkDirective "FLAG" (" " ++ quoted "yes")
                                   ("first" ++ LF ++ "---@else" ++ LF ++ "second"))
     = "first".
Proof.
  split.
  - exact (proj2 (string_variable_needs_a_quoted_literal
                    StringToNumber_integers JSON_parse_literals sample_variables
                    ""
                    (directive_block "FLAG" " yes"
                                     ("first" ++ LF ++ "---@else" ++ LF ++ "second"))
                    ""
                    (mkDirective "FLAG" " yes"
                                 ("first" ++ LF ++ "---@else" ++ LF ++ "second"))
                    "yes" eq_refl eq_refl)
                 eq_refl ltac:(discriminate) eq_refl).
  - exact (proj1 (string_variable_needs_a_quoted_literal
                    StringToNumber_integers JSON_parse_literals sample_variables
                    ""
                    (directive_block "FLAG" (" " ++ quoted "yes")
                                     ("first" ++ LF ++ "---@else" ++ LF ++ "second"))
                    ""
                    (mkDirective "FLAG" (" " ++ quoted "yes")
                                 ("first" ++ LF ++ "---@else" ++ LF ++ "second"))
                    "yes" eq_refl eq_refl)
                 eq_refl ltac:(discriminate)).
Defined.

(** ** The survival test of a require *)

Lemma has_char_part (d : ascii) (s b n a : string) :
  s = b ++ n ++ a -> JS.has_char d n = true -> JS.has_char d s = true.
Proof.
  intros -> H. rewrite !has_char_append, H. now rewrite orb_true_r.
Qed.

Lemma break_on_absent (d : ascii) (n s : string) :
  JS.has_char d n = true -> JS.has_char d s = false -> JS.break_on n s = None.
Proof.
  intros Hn Hs. destruct (JS.break_on n s) as [[b a]|] eqn:E; [|reflexivity].
  rewrite (has_char_part d s b n a (break_on_sound _ _ _ _ E) Hn) in Hs. discriminate.
Qed.

Lemma escapeForRegex_protects (c : ascii) (str : string) :
  is_regex_special c = true ->
  JS.has_char c str = true ->
  JS.has_char "\" (escapeForRegex str) = true.
Proof.
  intros Hc. induction str as [|x s IH]; [discriminate|].
  rewrite has_char_cons. cbn [escapeForRegex].
  destruct (Ascii.eqb_spec c x) as [<-|_].
  - intros _. rewrite Hc. reflexivity.
  - cbn [orb]. intros H. destruct (is_regex_special x); [reflexivity|].
    rewrite has_char_cons, (IH H). apply orb_true_r.
Qed.

(** The text of a match of the require expression holds a parenthesis. *)
Lemma match_require_paren (before s : string) (m : RequireMatch) (rest : string) :
  match_require before s = Some (m, rest) -> JS.has_char "(" (fullMatch m) = true.
Proof.
  unfold match_require.
  destruct (JS.startsWith before "--"); [discriminate|].
  destruct (JS.strip_prefix "require" s) as [r1|]; [|discriminate].
  destruct (JS.span JS.is_space r1) as [ws1 r2].
  destruct (JS.strip_prefix "(" r2) as [r3|]; [|discriminate].
  destruct (JS.span JS.is_space r3) as [ws2 r4].
  destruct r4 as [|q1 r5]; [discriminate|].
  destruct (is_quote q1); [|discriminate].
  destruct (JS.span (fun c => negb (is_quote c)) r5) as [name r6].
  destruct (name =? ""); [discriminate|].
  destruct r6 as [|q2 r7]; [discriminate|].
  destruct (is_quote q2); [|discriminate].
  destruct (JS.span JS.is_space r7) as [ws3 r8].
  destruct (JS.strip_prefix ")" r8) as [rest'|]; [|discriminate].
  intros H. injection H as <- _. cbn [fullMatch].
  apply (has_char_part "(" _ ("require" ++ ws1) "("
                       (ws2 ++ String q1 name ++ String q2 ws3 ++ ")"));
    [|reflexivity].
  now rewrite !append_assoc.
Qed.

Lemma match_long_bracket_needs (before s : string) :
  JS.includes s "[[" = false -> match_long_bracket before s = None.
Proof.
  intros H. destruct s as [|c s]; [reflexivity|].
  unfold match_long_bracket. now rewrite (includes_head _ _ _ H).
Qed.

Lemma match_line_comment_needs (before s : string) :
  JS.includes s "--" = false -> match_line_comment before s = None.
Proof.
  intros H. destruct s as [|c s]; [reflexivity|].
  unfold match_line_comment. now rewrite (includes_head _ _ _ H).
Qed.

Lemma quoted_body_holds (q : ascii) (lit s rest : string) :
  quoted_body q lit s = Some rest -> JS.includes s lit = true.
Proof.
  induction s as [|c s IH]; cbn [quoted_body].
  - destruct (JS.strip_prefix lit "") as [r|] eqn:E; [|discriminate].
    intros _. rewrite (strip_prefix_sound _ _ _ E).
    exact (includes_middle lit "" r).
  - destruct (JS.strip_prefix lit (String c s)) as [r|] eqn:E.
    + intros _. rewrite (strip_prefix_sound _ _ _ E).
      exact (includes_middle lit "" r).
    + cbn. destruct (JS.is_line_terminator c); [discriminate|].
      intros H. specialize (IH H).
      destruct (includes_inv _ _ IH) as (b & a & ->).
      exact (includes_middle lit (String c b) a).
Qed.

Lemma match_quoted_needs (q : ascii) (lit before s : string) :
  JS.includes s lit = false -> match_quoted q lit before s = None.
Proof.
  intros H. unfold match_quoted. destruct s as [|c r]; [reflexivity|].
  destruct (Ascii.eqb c q); [|reflexivity].
  destruct (quoted_body q lit r) as [rest|] eqn:E; [|reflexivity].
  apply quoted_body_holds in E.
  destruct (includes_inv _ _ E) as (b & a & ->).
  change (String c (b ++ lit ++ a)) with (String c b ++ lit ++ a) in H.
  rewrite includes_middle in H. discriminate.
Qed.

Lemma includes_longer (s n x a : string) :
  JS.includes s n = false -> JS.includes s (x ++ n ++ a) = false.
Proof.
  intros H. destruct (JS.includes s (x ++ n ++ a)) eqn:E; [|reflexivity].
  destruct (includes_inv _ _ E) as (b & a' & ->).
  rewrite !append_assoc, <- (append_assoc b x), includes_middle in H. discriminate.
Qed.

(** ** The line ends of a source *)

Lemma split_char_length (d c : ascii) (s : string) :
  List.length (JS.split (String c s) (String d ""))
  = if Ascii.eqb d c then S (List.length (JS.split s (String d "")))
    else List.length (JS.split s (String d "")).
Proof.
  rewrite split_char_cons. destruct (Ascii.eqb d c); [reflexivity|].
  pose proof (split_char_nonempty d s) as Hne.
  destruct (JS.split s (String d "")); [contradiction | reflexivity].
Qed.

(** A source in which no line feed follows a carriage return is left
    as it is. *)
Lemma normalize_newlines_same (s : string) :
  JS.includes s (String (ascii_of_nat 13) LF) = false -> normalize_newlines s = s.
Proof.
  induction s as [|c s IH]; [reflexivity|].
  intros H. cbn [normalize_newlines].
  pose proof (includes_head _ _ _ H) as Hhead.
  rewrite (IH (includes_tail _ _ _ H)).
  destruct (Ascii.eqb c (ascii_of_nat 13) && JS.startsWith s LF) eqn:E; [|reflexivity].
  exfalso. apply andb_true_iff in E as [Hc Hs]. apply Ascii.eqb_eq in Hc. subst c.
  unfold JS.startsWith in Hs.
  destruct (JS.strip_prefix LF s) as [r|] eqn:Er; [|discriminate].
  rewrite (strip_prefix_sound _ _ _ Er) in Hhead.
  change (String (ascii_of_nat 13) (LF ++ r))
    with (String (ascii_of_nat 13) LF ++ r) in Hhead.
  rewrite strip_prefix_complete in Hhead. discriminate.
Qed.

(** X16: the replacement of [\r\n] by [\n] keeps the lines apart as they
    were.  A source in which no line feed follows a carriage return is
    left as it is, with the carriage returns it may hold; and every
    source keeps its number of lines, so that the line numbers of the
    normalised source are those of the file. *)
Theorem normalize_newlines_keeps_the_lines (s : string) :
  (JS.includes s (String (ascii_of_nat 13) LF) = false -> normalize_newlines s = s)
  /\ List.length (JS.split (normalize_newlines s) LF) = List.length (JS.split s LF).
Proof.
  split; [apply normalize_newlines_same|].
  induction s as [|c s IH]; [reflexivity|].
  cbn [normalize_newlines].
  destruct (Ascii.eqb c (ascii_of_nat 13) && JS.startsWith s LF) eqn:E; unfold LF in *.
  - apply andb_true_iff in E as [Hc _]. apply Ascii.eqb_eq in Hc. subst c.
    rewrite IH. rewrite split_char_length. reflexivity.
  - rewrite !split_char_length, IH. reflexivity.
Qed.

Lemma normalize_newlines_keeps_the_lines_witness :
  normalize_newlines ("a" ++ String (ascii_of_nat 13) "b" ++ LF ++ "c")
  = "a" ++ String (ascii_of_nat 13) "b" ++ LF ++ "c".
Proof.
  exact (proj1 (normalize_newlines_keeps_the_lines
                  ("a" ++ String (ascii_of_nat 13) "b" ++ LF ++ "c"))
               eq_refl).
Defined.

(** ** The search of a file *)

Lemma find_first (A : Type) (f : A -> bool) (l : list A) (x : A) :
  find f l = Some x ->
  exists before after,
    l = (before ++ x :: after)%list
    /\ (forall y, In y before -> f y = false)
    /\ f x = true.
Proof.
  induction l as [|y l IH]; [discriminate|].
  cbn [find]. destruct (f y) eqn:Hy.
  - intros H. injection H as ->. exists [], l. repeat split; [intros z []|exact Hy].
  - intros H. destruct (IH H) as (before & after & -> & Hb & Hx).
    exists (y :: before), after. repeat split; [|exact Hx].
    intros z [<-|Hz]; [exact Hy | now apply Hb].
Qed.

Lemma get_substitution_plain (matched before after template : string) :
  JS.has_char "$" template = false ->
  JS.get_substitution matched before after template = template.
Proof.
  induction template as [|c t IH]; [reflexivity|].
  rewrite has_char_cons. intros H. apply orb_false_iff in H as [Hc Ht].
  cbn [JS.get_substitution]. rewrite Ascii.eqb_sym, Hc. now rewrite (IH Ht).
Qed.

(** X17: the search of [getRequiredFileInfo].  The candidates are the
    template of the library the reference names, or of the current
    directory, and then the templates of [LUA_PATH], each with its first
    [?] only replaced by the file name (as it is written, when it holds no
    [$]); a template without [?] is its own candidate.  The answer is the
    first candidate that is a file, resolved to an absolute path: the
    candidates in front of it are no files, and when a file is answered
    for no reference, no candidate is a file, except that a candidate
    that is the empty text is taken for no file. *)
Theorem getRequiredFileInfo_answers_the_first_file
        (host : Host) (compiler : Compiler) (reference : string) (st : State) :
  match possibleFilePaths host compiler reference st with
  | None => exists f, getRequiredFileInfo host compiler reference st = inl f
  | Some candidates =>
      match getRequiredFileInfo host compiler reference st with
      | inr (Some info) =>
          exists before filepath after,
            candidates = (before ++ filepath :: after)%list
            /\ (forall c, In c before -> fs_isFile host c = false)
            /\ fs_isFile host filepath = true
            /\ fullpath info = path_resolve host filepath
      | inr None =>
          (forall c, In c candidates -> fs_isFile host c = false)
          \/ fs_isFile host "" = true
      | inl _ => False
      end
  end
  /\ (forall name template,
         JS.has_char "$" name = false ->
         JS.replace_first "?" name template
         = match JS.break_on "?" template with
           | Some (front, back) => front ++ name ++ back
           | None => template
           end)
  /\ (forall name template,
         JS.has_char "?" template = false ->
         JS.replace_first "?" name template = template).
Proof.
  split; [|split].
  - unfold possibleFilePaths, getRequiredFileInfo.
    destruct (truthy_name (project (parseFileString reference))).
    + destruct (project (parseFileString reference)) as [p|]; [|now eexists].
      destruct (loadedLibraries compiler p) as [lib|]; [|now eexists].
      cbn [option_map].
      destruct (find (fs_isFile host) _) as [filepath|] eqn:E.
      * destruct (find_first _ _ _ _ E) as (before & after & Hl & Hb & Hx).
        destruct (String.eqb_spec filepath "") as [->|_]; [now right|].
        now exists before, filepath, after.
      * left. intros c Hc. exact (find_none _ _ E c Hc).
    + destruct (getCurrentDirectory st) as [prefix|]; [|now eexists].
      cbn [option_map].
      destruct (find (fs_isFile host) _) as [filepath|] eqn:E.
      * destruct (find_first _ _ _ _ E) as (before & after & Hl & Hb & Hx).
        destruct (String.eqb_spec filepath "") as [->|_]; [now right|].
        now exists before, filepath, after.
      * left. intros c Hc. exact (find_none _ _ E c Hc).
  - intros name template Hname. unfold JS.replace_first.
    destruct (JS.break_on "?" template) as [[front back]|]; [|reflexivity].
    now rewrite (get_substitution_plain _ _ _ _ Hname).
  - intros name template Htemplate. unfold JS.replace_first.
    unfold JS.has_char, JS.includes in Htemplate.
    now destruct (JS.break_on "?" template) as [[front back]|].
Qed.

Lemma getRequiredFileInfo_answers_the_first_file_witness :
  JS.replace_first "?" "a" "/p/libs/util/?.lua" = "/p/libs/util/a.lua"
  /\ JS.replace_first "?" "a" "/usr/share/lua/init.lua" = "/usr/share/lua/init.lua".
Proof.
  pose proof (getRequiredFileInfo_answers_the_first_file
                diamond_host (sample_compiler true no_variables) "util:a" state_in_main)
    as (_ & Hfirst & Hnone).
  split.
  - exact (Hfirst "a" "/p/libs/util/?.lua" eq_refl).
  - exact (Hnone "a" "/usr/share/lua/init.lua" eq_refl).
Defined.

(** A file name with a [$] is read as a template of the replacement: the
    reference [a$&b] is searched as [a?b.lua]. *)
Example getRequiredFileInfo_dollar :
  possibleFilePaths diamond_host (sample_compiler true no_variables) "util:a$&b"
                    state_in_main
  = Some ["/p/libs/util/a?b.lua"].
Proof. vm_compute. reflexivity. Qed.

(** ** The main file and the preloads *)



(** ** The line of an inlined require *)

Lemma trim_start_blanks (blanks rest : string) :
  JS.all_chars JS.is_space blanks = true ->
  JS.trim_start (blanks ++ rest) = JS.trim_start rest.
Proof.
  induction blanks as [|c b IH]; [reflexivity|].
  cbn [JS.all_chars append JS.trim_start]. intros H.
  apply andb_true_iff in H as [Hc Hb]. now rewrite Hc, (IH Hb).
Qed.

Lemma inline_tail_eq (s : string) :
  inline_tail s
  = (match JS.strip_prefix "']" s with
     | Some r => JS.all_chars JS.is_space r
     | None => false
     end
     || match s with
        | "" => false
        | String c s' => if JS.is_line_terminator c then false else inline_tail s'
        end).
Proof. destruct s; reflexivity. Qed.

Lemma inline_tail_closed (name blanks : string) :
  JS.all_chars (fun c => negb (JS.is_line_terminator c)) name = true ->
  JS.all_chars JS.is_space blanks = true ->
  inline_tail (name ++ "']" ++ blanks) = true.
Proof.
  intros Hname Hblanks. induction name as [|c n IH].
  - rewrite inline_tail_eq. change ("" ++ "']" ++ blanks) with ("']" ++ blanks).
    now rewrite strip_prefix_complete, Hblanks.
  - cbn [JS.all_chars] in Hname. apply andb_true_iff in Hname as [Hc Hn].
    apply negb_true_iff in Hc.
    rewrite inline_tail_eq.
    change (String c n ++ "']" ++ blanks) with (String c (n ++ "']" ++ blanks)).
    cbv beta iota. rewrite Hc, (IH Hn). apply orb_true_r.
Qed.

(** X19: with the preloads disabled, a line that is left with an
    inlined require and blanks around it ends the loop over the lines.
    The text the handler puts for a resolved require, [_REQ['name']], has
    that form with any blanks in front of it and behind it; and when the
    rewriting of a line gives a text of that form, the loop answers the
    [return ''] of the source whatever the lines in front of that line
    were rewritten into and whatever lines follow it: the lines behind it
    are not looked at. *)
Theorem bare_inline_require_ends_the_loop
        (compiler : Compiler)
        (requireFile_rec : string -> Run (option DULuaCompilerRequire))
        (cleanSource : string) :
  (forall blanks name blanks',
      JS.all_chars JS.is_space blanks = true ->
      JS.all_chars (fun c => negb (JS.is_line_terminator c)) name = true ->
      JS.all_chars JS.is_space blanks' = true ->
      is_bare_inline_require (blanks ++ globalInlineRequire ++ "['" ++ name ++ "']" ++ blanks')
      = true)
  /\ (preload compiler = false ->
      forall before line behind idx st rewritten_before st1 rewritten st2,
        process_lines compiler requireFile_rec cleanSource idx before st
        = Done (Some rewritten_before) st1 ->
        rewrite_line compiler requireFile_rec cleanSource
                     (if codeHasExportStatement compiler line
                      then encodeExportStatement compiler line else line)
                     (mkState (sourceDirectories st1) (requiredFiles st1) (currentFiles st1)
                              (currentLibraries st1)
                              ((idx + List.length before + 1) :: tl (currentLineOfCode st1))
                              (trace st1))
        = Done rewritten st2 ->
        is_bare_inline_require rewritten = true ->
        process_lines compiler requireFile_rec cleanSource idx (before ++ line :: behind)%list st
        = Done None st2).
Proof.
  split.
  - intros blanks name blanks' Hb Hn Hb'. unfold is_bare_inline_require.
    rewrite (trim_start_blanks _ _ Hb). unfold globalInlineRequire.
    cbn [append JS.trim_start JS.is_space nat_of_ascii]. cbn.
    change (inline_tail (name ++ "']" ++ blanks') = true).
    now apply inline_tail_closed.
  - intros Hp before. induction before as [|l ls IH];
      intros line behind idx st out st1 rewritten st2 Hdone Hline Hbare.
    + cbn [process_lines] in Hdone. injection Hdone as _ <-.
      cbn [app process_lines List.length] in *. unfold bind, setLineOfCode.
      rewrite Nat.add_0_r in Hline. rewrite Hline, Hp, Hbare. reflexivity.
    + cbn [app process_lines] in *. unfold bind, setLineOfCode in *.
      destruct (rewrite_line compiler requireFile_rec cleanSource _ _)
        as [r0 s0| |]; try discriminate.
      destruct (negb (preload compiler) && is_bare_inline_require r0); [discriminate|].
      destruct (process_lines compiler requireFile_rec cleanSource (idx + 1) ls s0)
        as [[rest|] s1| |] eqn:E; try discriminate.
      injection Hdone as _ <-.
      rewrite (IH line behind (idx + 1) s0 rest s1 rewritten st2 E); [reflexivity| |exact Hbare].
      cbn [List.length] in Hline.
      now replace (idx + 1 + List.length ls + 1) with (idx + S (List.length ls) + 1) by lia.
Qed.

Lemma bare_inline_require_ends_the_loop_witness :
  let host := posix_host "/p" inline_files in
  let compiler := sample_compiler false no_variables in
  let source := "local x = 1" ++ LF ++ "require(" ++ quoted "helper" ++ ")" ++ LF
                ++ "return x" in
  is_bare_inline_require ("  " ++ globalInlineRequire ++ "['" ++ "proj:helper.lua" ++ "']" ++ " ")
  = true
  /\ process_lines compiler (requireFile host compiler 1) source 0
                   ["local x = 1"; "require(" ++ quoted "helper" ++ ")"; "return x"]
                   state_in_main
     = Done None
            (mkState ["/p/src"; "/p/src"] [mkRequire "proj:helper.lua" "y = 2"]
                     ["/p/src/main.lua"]
                     [Some (mkLibrary "proj" "/p/src"); Some (mkLibrary "proj" "/p/src")]
                     [1]
                     [ReadFile "/p/src/helper.lua"; StatusCompiling "/p/src/helper.lua"]).
Proof.
  intros host compiler source.
  pose proof (bare_inline_require_ends_the_loop
                compiler (requireFile host compiler 1) source) as [Hform Hloop].
  split.
  - exact (Hform "  " "proj:helper.lua" " " eq_refl eq_refl eq_refl).
  - exact (Hloop eq_refl ["local x = 1"] ("require(" ++ quoted "helper" ++ ")") ["return x"]
                 0 state_in_main ["local x = 1"] state_in_main
                 "_REQ['proj:helper.lua']" _ eq_refl eq_refl eq_refl).
Defined.

(** ** The survival test of a require and the line comments *)

Lemma includes_cons (n : string) (c : ascii) (t : string) :
  JS.includes (String c t) n = JS.startsWith (String c t) n || JS.includes t n.
Proof.
  unfold JS.includes, JS.startsWith. cbn [JS.break_on].
  destruct (JS.strip_prefix n (String c t)); [reflexivity|].
  now destruct (JS.break_on n t) as [[b a]|].
Qed.

Lemma match_line_comment_blind (before before' s : string) :
  match_line_comment before s = match_line_comment before' s.
Proof. reflexivity. Qed.

(** The source without its line comments, one code unit or one comment
    at a time. *)
Lemma erase_comment_keep (c : ascii) (s : string) :
  JS.strip_prefix "--" (String c s) = None ->
  erase match_line_comment (String c s) = String c (erase match_line_comment s).
Proof.
  intros H. unfold erase, replace_all. cbn [segments].
  unfold match_line_comment at 1. rewrite H. cbn [render]. f_equal. f_equal.
  apply (segments_blind _ match_line_comment match_line_comment_blind).
Qed.

Lemma erase_comment_skip (s r : string) :
  JS.strip_prefix "--" s = Some r ->
  erase match_line_comment s
  = erase match_line_comment
          (snd (JS.span (fun c => negb (JS.is_line_terminator c)) r)).
Proof.
  intros H. unfold erase, replace_all.
  destruct (JS.span (fun c => negb (JS.is_line_terminator c)) r) as [comment rest] eqn:E.
  destruct (span_sound _ _ _ _ E) as [Hr _].
  pose proof (strip_prefix_sound _ _ _ H) as Hs. rewrite Hr, <- append_assoc in Hs.
  cbn [snd]. rewrite Hs.
  rewrite (segments_hit _ match_line_comment match_line_comment_blind
                        ("--" ++ comment) rest "" tt).
  - reflexivity.
  - discriminate.
  - unfold match_line_comment. rewrite append_assoc, strip_prefix_complete.
    rewrite <- Hr, E. reflexivity.
Qed.

Lemma before_comment_keep (c : ascii) (line : string) :
  JS.strip_prefix "--" (String c line) = None ->
  before_comment (String c line) = String c (before_comment line).
Proof.
  intros H. unfold before_comment. cbn [JS.break_on]. rewrite H.
  now destruct (JS.break_on "--" line) as [[b a]|].
Qed.

Lemma before_comment_skip (line r : string) :
  JS.strip_prefix "--" line = Some r -> before_comment line = "".
Proof.
  intros H. unfold before_comment. destruct line; cbn [JS.break_on]; now rewrite H.
Qed.

Lemma strip_prefix_longer (n s t r : string) :
  JS.strip_prefix n (s ++ t) = Some r ->
  String.length n <= String.length s ->
  exists r', JS.strip_prefix n s = Some r' /\ r = r' ++ t.
Proof.
  intros H Hlen. destruct (strip_prefix_shorten n s t r H Hlen) as [r' Hr'].
  exists r'. split; [exact Hr'|].
  rewrite (strip_prefix_append _ _ _ t Hr') in H. now injection H.
Qed.

(** A line and what follows it. *)
Lemma erase_comment_line (line rest : string) :
  JS.all_chars (fun c => negb (JS.is_line_terminator c)) line = true ->
  erase match_line_comment (line ++ LF ++ rest)
  = before_comment line ++ LF ++ erase match_line_comment rest.
Proof.
  intros Hline. induction line as [|c l IH].
  - cbn [append]. unfold LF. cbn [append]. rewrite erase_comment_keep by reflexivity.
    reflexivity.
  - cbn [JS.all_chars] in Hline. apply andb_true_iff in Hline as [Hc Hl].
    destruct (JS.strip_prefix "--" (String c l ++ LF ++ rest)) as [r|] eqn:E.
    + (* the comment starts here: the line has its two hyphens *)
      assert (Hlen : String.length "--" <= String.length (String c l)).
      { destruct l as [|d l'].
        - exfalso. unfold LF in E. cbn [append JS.strip_prefix] in E.
          destruct (Ascii.eqb "-" c); [|discriminate E].
          cbn in E. discriminate E.
        - cbn. lia. }
      destruct (strip_prefix_longer _ _ _ _ E Hlen) as (r' & Hr' & ->).
      rewrite (erase_comment_skip _ _ E), (before_comment_skip _ _ Hr').
      assert (Hr : JS.all_chars (fun c => negb (JS.is_line_terminator c)) r' = true).
      { pose proof (strip_prefix_sound _ _ _ Hr') as Hs. cbn [append] in Hs.
        destruct l as [|d l']; [discriminate Hs|]. injection Hs as _ _ <-.
        cbn [JS.all_chars] in Hl. now apply andb_true_iff in Hl as [_ Hl]. }
      rewrite (span_whole_run _ r' (LF ++ rest) Hr) by reflexivity.
      cbn [snd]. unfold LF. cbn [append]. rewrite erase_comment_keep by reflexivity.
      reflexivity.
    + assert (E' : JS.strip_prefix "--" (String c l) = None).
      { destruct (JS.strip_prefix "--" (String c l)) as [r'|] eqn:E'; [|reflexivity].
        now rewrite (strip_prefix_append _ _ _ (LF ++ rest) E') in E. }
      cbn [append] in E |- *.
      rewrite (erase_comment_keep _ _ E), (before_comment_keep _ _ E'), (IH Hl).
      reflexivity.
Qed.

Lemma erase_comment_last_line (line : string) :
  JS.all_chars (fun c => negb (JS.is_line_terminator c)) line = true ->
  erase match_line_comment line = before_comment line.
Proof.
  intros Hline. induction line as [|c l IH]; [reflexivity|].
  cbn [JS.all_chars] in Hline. apply andb_true_iff in Hline as [Hc Hl].
  destruct (JS.strip_prefix "--" (String c l)) as [r|] eqn:E.
  - rewrite (erase_comment_skip _ _ E), (before_comment_skip _ _ E).
    assert (Hr : JS.all_chars (fun c => negb (JS.is_line_terminator c)) r = true).
    { pose proof (strip_prefix_sound _ _ _ E) as Hs. cbn [append] in Hs.
      destruct l as [|d l']; [discriminate Hs|]. injection Hs as _ _ <-.
      cbn [JS.all_chars] in Hl. now apply andb_true_iff in Hl as [_ Hl]. }
    pose proof (span_whole_run _ r "" Hr eq_refl) as Hspan.
    rewrite append_empty_r in Hspan. now rewrite Hspan.
  - now rewrite (erase_comment_keep _ _ E), (before_comment_keep _ _ E), (IH Hl).
Qed.

Lemma no_line_terminator (s : string) :
  JS.has_char (ascii_of_nat 10) s = false ->
  JS.has_char (ascii_of_nat 13) s = false ->
  JS.all_chars (fun c => negb (JS.is_line_terminator c)) s = true.
Proof.
  induction s as [|c s IH]; [reflexivity|].
  rewrite !has_char_cons. intros H10 H13.
  apply orb_false_iff in H10 as [Hc10 Hs10]. apply orb_false_iff in H13 as [Hc13 Hs13].
  cbn [JS.all_chars]. rewrite (IH Hs10 Hs13), andb_true_r.
  unfold JS.is_line_terminator.
  destruct (Nat.eqb_spec (nat_of_ascii c) 10) as [E|_].
  { rewrite <- (ascii_nat_embedding c), E, Ascii.eqb_refl in Hc10. discriminate. }
  destruct (Nat.eqb_spec (nat_of_ascii c) 13) as [E|_].
  { rewrite <- (ascii_nat_embedding c), E, Ascii.eqb_refl in Hc13. discriminate. }
  reflexivity.
Qed.

(** The source without its line comments, line by line. *)
Lemma erase_comment_lines (s : string) :
  JS.has_char (ascii_of_nat 13) s = false ->
  erase match_line_comment s = JS.join LF (map before_comment (JS.split s LF)).
Proof.
  assert (H : forall n s, String.length s <= n ->
                          JS.has_char (ascii_of_nat 13) s = false ->
                          erase match_line_comment s
                          = JS.join LF (map before_comment (JS.split s LF))).
  { clear s. induction n as [|n IH]; intros s Hlen Hcr.
    - destruct s; [reflexivity | cbn in Hlen; lia].
    - unfold LF in *.
      destruct (split_char_head (ascii_of_nat 10) s) as (piece & more & E & Hp & Hrest).
      rewrite E. destruct Hrest as [[-> ->]|(rest & -> & ->)].
      + cbn [map JS.join]. apply erase_comment_last_line.
        now apply no_line_terminator.
      + rewrite has_char_append, has_char_cons in Hcr.
        apply orb_false_iff in Hcr as [Hcp Hcr]. cbn [orb] in Hcr.
        change (piece ++ String (ascii_of_nat 10) rest)
          with (piece ++ LF ++ rest).
        rewrite erase_comment_line by now apply no_line_terminator.
        rewrite IH; [|rewrite length_append in Hlen; cbn in Hlen; lia|exact Hcr].
        pose proof (split_char_nonempty (ascii_of_nat 10) rest) as Hne.
        unfold LF.
        destruct (JS.split rest (String (ascii_of_nat 10) "")) as [|p2 more2];
          [contradiction|reflexivity]. }
  exact (H (String.length s) s (le_n _)).
Qed.

Lemma erase_comment_head (s : string) :
  JS.startsWith (erase match_line_comment s) "[" = true -> JS.startsWith s "[" = true.
Proof.
  destruct s as [|c s]; [discriminate|].
  destruct (JS.strip_prefix "--" (String c s)) as [r|] eqn:E.
  - rewrite (erase_comment_skip _ _ E).
    destruct (JS.span (fun c => negb (JS.is_line_terminator c)) r) as [comment rest] eqn:Es.
    destruct (span_sound _ _ _ _ Es) as [_ Hhead]. cbn [snd].
    destruct rest as [|d rest]; [discriminate|].
    cbn [JS.head_in] in Hhead. apply negb_false_iff in Hhead.
    rewrite erase_comment_keep.
    + unfold JS.startsWith. cbn [JS.strip_prefix].
      destruct (Ascii.eqb_spec "[" d) as [<-|_]; [discriminate Hhead | discriminate].
    + cbn [JS.strip_prefix].
      destruct (Ascii.eqb_spec "-" d) as [<-|_]; [discriminate Hhead | reflexivity].
  - rewrite (erase_comment_keep _ _ E). unfold JS.startsWith. cbn [JS.strip_prefix].
    now destruct (Ascii.eqb "[" c).
Qed.

Lemma erase_comment_no_bracket (s : string) :
  JS.includes s "[[" = false -> JS.includes (erase match_line_comment s) "[[" = false.
Proof.
  assert (H : forall n s, String.length s <= n ->
                          JS.includes s "[[" = false ->
                          JS.includes (erase match_line_comment s) "[[" = false).
  { clear s. induction n as [|n IH]; intros s Hlen Hs.
    - destruct s; [reflexivity | cbn in Hlen; lia].
    - destruct s as [|c s]; [reflexivity|].
      destruct (JS.strip_prefix "--" (String c s)) as [r|] eqn:E.
      + rewrite (erase_comment_skip _ _ E).
        destruct (JS.span (fun c => negb (JS.is_line_terminator c)) r)
          as [comment rest] eqn:Es.
        destruct (span_sound _ _ _ _ Es) as [Hr _]. cbn [snd].
        pose proof (strip_prefix_sound _ _ _ E) as Hsr. rewrite Hr in Hsr.
        apply IH.
        * apply (f_equal String.length) in Hsr. rewrite !length_append in Hsr.
          cbn [String.length] in Hsr, Hlen. lia.
        * apply (includes_part "[[" ("--" ++ comment) rest "").
          now rewrite append_empty_r, append_assoc, <- Hsr.
      + rewrite (erase_comment_keep _ _ E), includes_cons.
        rewrite includes_cons in Hs. apply orb_false_iff in Hs as [Hhead Htail].
        rewrite (IH s); [|cbn in Hlen; lia|exact Htail]. rewrite orb_false_r.
        destruct (JS.startsWith (String c (erase match_line_comment s)) "[[") eqn:Hb;
          [|reflexivity].
        exfalso. unfold JS.startsWith in Hb, Hhead. cbn [JS.strip_prefix] in Hb, Hhead.
        destruct (Ascii.eqb "[" c); [|discriminate Hb].
        assert (Hs' : JS.startsWith (erase match_line_comment s) "[" = true).
        { unfold JS.startsWith.
          destruct (erase match_line_comment s) as [|d t]; [discriminate Hb|].
          cbn [JS.strip_prefix] in *. now destruct (Ascii.eqb "[" d). }
        apply erase_comment_head in Hs'. unfold JS.startsWith in Hs'.
        destruct s as [|d t]; [discriminate Hs'|].
        cbn [JS.strip_prefix] in *. destruct (Ascii.eqb "[" d); discriminate. }
  exact (H (String.length s) s (le_n _)).
Qed.

(** X20: the survival test and the line comments.  The handler of a
    require builds a copy of the source without long brackets, line
    comments and the quoted strings that hold the require, and leaves the
    require as it is when its text is not in the copy.  For the match of
    a require in a source without [[[] and without a backslash the copy
    is the source without its line comments, and nothing else decides:
    each line is cut at its first [--] (the source has lost its carriage
    returns before), a source without [--] is its own copy, and a require
    whose text only stands in line comments is given back untouched,
    without a file being resolved. *)
Theorem require_is_tested_without_the_line_comments
        (cleanSource before line rest : string) (m : RequireMatch) :
  match_require before line = Some (m, rest) ->
  JS.includes cleanSource "[[" = false ->
  JS.has_char "\" cleanSource = false ->
  tempSource cleanSource m = erase match_line_comment cleanSource
  /\ require_survives cleanSource m
     = JS.includes (erase match_line_comment cleanSource) (fullMatch m)
  /\ (JS.has_char (ascii_of_nat 13) cleanSource = false ->
      erase match_line_comment cleanSource
      = JS.join LF (map before_comment (JS.split cleanSource LF)))
  /\ (JS.includes cleanSource "--" = false ->
      erase match_line_comment cleanSource = cleanSource)
  /\ (forall compiler requireFile_rec st,
         JS.includes (erase match_line_comment cleanSource) (fullMatch m) = false ->
         require_handler compiler requireFile_rec cleanSource m st
         = Done (fullMatch m) st).
Proof.
  intros Hm Hbracket Hslash.
  assert (Htemp : tempSource cleanSource m = erase match_line_comment cleanSource).
  { unfold tempSource, JS.replace_first.
    rewrite (break_on_absent "\" (escapeForRegex (fullMatch m)) cleanSource).
    - pose proof (includes_longer _ "[[" "require(" (file m ++ "]])")
                                  (erase_comment_no_bracket _ Hbracket)) as Hlit.
      unfold erase in *.
      rewrite (replace_all_without _ match_long_bracket "[[" match_long_bracket_needs
                                   _ _ Hbracket).
      rewrite (replace_all_without _ (match_quoted "'" ("require([[" ++ file m ++ "]])"))
                                   ("require([[" ++ file m ++ "]])")
                                   (match_quoted_needs _ _) _ _ Hlit).
      exact (replace_all_without _ (match_quoted double_quote
                                                 ("require([[" ++ file m ++ "]])"))
                                 ("require([[" ++ file m ++ "]])")
                                 (match_quoted_needs _ _) _ _ Hlit).
    - apply (escapeForRegex_protects "("); [reflexivity|].
      exact (match_require_paren _ _ _ _ Hm).
    - exact Hslash. }
  split; [exact Htemp|]. split; [|split; [|split]].
  - unfold require_survives. now rewrite Htemp.
  - apply erase_comment_lines.
  - intros Hcomment.
    exact (replace_all_without _ match_line_comment "--" match_line_comment_needs
                               _ _ Hcomment).
  - intros compiler requireFile_rec st Hgone. unfold require_handler, require_survives.
    now rewrite Htemp, Hgone.
Qed.

Lemma require_is_tested_without_the_line_comments_witness :
  let cleanSource := "-- local a = require('util:a')" ++ LF ++ "return 1" in
  tempSource cleanSource (mkRequireMatch "require('util:a')" "util:a") = LF ++ "return 1"
  /\ require_handler (sample_compiler true no_variables) (fun _ _ => Starved) cleanSource
                     (mkRequireMatch "require('util:a')" "util:a") state_in_main
     = Done "require('util:a')" state_in_main.
Proof.
  intros cleanSource.
  pose proof (require_is_tested_without_the_line_comments
                cleanSource " = a lacol --" "require('util:a')" ""
                (mkRequireMatch "require('util:a')" "util:a")
                eq_refl eq_refl eq_refl)
    as (Htemp & _ & _ & _ & Hhandler).
  split.
  - exact Htemp.
  - exact (Hhandler (sample_compiler true no_variables) (fun _ _ => Starved)
                    state_in_main eq_refl).
Defined.

(** ** The same reference, twice *)

Lemma getRequiredFileInfo_context (host : Host) (compiler : Compiler)
      (reference : string) (st st' : State) :
  sourceDirectories st' = sourceDirectories st ->
  currentLibraries st' = currentLibraries st ->
  getRequiredFileInfo host compiler reference st'
  = getRequiredFileInfo host compiler reference st.
Proof.
  intros Hd Hl. unfold getRequiredFileInfo, getCurrentDirectory, getCurrentLibrary.
  now rewrite Hd, Hl.
Qed.

Lemma NoDup_map_same (A B : Type) (f : A -> B) (l : list A) (a b : A) :
  NoDup (map f l) -> In a l -> In b l -> f a = f b -> a = b.
Proof.
  induction l as [|x l IH]; intros Hn Ha Hb Hf; [contradiction|].
  cbn [map] in Hn. inversion Hn as [|? ? Hx Hl]; subst.
  destruct Ha as [<-|Ha], Hb as [<-|Hb].
  - reflexivity.
  - exfalso. apply Hx. rewrite Hf. now apply in_map.
  - exfalso. apply Hx. rewrite <- Hf. now apply in_map.
  - now apply IH.
Qed.

(** X21: a reference required again.  When [requireFile] has answered
    an entry for a reference below the root, the same call made again in
    the state it left finds the file resolved as before and its require
    name among the accumulated entries: it answers the first entry of
    that name without processing a source and without accumulating
    anything, and that entry is the one answered before when the require
    names of the accumulated entries are pairwise distinct. *)
Theorem requireFile_again
        (host : Host) (compiler : Compiler) (n k : nat) (reference : string)
        (st st' : State) (entry : DULuaCompilerRequire) :
  requireFile host compiler (S n) reference st = Done (Some entry) st' ->
  isRootFile st = false ->
  exists info again,
    getRequiredFileInfo host compiler reference st' = inr (Some info)
    /\ requireFile host compiler (S k) reference st'
       = Done (Some again) (announced host compiler info st')
    /\ requiredFiles (announced host compiler info st') = requiredFiles st'
    /\ fullNameWithProject again = fullNameWithProject entry
    /\ (NoDup (names st') -> again = entry).
Proof.
  intros H Hroot.
  destruct (requireFile_kept host compiler _ _ _ _ _ H) as (Hd & Hf & Hl & _).
  destruct (requireFile_name host compiler _ _ _ _ _ H) as (info & Hinfo & Hname).
  assert (Hinfo' : getRequiredFileInfo host compiler reference st' = inr (Some info)).
  { now rewrite (getRequiredFileInfo_context _ _ _ _ _ Hd Hl). }
  assert (Hin : In entry (requiredFiles st')).
  { destruct (existsb (String.eqb (fullpath info)) (currentFiles st)) eqn:Hloop.
    { rewrite (requireFile_loop _ _ _ _ _ _ Hinfo Hloop) in H. discriminate. }
    destruct (announced_frame host compiler info st) as (_ & Ar & _).
    destruct (filter (fun e => fullNameWithProject e =? requireFullName host compiler info)
                     (requiredFiles (announced host compiler info st)))
      as [|existing more] eqn:Hfilter.
    - rewrite (requireFile_fresh _ _ _ _ _ _ Hinfo Hloop Hfilter) in H.
      destruct (processSourceCode _ _ _ _ _) as [processed st2| |] eqn:Hsrc;
        try discriminate.
      injection H as <- <-.
      destruct (processed_source_state _ _ _ _ _ _ _ Hsrc) as [Hroot2 _].
      unfold closed. rewrite Hroot2, Hroot. cbn [negb accumulated requiredFiles].
      apply in_or_app. right. now left.
    - rewrite (requireFile_cached _ _ _ _ _ _ _ _ Hinfo Hloop Hfilter) in H.
      injection H as <- <-. rewrite Ar.
      assert (Hin : In existing
                      (filter (fun e => fullNameWithProject e
                                        =? requireFullName host compiler info)
                              (requiredFiles (announced host compiler info st)))).
      { rewrite Hfilter. now left. }
      apply filter_In in Hin as [Hin _]. now rewrite Ar in Hin. }
  destruct (announced_frame host compiler info st') as (_ & Ar' & _).
  assert (Hloop' : existsb (String.eqb (fullpath info)) (currentFiles st') = false).
  { rewrite Hf.
    destruct (existsb (String.eqb (fullpath info)) (currentFiles st)) eqn:Hloop;
      [|reflexivity].
    rewrite (requireFile_loop _ _ _ _ _ _ Hinfo Hloop) in H. discriminate. }
  destruct (filter (fun e => fullNameWithProject e =? requireFullName host compiler info)
                   (requiredFiles (announced host compiler info st')))
    as [|again more] eqn:Hfilter'.
  { exfalso. apply (filter_none_absent _ _ Hfilter').
    rewrite Ar', <- Hname. now apply in_map. }
  assert (Hagain : In again (requiredFiles st')
                   /\ fullNameWithProject again = requireFullName host compiler info).
  { assert (Hin' : In again
                      (filter (fun e => fullNameWithProject e
                                        =? requireFullName host compiler info)
                              (requiredFiles (announced host compiler info st')))).
    { rewrite Hfilter'. now left. }
    apply filter_In in Hin' as [Hin' Heq]. rewrite Ar' in Hin'.
    split; [exact Hin' | now apply String.eqb_eq]. }
  destruct Hagain as [Hin' Hname'].
  exists info, again. split; [exact Hinfo'|]. split.
  { exact (requireFile_cached _ _ _ _ _ _ _ _ Hinfo' Hloop' Hfilter'). }
  split; [exact Ar'|]. split; [congruence|].
  intros Hnodup. apply (NoDup_map_same _ _ fullNameWithProject (requiredFiles st'));
    [exact Hnodup | exact Hin' | exact Hin | congruence].
Qed.

Lemma requireFile_again_witness :
  exists info again,
    getRequiredFileInfo diamond_host (sample_compiler true no_variables) "util:b"
                        state_after_b = inr (Some info)
    /\ requireFile diamond_host (sample_compiler true no_variables) 1 "util:b" state_after_b
       = Done (Some again)
              (announced diamond_host (sample_compiler true no_variables) info state_after_b)
    /\ requiredFiles (announced diamond_host (sample_compiler true no_variables) info
                                state_after_b)
       = requiredFiles state_after_b
    /\ fullNameWithProject again = "util:../libs/util/b.lua"
    /\ (NoDup (names state_after_b) ->
        again = mkRequire "util:../libs/util/b.lua" "return require('util:a.lua')").
Proof.
  exact (requireFile_again
           diamond_host (sample_compiler true no_variables) 1 0 "util:b"
           state_after_a state_after_b
           (mkRequire "util:../libs/util/b.lua" "return require('util:a.lua')")
           eq_refl eq_refl).
Defined.

(** ** The end of a build *)

Section Termination.

Variable host : Host.
Variable compiler : Compiler.

Lemma replaceAsync_runs (M : Type) (handler : M -> Run string) (stack : list string) :
  (forall m st, currentFiles st = stack -> handler m st <> Starved) ->
  (forall m st x st', handler m st = Done x st' -> kept compiler st st') ->
  forall l st, currentFiles st = stack -> replaceAsync handler l st <> Starved.
Proof.
  intros Hrun Hkept l. induction l as [|[c|m] l IH]; intros st Hst;
    cbn [replaceAsync]; unfold bind, ret.
  - discriminate.
  - specialize (IH st Hst).
    destruct (replaceAsync handler l st); [discriminate | discriminate | contradiction].
  - specialize (Hrun m st Hst).
    destruct (handler m st) as [r st1| |] eqn:E; [|discriminate|contradiction].
    destruct (Hkept _ _ _ _ E) as (_ & Hf & _).
    specialize (IH st1 ltac:(congruence)).
    destruct (replaceAsync handler l st1); [discriminate | discriminate | contradiction].
Qed.

Section Knot.

Variable requireFile_rec : string -> Run (option DULuaCompilerRequire).
Variable stack : list string.

Hypothesis rec_runs :
  forall reference st, currentFiles st = stack -> requireFile_rec reference st <> Starved.

Hypothesis rec_kept :
  forall reference st r st',
    requireFile_rec reference st = Done r st' -> kept compiler st st'.

Lemma rewrite_line_runs (cleanSource line : string) (st : State) :
  currentFiles st = stack ->
  rewrite_line compiler requireFile_rec cleanSource line st <> Starved.
Proof.
  intros Hst. unfold rewrite_line, bind.
  pose proof (replaceAsync_runs _ (require_handler compiler requireFile_rec cleanSource)
                                stack) as Hreq.
  destruct (replaceAsync (require_handler compiler requireFile_rec cleanSource) _ st)
    as [line1 st1| |] eqn:E1; [|discriminate|].
  - destruct (replaceAsync_kept compiler _ _
                (require_handler_kept compiler _ rec_kept cleanSource) _ _ _ _ E1)
      as (_ & Hf & _).
    pose proof (replaceAsync_runs _ undefined_behavior_handler stack) as Hub.
    destruct (replaceAsync undefined_behavior_handler _ st1) as [line2 st2| |] eqn:E2;
      [|discriminate|].
    + destruct (expandCompilerFunctions compiler st2 line2); discriminate.
    + exfalso. refine (Hub _ _ _ st1 ltac:(congruence) E2).
      * intros d s0 _. discriminate.
      * intros d s0 x s0' Hd. unfold undefined_behavior_handler, bind, emit, ret in Hd.
        injection Hd as _ <-. now apply kept_same.
  - exfalso. refine (Hreq _ _ _ st Hst E1).
    + intros m s0 Hs0. unfold require_handler, bind, ret.
      destruct (negb (require_survives cleanSource m)); [discriminate|].
      specialize (rec_runs (file m) s0 Hs0).
      destruct (requireFile_rec (file m) s0) as [[entry|] s1| |];
        [|discriminate|discriminate|contradiction].
      destruct (negb (preload compiler)); discriminate.
    + apply require_handler_kept. exact rec_kept.
Qed.

Lemma process_lines_runs (cleanSource : string) (lines : list string) :
  forall idx st,
    currentFiles st = stack -> currentLineOfCode st <> [] ->
    process_lines compiler requireFile_rec cleanSource idx lines st <> Starved.
Proof.
  induction lines as [|line more IH]; intros idx st Hst Hne;
    cbn [process_lines]; unfold bind, ret; [discriminate|].
  unfold setLineOfCode.
  match goal with
  | |- context [rewrite_line _ _ _ ?l ?s] =>
      pose proof (rewrite_line_runs cleanSource l s Hst) as Hline;
      destruct (rewrite_line compiler requireFile_rec cleanSource l s)
        as [rewritten st1| |] eqn:E1; [|discriminate|contradiction]
  end.
  destruct (negb (preload compiler) && is_bare_inline_require rewritten); [discriminate|].
  pose proof (rewrite_line_kept compiler _ rec_kept _ _ _ _ _ E1) as Hk.
  assert (Hst1 : currentFiles st1 = stack).
  { destruct Hk as (_ & Hf & _). cbn [currentFiles] in Hf. congruence. }
  assert (Hne1 : currentLineOfCode st1 <> []).
  { apply (kept_lines compiler _ _ Hk). discriminate. }
  specialize (IH (idx + 1) st1 Hst1 Hne1).
  destruct (process_lines compiler requireFile_rec cleanSource (idx + 1) more st1);
    [discriminate | discriminate | contradiction].
Qed.

Lemma processSourceCode_runs (source : string) (st : State) :
  currentFiles st = stack ->
  processSourceCode host compiler requireFile_rec source st <> Starved.
Proof.
  intros Hst. unfold processSourceCode.
  destruct (luaparse host _) as [[line message]|]; [discriminate|].
  unfold bind, pushLineOfCode, popLineOfCode, ret.
  match goal with
  | |- context [process_lines _ _ ?c ?i ?ls ?s] =>
      pose proof (process_lines_runs c ls i s Hst ltac:(discriminate)) as Hlines;
      destruct (process_lines compiler requireFile_rec c i ls s)
        as [[ls'|] st1| |]; [discriminate|discriminate|discriminate|contradiction]
  end.
Qed.

End Knot.

Variable universe : list string.

(** Every file a reference resolves to is one of finitely many. *)
Hypothesis resolved_in_universe :
  forall reference st info,
    getRequiredFileInfo host compiler reference st = inr (Some info) ->
    In (fullpath info) universe.

Lemma requireFile_runs (fuel : nat) :
  forall reference st,
    NoDup (currentFiles st) ->
    incl (currentFiles st) universe ->
    List.length universe < fuel + List.length (currentFiles st) ->
    requireFile host compiler fuel reference st <> Starved.
Proof.
  induction fuel as [|n IH]; intros reference st Hnodup Hincl Hfuel.
  - exfalso. pose proof (NoDup_incl_length Hnodup Hincl). cbn in Hfuel. lia.
  - cbn [requireFile]. unfold requireFile_body.
    destruct (getRequiredFileInfo host compiler reference st) as [f|[info|]] eqn:Hinfo;
      [discriminate| |destruct (isRootFile st); discriminate].
    destruct (existsb (String.eqb (fullpath info)) (currentFiles st)) eqn:Hloop;
      [discriminate|].
    apply off_stack_iff in Hloop.
    destruct (filter _ (requiredFiles (announced host compiler info st)));
      [|discriminate].
    destruct (announced_frame host compiler info st) as (_ & _ & Af & _).
    pose proof (processSourceCode_runs
                  (requireFile host compiler n) (fullpath info :: currentFiles st))
      as Hsrc.
    destruct (processSourceCode host compiler (requireFile host compiler n) _ _)
      as [processed st2| |] eqn:E; [discriminate|discriminate|].
    exfalso. refine (Hsrc _ (requireFile_kept host compiler n) _ _ _ E).
    + intros ref0 s0 Hs0. apply IH; rewrite Hs0.
      * constructor; assumption.
      * intros x [<-|Hx]; [exact (resolved_in_universe _ _ _ Hinfo) | now apply Hincl].
      * cbn [List.length]. lia.
    + cbn [opened entered logged currentFiles]. now rewrite Af.
Qed.

End Termination.

(** X22: a build ends.  The nesting of the requires is bounded by the
    number of the files: [requireFile] refuses a file that is on the stack
    of the files being processed, so that the stack never holds a file
    twice.  When every file a reference resolves to is one of a finite
    list, a call of [requireFile] whose fuel exceeds the number of listed
    files that are not on the stack gives a result or an error, and so
    does the whole build with more fuel than there are files. *)
Theorem build_ends
        (host : Host) (compiler : Compiler) (universe : list string) :
  (forall reference st info,
      getRequiredFileInfo host compiler reference st = inr (Some info) ->
      In (fullpath info) universe) ->
  (forall fuel reference st,
      NoDup (currentFiles st) ->
      incl (currentFiles st) universe ->
      List.length universe < fuel + List.length (currentFiles st) ->
      requireFile host compiler fuel reference st <> Starved)
  /\ (forall fuel,
         List.length universe < fuel -> compile host compiler fuel <> Starved)
  /\ (forall fuel requireName,
         List.length universe < fuel ->
         compileRequire host compiler fuel requireName <> Starved).
Proof.
  intros Huniverse.
  assert (Hstart : forall fuel requireName,
             List.length universe < fuel ->
             startBuild host compiler fuel requireName (initialState compiler) <> Starved).
  { intros fuel requireName Hfuel. unfold startBuild, bind, fail.
    pose proof (requireFile_runs host compiler universe Huniverse fuel
                  (if truthy_name requireName
                   then match requireName with Some r => r | None => "" end
                   else projectName compiler ++ ":" ++ buildName compiler)
                  (started compiler (initialState compiler))
                  (NoDup_nil _) (incl_nil_l _)
                  ltac:(cbn [started initialState currentFiles List.length]; lia)) as Hrun.
    destruct (requireFile host compiler fuel _ (started compiler (initialState compiler)))
      as [[entry|] st1| |]; [discriminate | discriminate | discriminate | contradiction]. }
  split; [|split].
  - apply requireFile_runs. exact Huniverse.
  - intros fuel Hfuel. exact (Hstart fuel None Hfuel).
  - intros fuel requireName Hfuel. exact (Hstart fuel (Some requireName) Hfuel).
Qed.

Lemma build_ends_witness :
  compile diamond_host (sample_compiler true no_variables) 4 <> Starved.
Proof.
  exact (proj1 (proj2 (build_ends diamond_host (sample_compiler true no_variables)
                                  (map fst diamond_files)
                                  (posix_resolved_file "/p" diamond_files
                                                       (sample_compiler true no_variables))))
               4 ltac:(cbn; lia)).
Defined.

(** ** A directive on a variable that is not bound *)

(** X23: a directive whose variable is not bound.  The value looked up
    is [undefined], which is loosely equal to [null] and [undefined] and
    to nothing else: the test of the directive, which chooses the first
    body, holds exactly when the literal is read as [null]; it fails, and
    the second body is chosen, in particular when the line holds no
    literal and when [JSON.parse] refuses the literal. *)
Theorem unbound_variable_takes_the_second_body
        (StringToNumber : string -> JSNumber)
        (JSON_parse : string -> option JSValue)
        (variables : CompilerVariableSet) (name value : string) :
  variables name = JUndefined ->
  directive_test StringToNumber JSON_parse variables name value
  = match directive_literal JSON_parse value with
    | JNull | JUndefined => true
    | _ => false
    end
  /\ directive_test StringToNumber JSON_parse variables name "" = false
  /\ (JSON_parse value = None ->
      directive_test StringToNumber JSON_parse variables name value = false).
Proof.
  intros Hvar. unfold directive_test. rewrite Hvar. split; [|split].
  - now destruct (directive_literal JSON_parse value) as [| |[|]| | |].
  - reflexivity.
  - intros Hparse. unfold directive_literal. rewrite Hparse.
    now destruct (Nat.eqb (String.length value) 0).
Qed.

Lemma unbound_variable_takes_the_second_body_witness :
  directive_test StringToNumber_integers JSON_parse_literals sample_variables
                 "OTHER" " null" = true
  /\ directive_test StringToNumber_integers JSON_parse_literals sample_variables
                    "OTHER" "" = false.
Proof.
  pose proof (unbound_variable_takes_the_second_body
                StringToNumber_integers JSON_parse_literals sample_variables
                "OTHER" " null" eq_refl) as (Htest & Hnone & _).
  split; [exact Htest | exact Hnone].
Defined.
